(** * mfslib: the MFS micro file server (src/main.cpp)

    A shallow embedding of the [mfs_server] class: the 9-byte header codec,
    the string helpers, the file registry lookup, the transport-facing
    message I/O and the serve loop, followed by the properties of the
    protocol specification that were checked against it.

    Conventions of the embedding.
    - [unsigned int], [unsigned long long], [unsigned short] and
      [unsigned char] values are integers of [Z]; the arithmetic that can
      leave the range of [unsigned int] or [unsigned long long] is wrapped
      by [u32] or [u64].
    - A [char] object is represented by its byte content, an integer in
      [0, 256).  Whether plain [char] is a signed type is left to the C++
      implementation; the embedding takes it as the parameter
      [char_is_signed] and uses it at the one place where the source
      converts a [char] to a wider type ([read_headers]).
    - An array handed over as pointer and element count ([clients],
      [files], [path_buffer], [data_buffer]) is a list, and the count is
      its length.  A [char*] that may be null is an [option]; the two
      message pointers are values of [ptr].
    - Reads and writes outside an array are undefined in C++.  [nth]
      answers [0] there and [store] leaves the array alone; the theorems
      that send an error code ask for a data buffer of two bytes at
      least, which [send_mfs_error] writes to.
    - A call through a null handler and a write from a null pointer end
      the run in [Fault].  The one loop without a bound of its own, the
      data-consuming loop of [read_mfs_message], runs on fuel and ends in
      [Spin] without it.
    - The callbacks are fields of the server object, as in the class.  They
      act on an abstract [World]; the server threads it through every call
      and records the read, write and close calls and the file handler
      calls it makes as a list of [event]s. *)

From Stdlib Require Import ZArith List Bool Lia.
Import ListNotations.
Open Scope Z_scope.

(** ** Constants of the protocol *)

Definition OP_NOOP : Z := 0.
Definition OP_READ : Z := 1.
Definition OP_WRITE : Z := 2.
Definition OP_LS : Z := 3.
Definition OP_ERROR : Z := 4.
Definition RESPONSE_OF (x : Z) : Z := Z.lor x 0x80.
Definition MFS_RESERVED_OP_RANGE : Z := 30.

(** ** Machine integers *)

Definition u32 (x : Z) : Z := x mod 2 ^ 32.
Definition u64 (x : Z) : Z := x mod 2 ^ 64.

Definition is_byte (b : Z) : Prop := 0 <= b < 256.

(** ** Data *)

Definition client_t := Z.

Record client_handlers_t := mk_client {
  client : client_t;
  timer_end : Z
}.

(** The two pointers of a message.  [EXTERN mem] is memory that belongs to
    a file handler, with contents [mem]. *)
Inductive ptr :=
| NULL
| PATH_BUFFER
| DATA_BUFFER
| EXTERN (mem : list Z).

Record mfs_message_t := mk_msg {
  psize : Z;
  dsize : Z;
  op : Z;
  path : ptr;
  data : ptr
}.

Definition is_null (p : ptr) : bool :=
  match p with NULL => true | _ => false end.

(** Array update [a[i] = v]. *)
Fixpoint store (a : list Z) (i : nat) (v : Z) : list Z :=
  match a, i with
  | [], _ => []
  | _ :: a', O => v :: a'
  | x :: a', S i' => x :: store a' i' v
  end.

(** ** Header codec *)

Section Codec.

(** [true] where plain [char] is signed, [false] where it is unsigned. *)
Variable char_is_signed : bool.

(** The conversion [(unsigned int)c] of a [char] with byte content [b]. *)
Definition char_to_uint (b : Z) : Z :=
  if char_is_signed && (128 <=? b) then u32 (b - 256) else b.

Definition fill_headers (buffer : list Z) (msg : mfs_message_t) : list Z :=
  let buffer := store buffer 0 (Z.land (psize msg) 0xFF) in
  let buffer := store buffer 1 (Z.land (Z.shiftr (psize msg) 8) 0xFF) in
  let buffer := store buffer 2 (Z.land (Z.shiftr (psize msg) 16) 0xFF) in
  let buffer := store buffer 3 (Z.land (Z.shiftr (psize msg) 24) 0xFF) in
  let buffer := store buffer 4 (Z.land (dsize msg) 0xFF) in
  let buffer := store buffer 5 (Z.land (Z.shiftr (dsize msg) 8) 0xFF) in
  let buffer := store buffer 6 (Z.land (Z.shiftr (dsize msg) 16) 0xFF) in
  let buffer := store buffer 7 (Z.land (Z.shiftr (dsize msg) 24) 0xFF) in
  store buffer 8 (op msg).

Definition read_headers (buffer : list Z) (msg : mfs_message_t)
  : mfs_message_t :=
  let b i := char_to_uint (nth i buffer 0) in
  let p := 0 in
  let d := 0 in
  let p := Z.lor p (b 0%nat) in
  let p := Z.lor p (u32 (Z.shiftl (b 1%nat) 8)) in
  let p := Z.lor p (u32 (Z.shiftl (b 2%nat) 16)) in
  let p := Z.lor p (u32 (Z.shiftl (b 3%nat) 24)) in
  let d := Z.lor d (b 4%nat) in
  let d := Z.lor d (u32 (Z.shiftl (b 5%nat) 8)) in
  let d := Z.lor d (u32 (Z.shiftl (b 6%nat) 16)) in
  let d := Z.lor d (u32 (Z.shiftl (b 7%nat) 24)) in
  mk_msg p d (nth 8 buffer 0) (path msg) (data msg).

End Codec.

(** ** String helpers *)

(** The loop of [memcmp]: [i] is the loop variable, [todo] the number of
    iterations left. *)
Fixpoint memcmp_loop (buf1 buf2 : list Z) (i todo : nat) : Z :=
  match todo with
  | O => 0
  | S todo' =>
      if negb (nth i buf1 0 =? nth i buf2 0) then 1
      else memcmp_loop buf1 buf2 (S i) todo'
  end.

Definition memcmp (buf1 buf2 : list Z) (buf1_size buf2_size : Z) : Z :=
  if negb (buf1_size =? buf2_size) then 1
  else memcmp_loop buf1 buf2 0 (Z.to_nat buf1_size).

(** The loop of [strlen]: the value of [len] when the loop is left. *)
Fixpoint strlen_loop (buf : list Z) (len todo : nat) : nat :=
  match todo with
  | O => len
  | S todo' =>
      if nth len buf 0 =? 0 then len else strlen_loop buf (S len) todo'
  end.

Definition strlen (buf : list Z) (buf_size : Z) : Z :=
  let len := Z.of_nat (strlen_loop buf 0 (Z.to_nat buf_size)) in
  if len =? buf_size then 0 else len.

(** Copy [src] over the start of [dst]: what a completed read leaves in the
    destination array.  The length of [dst] never changes. *)
Definition blit (src dst : list Z) : list Z :=
  firstn (length dst) (src ++ skipn (length src) dst).

(** [memcpy n src dest offset]. *)
Fixpoint memcpy_loop (src dest : list Z) (offset i todo : nat) : list Z :=
  match todo with
  | O => dest
  | S todo' =>
      memcpy_loop src (store dest (i + offset) (nth i src 0)) offset (S i) todo'
  end.

Definition memcpy (n : Z) (src dest : list Z) (offset : Z) : list Z :=
  memcpy_loop src dest (Z.to_nat offset) 0 (Z.to_nat n).

(** ** What the server does to the outside *)

Inductive event :=
| EvRead (c : client_t) (n ret : Z)
    (* client_reader(c, _, n) returned ret *)
| EvWrite (c : client_t) (bytes : list Z) (n ret : Z)
    (* client_writer(c, bytes, n) returned ret *)
| EvClose (c : client_t)
    (* client_killer(c) *)
| EvReaderF (index : Z)
    (* files[index].reader_f(request) *)
| EvWriterF (index : Z).
    (* files[index].writer_f(request) *)

(** ** The server object *)

Section Server.

Context {World : Type}.

(** A file callback sees the request and the two shared buffers it points
    into, and answers with a message. *)
Definition file_cb : Type :=
  mfs_message_t -> list Z -> list Z -> World -> mfs_message_t * World.

Record mfs_file_t := mk_file {
  f_path : option (list Z);
  path_size : Z;
  writer_f : option file_cb;
  reader_f : option file_cb
}.

Record mfs_server := mk_server {
  path_buffer : list Z;
  data_buffer : list Z;
  clients : list client_handlers_t;
  files : list mfs_file_t;
  client_writer : client_t -> list Z -> Z -> World -> Z * World;
  client_reader : client_t -> Z -> World -> Z * list Z * World;
  client_killer : client_t -> World -> World;
  client_available : client_t -> World -> Z * World;
  accept_client : World -> client_t * World;
  millis : World -> Z * World;
  timer_ms : Z;
  hard_limit : Z
}.

Definition path_bsize (s : mfs_server) : Z := Z.of_nat (length (path_buffer s)).
Definition data_bsize (s : mfs_server) : Z := Z.of_nat (length (data_buffer s)).
Definition clients_len (s : mfs_server) : Z := Z.of_nat (length (clients s)).
Definition files_bsize (s : mfs_server) : Z := Z.of_nat (length (files s)).

Definition set_path_buffer (s : mfs_server) (b : list Z) : mfs_server :=
  mk_server b (data_buffer s) (clients s) (files s) (client_writer s)
    (client_reader s) (client_killer s) (client_available s)
    (accept_client s) (millis s) (timer_ms s) (hard_limit s).

Definition set_data_buffer (s : mfs_server) (b : list Z) : mfs_server :=
  mk_server (path_buffer s) b (clients s) (files s) (client_writer s)
    (client_reader s) (client_killer s) (client_available s)
    (accept_client s) (millis s) (timer_ms s) (hard_limit s).

Definition set_clients (s : mfs_server) (cs : list client_handlers_t)
  : mfs_server :=
  mk_server (path_buffer s) (data_buffer s) cs (files s) (client_writer s)
    (client_reader s) (client_killer s) (client_available s)
    (accept_client s) (millis s) (timer_ms s) (hard_limit s).

Definition set_files (s : mfs_server) (fs : list mfs_file_t) : mfs_server :=
  mk_server (path_buffer s) (data_buffer s) (clients s) fs (client_writer s)
    (client_reader s) (client_killer s) (client_available s)
    (accept_client s) (millis s) (timer_ms s) (hard_limit s).

(** The characters behind a [char*]; a null pointer has none. *)
Definition chars (p : option (list Z)) : list Z :=
  match p with Some l => l | None => [] end.

Definition empty_file : mfs_file_t := mk_file None 0 None None.
Definition empty_client : client_handlers_t := mk_client 0 0.

(** *** File registry lookup *)

(** First loop of [get_file_index]: is there a zero among
    [path[i] .. path[i + todo - 1]]? *)
Fixpoint has_nul (path : list Z) (i todo : nat) : bool :=
  match todo with
  | O => false
  | S todo' => if nth i path 0 =? 0 then true else has_nul path (S i) todo'
  end.

(** Second loop of [get_file_index], at index [i] with the slots [fs]
    still to visit. *)
Fixpoint get_file_index_loop (fs : list mfs_file_t) (path : list Z)
    (psize : Z) (i : Z) : Z :=
  match fs with
  | [] => -1
  | f :: fs' =>
      if negb (memcmp path (chars (f_path f)) psize
                 (strlen (chars (f_path f)) (path_size f)) =? 0)
      then get_file_index_loop fs' path psize (i + 1)
      else i
  end.

Definition get_file_index (s : mfs_server) (path : list Z) (psize : Z) : Z :=
  if has_nul path 0 (Z.to_nat psize) then -1
  else get_file_index_loop (files s) path psize 0.

Definition is_file_empty (s : mfs_server) (index : nat) : Z :=
  let f := nth index (files s) empty_file in
  if (path_size f =? 0) && (match f_path f with None => true | _ => false end)
     && (match reader_f f with None => true | _ => false end)
     && (match writer_f f with None => true | _ => false end)
  then 1 else 0.

(** *** Computations of the server

    A computation runs from a server object and a world.  It ends with a
    value ([Done]), in undefined behaviour ([Fault]: a call through a
    null handler or a write from a null pointer), or it is still looping
    when the fuel is used up ([Spin]).  Each carries the events emitted
    so far. *)

Inductive outcome (A : Type) :=
| Done (a : A) (s : mfs_server) (w : World) (tr : list event)
| Fault (tr : list event)
| Spin (tr : list event).
Arguments Done {A}.
Arguments Fault {A}.
Arguments Spin {A}.

Definition M (A : Type) : Type := mfs_server -> World -> outcome A.

Definition ret {A} (a : A) : M A := fun s w => Done a s w [].

(** Events emitted before [o] was reached. *)
Definition prefix {A} (t : list event) (o : outcome A) : outcome A :=
  match o with
  | Done a s w t' => Done a s w (t ++ t')
  | Fault t' => Fault (t ++ t')
  | Spin t' => Spin (t ++ t')
  end.

Definition bind {A B} (m : M A) (k : A -> M B) : M B :=
  fun s w =>
    match m s w with
    | Done a s1 w1 t1 => prefix t1 (k a s1 w1)
    | Fault t1 => Fault t1
    | Spin t1 => Spin t1
    end.

Notation "x <- m ;; k" := (bind m (fun x => k))
  (at level 61, m at next level, right associativity).
Notation "m ;;; k" := (bind m (fun _ => k))
  (at level 61, right associativity).

Definition this : M mfs_server := fun s w => Done s s w [].
Definition update (f : mfs_server -> mfs_server) : M unit :=
  fun s w => Done tt (f s) w [].
Definition fault {A} : M A := fun _ _ => Fault [].
Definition spin {A} : M A := fun _ _ => Spin [].

(** The callbacks, as computations. *)

Definition call_reader (c : client_t) (n : Z) : M (Z * list Z) :=
  fun s w =>
    let '(r, bytes, w') := client_reader s c n w in
    Done (r, firstn (Z.to_nat n) bytes) s w' [EvRead c n r].

Definition call_writer (c : client_t) (bytes : list Z) (n : Z) : M Z :=
  fun s w =>
    let '(r, w') := client_writer s c bytes n w in
    Done r s w' [EvWrite c bytes n r].

Definition call_killer (c : client_t) : M unit :=
  fun s w => Done tt s (client_killer s c w) [EvClose c].

Definition call_available (c : client_t) : M Z :=
  fun s w => let '(r, w') := client_available s c w in Done r s w' [].

Definition call_millis : M Z :=
  fun s w => let '(r, w') := millis s w in Done r s w' [].

Definition call_accept : M client_t :=
  fun s w => let '(r, w') := accept_client s w in Done r s w' [].

(** [client_reader(client, this->path_buffer, n)] and the same into the
    data buffer. *)
Definition read_into_path (c : client_t) (n : Z) : M Z :=
  rb <- call_reader c n ;;
  update (fun s => set_path_buffer s (blit (snd rb) (path_buffer s))) ;;;
  ret (fst rb).

Definition read_into_data (c : client_t) (n : Z) : M Z :=
  rb <- call_reader c n ;;
  update (fun s => set_data_buffer s (blit (snd rb) (data_buffer s))) ;;;
  ret (fst rb).

(** The [n] bytes behind a message pointer; a null pointer has none. *)
Definition bytes_of (s : mfs_server) (p : ptr) (n : Z) : option (list Z) :=
  match p with
  | NULL => if n =? 0 then Some [] else None
  | PATH_BUFFER => Some (firstn (Z.to_nat n) (path_buffer s))
  | DATA_BUFFER => Some (firstn (Z.to_nat n) (data_buffer s))
  | EXTERN mem => Some (firstn (Z.to_nat n) mem)
  end.

(** [client_writer(client, p, n)]: the callback is handed the [n] bytes
    behind [p]. *)
Definition write_from (c : client_t) (p : ptr) (n : Z) : M Z :=
  s <- this ;;
  match bytes_of s p n with
  | Some bytes => call_writer c bytes n
  | None => fault
  end.

(** *** drop_client *)

(** The loop of [drop_client] over the slots [cs]: [None] when no slot
    holds [c], else the table with the first such slot cleared. *)
Fixpoint drop_slot (c : client_t) (cs : list client_handlers_t)
  : option (list client_handlers_t) :=
  match cs with
  | [] => None
  | h :: cs' =>
      if c =? client h then Some (mk_client 0 (timer_end h) :: cs')
      else option_map (cons h) (drop_slot c cs')
  end.

Definition drop_client (c : client_t) : M Z :=
  if c =? 0 then ret 0
  else
    s <- this ;;
    match drop_slot c (clients s) with
    | Some cs' =>
        call_killer c ;;;
        update (fun s => set_clients s cs') ;;;
        ret 0
    | None => ret 1
    end.

(** *** send_mfs_message, send_mfs_error *)

Definition send_mfs_message (msg : mfs_message_t) (c : client_t) : M Z :=
  let buffer := fill_headers (repeat 0 9%nat) msg in
  r <- call_writer c buffer 9 ;;
  if negb (r =? 9) then drop_client c ;;; ret (-1)
  else
    r <- write_from c (path msg) (psize msg) ;;
    if negb (r =? psize msg) then drop_client c ;;; ret (-1)
    else
      r <- write_from c (data msg) (dsize msg) ;;
      if negb (r =? dsize msg) then drop_client c ;;; ret (-1)
      else ret 0.

(** The error code goes into the first two bytes of the data buffer.
    With a data buffer of fewer than two bytes the source writes past its
    end, which [store] leaves out: the definition stands for the source
    where [2 <= data_bsize s], and the theorems that state what a run
    which sends an error does carry that hypothesis. *)
Definition send_mfs_error (msg : mfs_message_t) (c : client_t)
    (error_code : Z) : M Z :=
  let msg := mk_msg (psize msg) 2 (RESPONSE_OF OP_ERROR) (path msg)
               DATA_BUFFER in
  update (fun s => set_data_buffer s (store (data_buffer s) 0 0)) ;;;
  update (fun s => set_data_buffer s (store (data_buffer s) 1 0)) ;;;
  update (fun s => set_data_buffer s
            (store (data_buffer s) 0 (Z.land error_code 0xFF))) ;;;
  update (fun s => set_data_buffer s
            (store (data_buffer s) 1 (Z.land (Z.shiftr error_code 8) 0xFF))) ;;;
  send_mfs_message msg c.

(** *** read_mfs_message *)

Definition empty_error_msg : mfs_message_t :=
  mk_msg 0 0 (RESPONSE_OF OP_ERROR) NULL NULL.

(** [result] before [read_headers] fills it: its two pointers are not
    initialised and are never read before they are assigned. *)
Definition uninitialised_msg : mfs_message_t := mk_msg 0 0 0 NULL NULL.

(** The path-consuming loop of the oversize branch.  Its body ends in an
    unconditional [break], so the body runs at most once. *)
Definition consume_path (c : client_t) (psize : Z) : M unit :=
  let processed_data := 0 in
  if processed_data <? psize then
    s <- this ;;
    let chunk_size :=
      if path_bsize s <? u32 (psize - processed_data) then path_bsize s
      else u32 (psize - processed_data) in
    r <- read_into_path c chunk_size ;;
    (if negb (r =? chunk_size) then drop_client c ;;; ret tt else ret tt) ;;;
    (* processed_data += chunk_size; break; *)
    ret tt
  else ret tt.

(** The data-consuming loop of the oversize branch, entered with
    [processed_data]. *)
Fixpoint consume_data (fuel : nat) (c : client_t) (dsize processed_data : Z)
  : M unit :=
  if processed_data <? dsize then
    match fuel with
    | O => spin
    | S fuel' =>
        s <- this ;;
        let chunk_size :=
          if data_bsize s <? u32 (dsize - processed_data) then data_bsize s
          else u32 (dsize - processed_data) in
        r <- read_into_data c chunk_size ;;
        if negb (r =? chunk_size) then drop_client c ;;; ret tt
        else consume_data fuel' c dsize (u32 (processed_data + chunk_size))
    end
  else ret tt.

Section ReadMessage.

Variable char_is_signed : bool.

Definition read_mfs_message (fuel : nat) (c : client_t) : M mfs_message_t :=
  rb <- call_reader c 9 ;;
  let buffer := blit (snd rb) (repeat 0 9%nat) in
  if negb (fst rb =? 9) then
    send_mfs_error empty_error_msg c 3 ;;;
    ret empty_error_msg
  else
    let result := read_headers char_is_signed buffer uninitialised_msg in
    s <- this ;;
    if (hard_limit s <? psize result) || (hard_limit s <? dsize result) then
      drop_client c ;;;
      ret empty_error_msg
    else if (path_bsize s <? psize result) || (data_bsize s <? dsize result)
    then
      consume_path c (psize result) ;;;
      consume_data fuel c (dsize result) 0 ;;;
      send_mfs_error empty_error_msg c 1 ;;;
      ret empty_error_msg
    else
      r <- read_into_path c (psize result) ;;
      if negb (r =? psize result) then
        send_mfs_error empty_error_msg c 1 ;;;
        ret empty_error_msg
      else
        r <- read_into_data c (dsize result) ;;
        if negb (r =? dsize result) then
          send_mfs_error empty_error_msg c 1 ;;;
          ret empty_error_msg
        else
          ret (mk_msg (psize result) (dsize result) (op result)
                 PATH_BUFFER DATA_BUFFER).

End ReadMessage.

(** *** list_files *)

Definition file_strlen (f : mfs_file_t) : Z :=
  strlen (chars (f_path f)) (path_size f).

(** First loop of [list_files]: [total_size] after the slots [fs]. *)
Fixpoint ls_total_size (fs : list mfs_file_t) (total_size : Z) : Z :=
  match fs with
  | [] => total_size
  | f :: fs' =>
      let total_size := u32 (total_size + file_strlen f) in
      let total_size := u32 (total_size + 1) in
      ls_total_size fs' total_size
  end.

(** Loop of the fast path: the data buffer and [data_processed] after the
    slots [fs]. *)
Fixpoint ls_fill (fs : list mfs_file_t) (data_buffer : list Z)
    (data_processed : Z) : list Z * Z :=
  match fs with
  | [] => (data_buffer, data_processed)
  | f :: fs' =>
      let str_len := file_strlen f in
      if str_len =? 0 then ls_fill fs' data_buffer data_processed
      else
        let data_buffer :=
          memcpy str_len (chars (f_path f)) data_buffer data_processed in
        let data_processed := u32 (data_processed + str_len) in
        let data_buffer := store data_buffer (Z.to_nat data_processed) 0 in
        let data_processed := u32 (data_processed + 1) in
        ls_fill fs' data_buffer data_processed
  end.

(** Loop of the streaming path over the slots [fs]; [false] is the early
    [return] after a failed write. *)
Fixpoint ls_stream (fs : list mfs_file_t) (c : client_t) : M bool :=
  match fs with
  | [] => ret true
  | f :: fs' =>
      let str_len := file_strlen f in
      if str_len =? 0 then ls_stream fs' c
      else
        r <- call_writer c (firstn (Z.to_nat str_len) (chars (f_path f)))
               str_len ;;
        if negb (r =? str_len) then drop_client c ;;; ret false
        else
          r <- call_writer c [0] 1 ;;
          if negb (r =? 1) then drop_client c ;;; ret false
          else ls_stream fs' c
  end.

Definition list_files (c : client_t) : M unit :=
  s <- this ;;
  let total_size := ls_total_size (files s) 0 in
  if total_size <=? data_bsize s then
    let '(buf, data_processed) := ls_fill (files s) (data_buffer s) 0 in
    update (fun s => set_data_buffer s buf) ;;;
    let msg := mk_msg 0 data_processed (RESPONSE_OF OP_LS)
                 PATH_BUFFER DATA_BUFFER in
    send_mfs_message msg c ;;;
    ret tt
  else
    let msg := mk_msg 0 total_size (RESPONSE_OF OP_LS) NULL NULL in
    let buffer := fill_headers (repeat 0 9%nat) msg in
    r <- call_writer c buffer 9 ;;
    if negb (r =? 9) then drop_client c ;;; ret tt
    else ls_stream (files s) c ;;; ret tt.

(** *** serve_clients *)

Definition noop_response : mfs_message_t :=
  mk_msg 0 0 (RESPONSE_OF OP_NOOP) NULL NULL.

(** [this->clients[i].client], read when it is used. *)
Definition client_at (i : nat) : M client_t :=
  s <- this ;; ret (client (nth i (clients s) empty_client)).

Definition set_timer_end (i : nat) (t : Z) (cs : list client_handlers_t)
  : list client_handlers_t :=
  match nth_error cs i with
  | Some h => firstn i cs ++ mk_client (client h) t :: skipn (S i) cs
  | None => cs
  end.

(** The bytes a message pointer leads to, for the lookup of the request
    path. *)
Definition mem_of (s : mfs_server) (p : ptr) : list Z :=
  match p with
  | NULL => []
  | PATH_BUFFER => path_buffer s
  | DATA_BUFFER => data_buffer s
  | EXTERN mem => mem
  end.

Definition call_reader_f (file_index : Z) (req : mfs_message_t)
  : M mfs_message_t :=
  fun s w =>
    match reader_f (nth (Z.to_nat file_index) (files s) empty_file) with
    | Some h =>
        let '(resp, w') := h req (path_buffer s) (data_buffer s) w in
        Done resp s w' [EvReaderF file_index]
    | None => Fault []
    end.

Definition call_writer_f (file_index : Z) (req : mfs_message_t)
  : M mfs_message_t :=
  fun s w =>
    match writer_f (nth (Z.to_nat file_index) (files s) empty_file) with
    | Some h =>
        let '(resp, w') := h req (path_buffer s) (data_buffer s) w in
        Done resp s w' [EvWriterF file_index]
    | None => Fault []
    end.

(** The [switch] on the opcode. *)
Definition dispatch (i : nat) (client_request : mfs_message_t)
    (file_index : Z) : M unit :=
  let o := op client_request in
  if o =? OP_ERROR then
    c <- client_at i ;; send_mfs_message noop_response c ;;; ret tt
  else if o =? OP_LS then
    c <- client_at i ;; list_files c
  else if o =? OP_NOOP then
    c <- client_at i ;; send_mfs_message noop_response c ;;; ret tt
  else if o =? OP_READ then
    resp <- call_reader_f file_index client_request ;;
    c <- client_at i ;; send_mfs_message resp c ;;; ret tt
  else if o =? OP_WRITE then
    resp <- call_writer_f file_index client_request ;;
    c <- client_at i ;; send_mfs_message resp c ;;; ret tt
  else if o <? MFS_RESERVED_OP_RANGE then
    c <- client_at i ;; send_mfs_message noop_response c ;;; ret tt
  else
    c <- client_at i ;; send_mfs_error client_request c 3003 ;;; ret tt.

Definition is_sentinel (m : mfs_message_t) : bool :=
  is_null (data m) && is_null (path m) && (dsize m =? 0) && (psize m =? 0).

(** The lookup of the request's file: the length handed to
    [get_file_index] is [strlen] of the request path. *)
Definition lookup_request (s : mfs_server) (client_request : mfs_message_t)
  : Z :=
  let request_path := mem_of s (path client_request) in
  get_file_index s request_path (strlen request_path (psize client_request)).

(** What [serve_clients] does with a request once the deadline is renewed:
    the file lookup, the reply for a file that is not found, the
    [switch]. *)
Definition route (i : nat) (client_request : mfs_message_t) : M unit :=
  s <- this ;;
  let file_index := lookup_request s client_request in
  if file_index =? -1 then
    if negb (Z.lor (Z.b2z (op client_request =? OP_LS))
                   (Z.b2z (op client_request =? OP_NOOP)) =? 0)
    then (* goto discard_file_nonexistent *)
      dispatch i client_request file_index
    else
      c <- client_at i ;;
      send_mfs_error client_request c 1000 ;;;
      ret tt
  else dispatch i client_request file_index.

(** [this->clients[i].timer_end = this->millis() + this->timer_ms]. *)
Definition renew_deadline (i : nat) : M unit :=
  now <- call_millis ;;
  update (fun s => set_clients s
            (set_timer_end i (u64 (now + timer_ms s)) (clients s))).

(** What [serve_clients] does with the message [read_mfs_message] gave
    it. *)
Definition handle_request (i : nat) (client_request : mfs_message_t)
  : M unit :=
  if is_sentinel client_request then
    c <- client_at i ;;
    drop_client c ;;;
    ret tt
  else
    renew_deadline i ;;;
    route i client_request.

Section Serve.

Variable char_is_signed : bool.

(** One turn of the loop of [serve_clients], for slot [i]. *)
Definition serve_client (fuel : nat) (i : nat) : M unit :=
  c <- client_at i ;;
  if c =? 0 then ret tt
  else
    s <- this ;;
    now <- call_millis ;;
    if timer_end (nth i (clients s) empty_client) <=? now then
      c <- client_at i ;;
      send_mfs_error noop_response c 3000 ;;;
      c <- client_at i ;;
      drop_client c ;;;
      ret tt
    else
      c <- client_at i ;;
      avail <- call_available c ;;
      if 9 <=? avail then
        c <- client_at i ;;
        client_request <- read_mfs_message char_is_signed fuel c ;;
        handle_request i client_request
      else ret tt.

(** The loop of [serve_clients] from slot [i] on, [todo] slots to go. *)
Fixpoint serve_clients_loop (fuel : nat) (i todo : nat) : M unit :=
  match todo with
  | O => ret tt
  | S todo' => serve_client fuel i ;;; serve_clients_loop fuel (S i) todo'
  end.

Definition serve_clients (fuel : nat) : M unit :=
  s <- this ;; serve_clients_loop fuel 0 (length (clients s)).

End Serve.

(** *** accept_clients *)

Fixpoint accept_clients_loop (i todo : nat) : M unit :=
  match todo with
  | O => ret tt
  | S todo' =>
      c <- client_at i ;;
      (if c =? 0 then
         c' <- call_accept ;;
         update (fun s =>
           set_clients s
             (match nth_error (clients s) i with
              | Some h =>
                  firstn i (clients s) ++ mk_client c' (timer_end h)
                    :: skipn (S i) (clients s)
              | None => clients s
              end))
       else ret tt) ;;;
      accept_clients_loop (S i) todo'
  end.

Definition accept_clients : M unit :=
  s <- this ;; accept_clients_loop 0 (length (clients s)).

(** *** register_file, unregister_file *)

(** The empty-slot test of [register_file]. *)
Definition slot_is_free (f : mfs_file_t) : bool :=
  (match f_path f with None => true | Some _ => false end)
  && (path_size f =? 0).

(** The loop of [register_file] that looks for an empty slot, at index
    [i]. *)
Fixpoint find_empty_slot (fs : list mfs_file_t) (i : Z) : option Z :=
  match fs with
  | [] => None
  | f :: fs' => if slot_is_free f then Some i else find_empty_slot fs' (i + 1)
  end.

Fixpoint put_file (fs : list mfs_file_t) (i : nat) (f : mfs_file_t)
  : list mfs_file_t :=
  match fs, i with
  | [], _ => []
  | _ :: fs', O => f :: fs'
  | g :: fs', S i' => g :: put_file fs' i' f
  end.

Definition register_file (s : mfs_server) (newfile : mfs_file_t)
  : mfs_server * Z :=
  if negb (get_file_index s (chars (f_path newfile))
             (strlen (chars (f_path newfile)) (path_size newfile)) =? -1)
  then (s, 1)
  else
    match find_empty_slot (files s) 0 with
    | None => (s, 1)
    | Some empty_slot_index =>
        (set_files s
           (put_file (files s) (Z.to_nat empty_slot_index)
              (mk_file (f_path newfile) (path_size newfile)
                 (writer_f newfile) (reader_f newfile))), 0)
    end.

Definition unregister_file (s : mfs_server) (path : list Z) (path_size : Z)
  : mfs_server * Z :=
  let file_index := u32 (get_file_index s path (strlen path path_size)) in
  if file_index =? u32 (-1) then (s, 1)
  else (set_files s (put_file (files s) (Z.to_nat file_index) empty_file), 0).

(** ** Vocabulary of the properties *)

(** The events of a run. *)
Definition events {A} (o : outcome A) : list event :=
  match o with
  | Done _ _ _ t => t
  | Fault t => t
  | Spin t => t
  end.

(** A computation that can only end with the value [x]. *)
Definition returns {A} (x : A) (m : M A) : Prop :=
  forall s w a s' w' t, m s w = Done a s' w' t -> a = x.

(** A computation that leaves every deadline of the client table as it
    is. *)
Definition keeps_deadlines {A} (m : M A) : Prop :=
  forall s w a s' w' t,
    m s w = Done a s' w' t ->
    map timer_end (clients s') = map timer_end (clients s).

(** The client table a run ends with. *)
Definition clients_of {A} (o : outcome A) : list client_handlers_t :=
  match o with
  | Done _ s _ _ => clients s
  | _ => []
  end.

(** Slot [i] holds [c], and no slot before it does: the slot that
    [drop_client] clears. *)
Definition first_slot_of (c : client_t) (cs : list client_handlers_t)
    (i : nat) : Prop :=
  (i < length cs)%nat /\
  client (nth i cs empty_client) = c /\
  forall j, (j < i)%nat -> client (nth j cs empty_client) <> c.

(** The table after slot [i] is cleared. *)
Definition clear_slot (i : nat) (cs : list client_handlers_t)
  : list client_handlers_t :=
  match nth_error cs i with
  | Some h => firstn i cs ++ mk_client 0 (timer_end h) :: skipn (S i) cs
  | None => cs
  end.

(** Populated slots hold a name of nonzero string length. *)
Definition names_nonempty (fs : list mfs_file_t) : Prop :=
  Forall (fun f => slot_is_free f = true \/ file_strlen f <> 0) fs.

End Server.

(** Every read of the trace delivered the bytes asked for. *)
Definition read_full (e : event) : Prop :=
  match e with
  | EvRead _ n r => r = n
  | _ => True
  end.

Definition reads_full (t : list event) : Prop := Forall read_full t.

(** The events of one [send_mfs_message] to [c]: the three writes of a
    message of header [header], path [pbytes] and data [dbytes] when each
    is accepted in full ([true]), and the writes up to the first one that
    is not ([false]). *)
Inductive sent (c : client_t) (header pbytes dbytes : list Z)
    (psz dsz : Z) : bool -> list event -> Prop :=
| sent_full :
    sent c header pbytes dbytes psz dsz true
      [EvWrite c header 9 9; EvWrite c pbytes psz psz;
       EvWrite c dbytes dsz dsz]
| sent_short_header r :
    r <> 9 ->
    sent c header pbytes dbytes psz dsz false [EvWrite c header 9 r]
| sent_short_path r :
    r <> psz ->
    sent c header pbytes dbytes psz dsz false
      [EvWrite c header 9 9; EvWrite c pbytes psz r]
| sent_short_data r :
    r <> dsz ->
    sent c header pbytes dbytes psz dsz false
      [EvWrite c header 9 9; EvWrite c pbytes psz psz;
       EvWrite c dbytes dsz r].

(** Reads of [c] that each delivered the bytes asked for. *)
Definition full_reads (c : client_t) (sizes : list Z) : list event :=
  map (fun n => EvRead c n n) sizes.

Definition total (sizes : list Z) : Z := fold_right Z.add 0 sizes.

(** The header [read_mfs_message] decodes when the read of 9 bytes left
    [bytes] in its local buffer. *)
Definition header_of (char_is_signed : bool) (bytes : list Z)
  : mfs_message_t :=
  read_headers char_is_signed
    (blit (firstn (Z.to_nat 9) bytes) (repeat 0 9%nat)) uninitialised_msg.

Arguments mfs_server World : clear implicits.
Arguments mfs_file_t World : clear implicits.
Arguments outcome World A : clear implicits.
Arguments Done {World A}.
Arguments Fault {World A}.
Arguments Spin {World A}.

Notation "x <- m ;; k" := (bind m (fun x => k))
  (at level 61, m at next level, right associativity).
Notation "m ;;; k" := (bind m (fun _ => k))
  (at level 61, right associativity).

(** ** Vocabulary of the further properties *)

Section MoreVocabulary.

Context {World : Type}.

(** The slot [f] stores the name made of the first [psize] bytes of
    [path]. *)
Definition name_is (f : mfs_file_t World) (path : list Z) (psize : Z) : Prop :=
  file_strlen f = psize /\
  forall k, 0 <= k < psize ->
    nth (Z.to_nat k) (chars (f_path f)) 0 = nth (Z.to_nat k) path 0.

(** No slot stores the name of a slot of nonzero string length that stands
    elsewhere in the table. *)
Definition names_distinct (fs : list (mfs_file_t World)) : Prop :=
  forall i j, (i < length fs)%nat -> (j < length fs)%nat -> i <> j ->
    file_strlen (nth i fs empty_file) <> 0 ->
    ~ name_is (nth j fs empty_file) (chars (f_path (nth i fs empty_file)))
        (file_strlen (nth i fs empty_file)).

(** What a slot adds to the listing: its name and one terminator, and
    nothing when the string length of its name is 0. *)
Definition ls_entry (f : mfs_file_t World) : list Z :=
  if file_strlen f =? 0 then []
  else firstn (Z.to_nat (file_strlen f)) (chars (f_path f)) ++ [0].

Definition ls_payload (fs : list (mfs_file_t World)) : list Z :=
  flat_map ls_entry fs.

(** The slots whose name has string length 0, free slots included. *)
Definition unnamed_slots (fs : list (mfs_file_t World)) : nat :=
  length (filter (fun f => file_strlen f =? 0) fs).

(** [s'] has the configuration of [s]: the file table, the callbacks, the
    two limits, and the capacities of the client table and of the two
    buffers. *)
Definition same_setup (s s' : mfs_server World) : Prop :=
  files s' = files s /\
  length (clients s') = length (clients s) /\
  length (path_buffer s') = length (path_buffer s) /\
  length (data_buffer s') = length (data_buffer s) /\
  client_writer s' = client_writer s /\
  client_reader s' = client_reader s /\
  client_killer s' = client_killer s /\
  client_available s' = client_available s /\
  accept_client s' = accept_client s /\
  millis s' = millis s /\
  timer_ms s' = timer_ms s /\
  hard_limit s' = hard_limit s.

(** A computation that leaves the configuration as it is. *)
Definition keeps_setup {A} (m : M A) : Prop :=
  forall s w a s' w' t, m s w = Done a s' w' t -> same_setup s s'.

(** The client table and the world after the free slots of [cs] were
    filled from the first to the last, each by one call of the accept
    callback made in the world the call before it left. *)
Fixpoint fill_free_slots (accept : World -> client_t * World)
    (cs : list client_handlers_t) (w : World)
  : list client_handlers_t * World :=
  match cs with
  | [] => ([], w)
  | h :: cs' =>
      if client h =? 0 then
        let '(c', w1) := accept w in
        let '(rest, w2) := fill_free_slots accept cs' w1 in
        (mk_client c' (timer_end h) :: rest, w2)
      else
        let '(rest, w2) := fill_free_slots accept cs' w in
        (h :: rest, w2)
  end.

(** A computation that comes to its end from every server and world. *)
Definition ends {A} (m : @M World A) : Prop :=
  forall s w, exists a s' w' t, m s w = Done a s' w' t.

End MoreVocabulary.

(** The bytes handed to the write callback over a run, in order. *)
Definition written (t : list event) : list Z :=
  flat_map (fun e => match e with
                     | EvWrite _ bytes _ _ => bytes
                     | _ => []
                     end) t.

(** ** A concrete transport

    One byte stream shared by every client and a clock that stands still:
    a read of [n] bytes delivers them when the stream holds that many and
    fails with [-1] otherwise; every write is accepted in full.  Used to
    run the server on concrete requests. *)

Module Bench.

Record wire := mk_wire {
  inbox : list Z;
  clock : Z
}.

Definition reader (c : client_t) (n : Z) (w : wire) : Z * list Z * wire :=
  if n <=? Z.of_nat (length (inbox w)) then
    (n, firstn (Z.to_nat n) (inbox w),
     mk_wire (skipn (Z.to_nat n) (inbox w)) (clock w))
  else (-1, [], w).

Definition writer (c : client_t) (bytes : list Z) (n : Z) (w : wire)
  : Z * wire := (n, w).

Definition killer (c : client_t) (w : wire) : wire := w.

Definition available (c : client_t) (w : wire) : Z * wire :=
  (if c =? 0 then 0 else Z.of_nat (length (inbox w)), w).

Definition accept (w : wire) : client_t * wire := (0, w).

Definition time (w : wire) : Z * wire := (clock w, w).

(** A handler that answers every request with the one data byte "X". *)
Definition echo_x (req : mfs_message_t) (pbuf dbuf : list Z) (w : wire)
  : mfs_message_t * wire :=
  (mk_msg (psize req) 1 (RESPONSE_OF (op req))
     (EXTERN (firstn (Z.to_nat (psize req)) pbuf)) (EXTERN [88]), w).

(** The file "hi" of the end-to-end scenarios, in a buffer of three
    bytes. *)
Definition file_hi : mfs_file_t wire :=
  mk_file (Some [104; 105; 0]) 3 (Some echo_x) (Some echo_x).

(** A server with path and data buffers of [pb] and [db] bytes, one client
    with identifier 7 whose deadline is 1000, and the file table [fs]. *)
Definition server (pb db : nat) (fs : list (mfs_file_t wire))
  : mfs_server wire :=
  mk_server (repeat 0 pb) (repeat 0 db) [mk_client 7 1000] fs
    writer reader killer available accept time 20000 10000.

(** The bytes of the stream a run has left unread. *)
Definition unread {A} (o : outcome wire A) : list Z :=
  match o with
  | Done _ _ w _ => inbox w
  | _ => []
  end.

(** A populated slot whose name is the empty string. *)
Definition file_unnamed : mfs_file_t wire :=
  mk_file (Some [0]) 1 (Some echo_x) (Some echo_x).

End Bench.

(** ** A transport that promises more than it delivers

    The stream and the reads of [Bench], with an availability callback
    that reports nine bytes more than the stream holds: a server on it
    starts reads that fall short. *)

Module Stalled.

Definition available (c : client_t) (w : Bench.wire) : Z * Bench.wire :=
  (if c =? 0 then 0 else Z.of_nat (length (Bench.inbox w)) + 9, w).

Definition server (pb db : nat) (fs : list (mfs_file_t Bench.wire))
  : mfs_server Bench.wire :=
  mk_server (repeat 0 pb) (repeat 0 db) [mk_client 7 1000] fs
    Bench.writer Bench.reader Bench.killer available Bench.accept Bench.time
    20000 10000.

End Stalled.

(** ** A transport with a queue of arrivals

    The stream of [Bench] read as the queue of the clients that wait to
    be accepted: the accept callback answers the head of the queue and
    takes it off, and answers 0 when the queue is empty. *)

Module Arrivals.

Definition accept (w : Bench.wire) : client_t * Bench.wire :=
  match Bench.inbox w with
  | [] => (0, w)
  | c :: rest => (c, Bench.mk_wire rest (Bench.clock w))
  end.

Definition server (cs : list client_handlers_t) : mfs_server Bench.wire :=
  mk_server (repeat 0 4) (repeat 0 4) cs [] Bench.writer Bench.reader
    Bench.killer Bench.available accept Bench.time 20000 10000.

End Arrivals.

(** * Properties *)

(** ** Header codec *)

Lemma land_shiftl_disjoint (a b n : Z) :
  0 <= n -> 0 <= a < 2 ^ n -> Z.land a (Z.shiftl b n) = 0.
Proof.
  intros Hn Ha. apply Z.bits_inj'. intros k Hk.
  rewrite Z.land_spec, Z.bits_0.
  destruct (Z.lt_ge_cases k n) as [Hlt | Hge].
  - rewrite Z.shiftl_spec_low by assumption. apply andb_false_r.
  - destruct (Z.eq_dec a 0) as [-> | Hnz].
    + now rewrite Z.bits_0.
    + rewrite (Z.bits_above_log2 a k); [reflexivity | lia |].
      apply Z.log2_lt_pow2; [lia |].
      apply Z.lt_le_trans with (2 ^ n); [lia |].
      apply Z.pow_le_mono_r; lia.
Qed.

Lemma lor_shiftl_add (a b n : Z) :
  0 <= n -> 0 <= a < 2 ^ n -> Z.lor a (Z.shiftl b n) = a + b * 2 ^ n.
Proof.
  intros Hn Ha.
  rewrite <- Z.lxor_lor by (apply land_shiftl_disjoint; assumption).
  rewrite <- Z.add_nocarry_lxor by (apply land_shiftl_disjoint; assumption).
  now rewrite Z.shiftl_mul_pow2.
Qed.

(** The four [|=] of [read_headers] on unsigned bytes build the
    little-endian value. *)
Lemma le32_value (b0 b1 b2 b3 : Z) :
  is_byte b0 -> is_byte b1 -> is_byte b2 -> is_byte b3 ->
  Z.lor (Z.lor (Z.lor (Z.lor 0 b0) (u32 (Z.shiftl b1 8)))
           (u32 (Z.shiftl b2 16))) (u32 (Z.shiftl b3 24))
  = b0 + b1 * 2 ^ 8 + b2 * 2 ^ 16 + b3 * 2 ^ 24.
Proof.
  unfold is_byte, u32. intros H0 H1 H2 H3.
  rewrite Z.lor_0_l.
  rewrite !Z.shiftl_mul_pow2 by lia.
  rewrite !Z.mod_small by lia.
  rewrite <- !Z.shiftl_mul_pow2 by lia.
  rewrite (lor_shiftl_add b0 b1 8) by lia.
  rewrite (lor_shiftl_add _ b2 16) by lia.
  rewrite (lor_shiftl_add _ b3 24) by lia.
  rewrite !Z.shiftl_mul_pow2 by lia. reflexivity.
Qed.

(** The masks and shifts of [fill_headers] take it apart again. *)
Lemma le32_bytes (b0 b1 b2 b3 : Z) :
  is_byte b0 -> is_byte b1 -> is_byte b2 -> is_byte b3 ->
  Z.land (b0 + b1 * 2 ^ 8 + b2 * 2 ^ 16 + b3 * 2 ^ 24) 0xFF = b0 /\
  Z.land (Z.shiftr (b0 + b1 * 2 ^ 8 + b2 * 2 ^ 16 + b3 * 2 ^ 24) 8) 0xFF = b1 /\
  Z.land (Z.shiftr (b0 + b1 * 2 ^ 8 + b2 * 2 ^ 16 + b3 * 2 ^ 24) 16) 0xFF = b2 /\
  Z.land (Z.shiftr (b0 + b1 * 2 ^ 8 + b2 * 2 ^ 16 + b3 * 2 ^ 24) 24) 0xFF = b3.
Proof.
  unfold is_byte. intros H0 H1 H2 H3.
  change 0xFF with (Z.ones 8).
  rewrite !Z.land_ones, !Z.shiftr_div_pow2 by lia.
  change (2 ^ 8) with 256. change (2 ^ 16) with 65536.
  change (2 ^ 24) with 16777216.
  repeat split.
  all: Z.div_mod_to_equations; lia.
Qed.

(** Where plain [char] is unsigned, decoding a 9-byte buffer and encoding
    the result gives the buffer back. *)
Lemma header_roundtrip_unsigned_char (b buffer : list Z) (m : mfs_message_t) :
  length b = 9%nat -> length buffer = 9%nat -> Forall is_byte b ->
  fill_headers buffer (read_headers false b m) = b.
Proof.
  intros Hb Hbuf Hbytes.
  do 10 (destruct b as [| ? b]; try discriminate Hb).
  do 10 (destruct buffer as [| ? buffer]; try discriminate Hbuf).
  repeat match goal with
         | H : Forall _ (_ :: _) |- _ => inversion H; subst; clear H
         end.
  unfold fill_headers, read_headers, char_to_uint; cbn [andb nth store psize dsize op].
  rewrite !le32_value by assumption.
  match goal with
  | |- context [Z.land (?a + ?b * 2 ^ 8 + ?c * 2 ^ 16 + ?d * 2 ^ 24) 255 :: _] =>
      destruct (le32_bytes a b c d) as (-> & -> & -> & ->); try assumption
  end.
  match goal with
  | |- context [Z.land (?a + ?b * 2 ^ 8 + ?c * 2 ^ 16 + ?d * 2 ^ 24) 255 :: _] =>
      destruct (le32_bytes a b c d) as (-> & -> & -> & ->); try assumption
  end.
  reflexivity.
Qed.

(** C3, at the header [80 00 00 00 00 00 00 00 00] (psize = 128) where
    plain [char] is signed: the conversion of the first byte to
    [unsigned int] sign-extends, [read_headers] yields psize = 0xFFFFFF80,
    and [fill_headers] does not give the buffer back. *)
Theorem header_roundtrip_signed_char :
  psize (read_headers true [128; 0; 0; 0; 0; 0; 0; 0; 0] uninitialised_msg)
  = 4294967168 /\
  fill_headers (repeat 0 9%nat)
    (read_headers true [128; 0; 0; 0; 0; 0; 0; 0; 0] uninitialised_msg)
  = [128; 255; 255; 255; 0; 0; 0; 0; 0] /\
  fill_headers (repeat 0 9%nat)
    (read_headers true [128; 0; 0; 0; 0; 0; 0; 0; 0] uninitialised_msg)
  <> [128; 0; 0; 0; 0; 0; 0; 0; 0].
Proof.
  repeat split; try (vm_compute; reflexivity).
  vm_compute. discriminate.
Qed.

(** ** String helpers and the registry lookup *)

Lemma has_nul_true (path : list Z) (todo i : nat) :
  has_nul path i todo = true <->
  exists k, (i <= k < i + todo)%nat /\ nth k path 0 = 0.
Proof.
  revert i. induction todo as [| todo IH]; intros i; simpl.
  - split; [discriminate | intros (k & Hk & _); lia].
  - destruct (nth i path 0 =? 0) eqn:E.
    + split; [intros _ | reflexivity].
      exists i. split; [lia | now apply Z.eqb_eq].
    + rewrite IH. apply Z.eqb_neq in E.
      split; intros (k & Hk & Hz); exists k; split; try assumption; try lia.
      destruct (Nat.eq_dec k i) as [-> | ?]; [contradiction | lia].
Qed.

Lemma memcmp_loop_zero (buf1 buf2 : list Z) (todo i : nat) :
  memcmp_loop buf1 buf2 i todo = 0 <->
  forall k, (i <= k < i + todo)%nat -> nth k buf1 0 = nth k buf2 0.
Proof.
  revert i. induction todo as [| todo IH]; intros i; simpl.
  - split; [intros _ k Hk; lia | reflexivity].
  - destruct (nth i buf1 0 =? nth i buf2 0) eqn:E; simpl.
    + rewrite IH. apply Z.eqb_eq in E.
      split; intros H k Hk.
      * destruct (Nat.eq_dec k i) as [-> | ?]; [assumption | apply H; lia].
      * apply H; lia.
    + apply Z.eqb_neq in E. split; [discriminate |].
      intros H. exfalso. apply E, H. lia.
Qed.

Lemma memcmp_zero (buf1 buf2 : list Z) (buf1_size buf2_size : Z) :
  memcmp buf1 buf2 buf1_size buf2_size = 0 <->
  buf1_size = buf2_size /\
  forall k, (k < Z.to_nat buf1_size)%nat -> nth k buf1 0 = nth k buf2 0.
Proof.
  unfold memcmp. destruct (buf1_size =? buf2_size) eqn:E; simpl.
  - apply Z.eqb_eq in E. rewrite memcmp_loop_zero.
    split.
    + intros H. split; [assumption |]. intros k Hk. apply H. lia.
    + intros [_ H] k Hk. apply H. lia.
  - apply Z.eqb_neq in E. split; [discriminate | intros [? _]; contradiction].
Qed.

Lemma strlen_loop_no_nul (buf : list Z) (todo len : nat) :
  (forall k, (len <= k < len + todo)%nat -> nth k buf 0 <> 0) ->
  strlen_loop buf len todo = (len + todo)%nat.
Proof.
  revert len. induction todo as [| todo IH]; intros len H; simpl.
  - lia.
  - destruct (nth len buf 0 =? 0) eqn:E.
    + apply Z.eqb_eq in E. exfalso. apply (H len); [lia | assumption].
    + rewrite IH; [lia |]. intros k Hk. apply H. lia.
Qed.

(** [strlen] answers 0 for a buffer without terminator. *)
Lemma strlen_no_nul (buf : list Z) (buf_size : Z) :
  (forall k, 0 <= k < buf_size -> nth (Z.to_nat k) buf 0 <> 0) ->
  strlen buf buf_size = 0.
Proof.
  intros H. unfold strlen.
  rewrite strlen_loop_no_nul.
  - simpl. destruct (Z.of_nat (Z.to_nat buf_size) =? buf_size) eqn:E;
      [reflexivity |].
    apply Z.eqb_neq in E. lia.
  - intros k Hk. specialize (H (Z.of_nat k)). rewrite Nat2Z.id in H.
    apply H. lia.
Qed.

Section Registry.

Context {World : Type}.
Implicit Types (s : mfs_server World) (f : mfs_file_t World).

Lemma get_file_index_loop_found (fs : list (mfs_file_t World)) (path : list Z)
    (psize i0 r : Z) :
  0 <= i0 ->
  get_file_index_loop fs path psize i0 = r -> r <> -1 ->
  exists n, (n < length fs)%nat /\ r = i0 + Z.of_nat n /\
    memcmp path (chars (f_path (nth n fs empty_file))) psize
      (file_strlen (nth n fs empty_file)) = 0.
Proof.
  revert i0. induction fs as [| f fs IH]; intros i0 Hi0 Hr Hfound; simpl in Hr.
  - congruence.
  - fold (file_strlen f) in Hr.
    destruct (memcmp path (chars (f_path f)) psize (file_strlen f) =? 0) eqn:E;
      simpl in Hr.
    + apply Z.eqb_eq in E. exists 0%nat. simpl. repeat split; lia.
    + destruct (IH (i0 + 1) ltac:(lia) Hr Hfound) as (n & Hn & -> & Hm).
      exists (S n). simpl. repeat split; lia.
Qed.

Lemma free_slot_strlen f : slot_is_free f = true -> file_strlen f = 0.
Proof.
  unfold slot_is_free, file_strlen. destruct (f_path f); [discriminate |].
  simpl. intros H. apply Z.eqb_eq in H. now rewrite H.
Qed.

Lemma get_file_index_loop_zero (fs : list (mfs_file_t World)) (path : list Z)
    (i e : Z) :
  names_nonempty fs -> find_empty_slot fs i = Some e ->
  get_file_index_loop fs path 0 i = e.
Proof.
  revert i. induction fs as [| f fs IH]; intros i Hfs He; simpl in *.
  - discriminate.
  - inversion Hfs as [| ? ? Hf Hfs']; subst. fold (file_strlen f).
    destruct (slot_is_free f) eqn:Efree.
    + rewrite (free_slot_strlen f Efree). simpl. congruence.
    + destruct Hf as [? | Hf]; [discriminate |].
      unfold memcmp. destruct (0 =? file_strlen f) eqn:E.
      * apply Z.eqb_eq in E. congruence.
      * simpl. now apply IH.
Qed.

Lemma get_file_index_zero s (path : list Z) (e : Z) :
  names_nonempty (files s) -> find_empty_slot (files s) 0 = Some e ->
  get_file_index s path 0 = e.
Proof.
  intros Hfs He. unfold get_file_index. simpl.
  now apply get_file_index_loop_zero.
Qed.

(** *** The registration API keeps names nonempty *)

Lemma find_empty_slot_from (fs : list (mfs_file_t World)) (i e : Z) :
  find_empty_slot fs i = Some e -> i <= e.
Proof.
  revert i. induction fs as [| f fs IH]; intros i H; simpl in H.
  - discriminate.
  - destruct (slot_is_free f).
    + inversion H. lia.
    + apply IH in H. lia.
Qed.

Lemma put_file_Forall (P : mfs_file_t World -> Prop) fs (i : nat) f :
  Forall P fs -> P f -> Forall P (put_file fs i f).
Proof.
  intros Hfs Hf. revert i.
  induction Hfs as [| g fs Hg Hfs IH]; intros [| i]; simpl;
    constructor; auto.
Qed.

(** [register_file] turns a name of string length 0 down: with a free
    slot in the table the lookup made for it finds that slot, and without
    one there is no room. *)
Lemma register_file_names_nonempty s newfile :
  names_nonempty (files s) ->
  names_nonempty (files (fst (register_file s newfile))).
Proof.
  intros Hfs. unfold register_file.
  destruct (get_file_index s (chars (f_path newfile))
              (strlen (chars (f_path newfile)) (path_size newfile)) =? -1)
    eqn:Elookup; simpl; [| assumption].
  destruct (find_empty_slot (files s) 0) as [e |] eqn:Eslot; simpl;
    [| assumption].
  apply put_file_Forall; [assumption |].
  right. unfold file_strlen. simpl. intros Hlen.
  rewrite Hlen in Elookup.
  rewrite (get_file_index_zero s _ e Hfs Eslot) in Elookup.
  apply find_empty_slot_from in Eslot. apply Z.eqb_eq in Elookup. lia.
Qed.

Lemma unregister_file_names_nonempty s (path : list Z) (path_size : Z) :
  names_nonempty (files s) ->
  names_nonempty (files (fst (unregister_file s path path_size))).
Proof.
  intros Hfs. unfold unregister_file.
  destruct (u32 (get_file_index s path (strlen path path_size)) =? u32 (-1));
    simpl; [assumption |].
  apply put_file_Forall; [assumption | now left].
Qed.

End Registry.

(** C9.  [get_file_index] answers [-1] when a zero byte lies within the
    first [psize] bytes of [path]; an index [i] it answers otherwise is
    that of a slot whose stored name has string length [psize] and the
    same first [psize] bytes as [path]. *)
Theorem get_file_index_sound {World : Type} (s : mfs_server World)
    (path : list Z) (psize : Z) :
  ((exists k, 0 <= k < psize /\ nth (Z.to_nat k) path 0 = 0) ->
   get_file_index s path psize = -1)
  /\
  (forall i, get_file_index s path psize = i -> i <> -1 ->
     0 <= i < files_bsize s /\
     (forall k, 0 <= k < psize -> nth (Z.to_nat k) path 0 <> 0) /\
     file_strlen (nth (Z.to_nat i) (files s) empty_file) = psize /\
     forall k, 0 <= k < psize ->
       nth (Z.to_nat k) (chars (f_path (nth (Z.to_nat i) (files s) empty_file))) 0
       = nth (Z.to_nat k) path 0).
Proof.
  unfold get_file_index. split.
  - intros (k & Hk & Hz).
    assert (H : has_nul path 0 (Z.to_nat psize) = true).
    { apply has_nul_true. exists (Z.to_nat k). split; [lia | assumption]. }
    now rewrite H.
  - intros i Hi Hfound.
    destruct (has_nul path 0 (Z.to_nat psize)) eqn:Hnul; [congruence |].
    destruct (get_file_index_loop_found _ _ _ _ _ (Z.le_refl 0) Hi Hfound)
      as (n & Hn & -> & Hm).
    apply memcmp_zero in Hm. destruct Hm as [Hlen Hbytes].
    simpl. rewrite Nat2Z.id. unfold files_bsize.
    repeat split; try lia.
    + intros k Hk Hz.
      assert (H : has_nul path 0 (Z.to_nat psize) = true).
      { apply has_nul_true. exists (Z.to_nat k). split; [lia | assumption]. }
      congruence.
    + intros k Hk. symmetry. apply Hbytes. lia.
Qed.

Lemma get_file_index_sound_witness :
  get_file_index (Bench.server 4 4 [Bench.file_hi]) [104; 0] 2 = -1 /\
  file_strlen (nth 0 [Bench.file_hi] empty_file) = 2.
Proof.
  split.
  - apply (proj1 (get_file_index_sound (Bench.server 4 4 [Bench.file_hi])
                    [104; 0] 2)).
    exists 1. split; [lia | reflexivity].
  - apply (proj2 (get_file_index_sound (Bench.server 4 4 [Bench.file_hi])
                    [104; 105] 2) 0); [reflexivity | discriminate].
Defined.

Section ZeroLength.

Context {World : Type}.
Implicit Types (s : mfs_server World) (f : mfs_file_t World).

(** With length 0 the comparison of [get_file_index] only looks at the
    string length of the stored name. *)
Lemma get_file_index_loop_unnamed (fs : list (mfs_file_t World))
    (path : list Z) : forall (i : Z) (n : nat),
  (n < length fs)%nat ->
  file_strlen (nth n fs empty_file) = 0 ->
  (forall m, (m < n)%nat -> file_strlen (nth m fs empty_file) <> 0) ->
  get_file_index_loop fs path 0 i = i + Z.of_nat n.
Proof.
  induction fs as [| f fs IH]; intros i n Hn Hz Hnz; simpl in Hn; [lia |].
  cbn [get_file_index_loop]. fold (file_strlen f). unfold memcmp.
  destruct n as [| n].
  - cbn [nth] in Hz. rewrite Hz. cbn. lia.
  - assert (Hf : file_strlen f <> 0) by (apply (Hnz 0%nat); lia).
    replace (0 =? file_strlen f) with false
      by (symmetry; apply Z.eqb_neq; lia).
    cbn [negb Z.eqb]. rewrite (IH (i + 1) n); [lia | lia | exact Hz |].
    intros m Hm. apply (Hnz (S m)). lia.
Qed.

(** A table with a free slot has a first slot whose name has string length
    0; it stands at or before the first free slot, and it is that slot
    exactly when no slot before the first free one has such a name. *)
Lemma first_unnamed_slot (fs : list (mfs_file_t World)) : forall (i e : Z),
  find_empty_slot fs i = Some e ->
  exists n : nat,
    (n < length fs)%nat /\ i + Z.of_nat n <= e /\
    file_strlen (nth n fs empty_file) = 0 /\
    (forall m, (m < n)%nat -> file_strlen (nth m fs empty_file) <> 0) /\
    (i + Z.of_nat n = e <->
     forall m : nat, i + Z.of_nat m < e ->
       file_strlen (nth m fs empty_file) <> 0).
Proof.
  induction fs as [| f fs IH]; intros i e He; [discriminate |].
  pose proof (find_empty_slot_from _ _ _ He) as Hie.
  destruct (Z.eq_dec (file_strlen f) 0) as [Hf | Hf].
  - exists 0%nat. cbn [length nth].
    split; [lia |]. split; [lia |]. split; [exact Hf |].
    split; [intros m Hm; lia |]. split.
    + intros Heq m Hm. lia.
    + intros H. destruct (Z.eq_dec (i + Z.of_nat 0) e) as [? | Hne];
        [assumption |].
      exfalso. apply (H 0%nat); [lia | exact Hf].
  - cbn [find_empty_slot] in He.
    destruct (slot_is_free f) eqn:Efree;
      [apply free_slot_strlen in Efree; contradiction |].
    destruct (IH (i + 1) e He) as (n & Hn & Hle & Hz & Hnz & Hiff).
    exists (S n). cbn [length nth].
    split; [lia |]. split; [lia |]. split; [exact Hz |].
    split; [intros [| m] Hm; [exact Hf | apply Hnz; lia] |]. split.
    + intros Heq [| m] Hm; [exact Hf |].
      apply (proj1 Hiff); lia.
    + intros H. assert (Heq : i + 1 + Z.of_nat n = e); [| lia].
      apply (proj2 Hiff). intros m Hm. apply (H (S m)). lia.
Qed.

End ZeroLength.

(** C10, as amended.  In a table with a free slot, [get_file_index] with
    length 0 answers the first slot whose stored name has string length 0,
    populated or not; that slot stands at or before the first free slot
    and is the first free slot exactly when no slot before the first free
    one stores a name of string length 0.  The lookup that [serve_clients]
    makes for a request whose path holds no zero byte within psize uses
    length 0, so it answers that slot too. *)
Theorem lookup_without_terminator_finds_free_slot {World : Type}
    (s : mfs_server World) (e : Z) :
  find_empty_slot (files s) 0 = Some e ->
  exists n : nat,
    (n < length (files s))%nat /\ Z.of_nat n <= e /\
    file_strlen (nth n (files s) empty_file) = 0 /\
    (forall m, (m < n)%nat ->
       file_strlen (nth m (files s) empty_file) <> 0) /\
    (Z.of_nat n = e <->
     forall m : nat, Z.of_nat m < e ->
       file_strlen (nth m (files s) empty_file) <> 0) /\
    (forall path, get_file_index s path 0 = Z.of_nat n) /\
    (forall req,
       (forall k, 0 <= k < psize req ->
          nth (Z.to_nat k) (mem_of s (path req)) 0 <> 0) ->
       strlen (mem_of s (path req)) (psize req) = 0 /\
       lookup_request s req = Z.of_nat n).
Proof.
  intros He.
  destruct (first_unnamed_slot (files s) 0 e He)
    as (n & Hn & Hle & Hz & Hnz & Hiff).
  assert (Hlookup : forall path, get_file_index s path 0 = Z.of_nat n).
  { intros p. unfold get_file_index. cbn [Z.to_nat has_nul].
    now rewrite (get_file_index_loop_unnamed (files s) p 0 n Hn Hz Hnz). }
  exists n.
  split; [exact Hn |]. split; [lia |]. split; [exact Hz |].
  split; [exact Hnz |]. split; [| split; [exact Hlookup |]].
  - split.
    + intros Heq m Hm. apply (proj1 Hiff); lia.
    + intros H. apply (proj2 Hiff). intros m Hm. apply H. lia.
  - intros req Hreq. split; [now apply strlen_no_nul |].
    unfold lookup_request. rewrite (strlen_no_nul _ _ Hreq). apply Hlookup.
Qed.

Lemma lookup_without_terminator_finds_free_slot_witness :
  get_file_index (Bench.server 4 4 [Bench.file_hi; empty_file]) [110; 111] 0 = 1
  /\ lookup_request
       (set_path_buffer (Bench.server 4 4 [Bench.file_hi; empty_file])
          [110; 111; 0; 0])
       (mk_msg 2 0 OP_READ PATH_BUFFER DATA_BUFFER) = 1.
Proof.
  assert (Hhi : forall m : nat, Z.of_nat m < 1 ->
            file_strlen (nth m [Bench.file_hi; empty_file] empty_file) <> 0).
  { intros m Hm. assert (m = 0%nat) by lia. subst m.
    vm_compute. discriminate. }
  split.
  - destruct (lookup_without_terminator_finds_free_slot
                (Bench.server 4 4 [Bench.file_hi; empty_file]) 1 eq_refl)
      as (n & _ & _ & _ & _ & Hiff & Hlookup & _).
    rewrite Hlookup. apply (proj2 Hiff). exact Hhi.
  - destruct (lookup_without_terminator_finds_free_slot
                (set_path_buffer
                   (Bench.server 4 4 [Bench.file_hi; empty_file])
                   [110; 111; 0; 0]) 1 eq_refl)
      as (n & _ & _ & _ & _ & Hiff & _ & Hreq).
    rewrite (proj2 (Hreq (mk_msg 2 0 OP_READ PATH_BUFFER DATA_BUFFER)
                      ltac:(simpl; intros k Hk;
                            assert (Hk' : k = 0 \/ k = 1) by lia;
                            destruct Hk' as [-> | ->]; discriminate))).
    apply (proj2 Hiff). exact Hhi.
Defined.

(** C10 as stated fails where a populated slot whose name is the empty
    string stands before the first free slot: slot 1 is the first free
    slot, and the lookup with length 0, also the one made for the request
    path "no", answers the populated slot 0. *)
Lemma lookup_zero_length_populated_slot :
  slot_is_free Bench.file_unnamed = false /\
  find_empty_slot [Bench.file_unnamed; empty_file] 0 = Some 1 /\
  get_file_index (Bench.server 4 4 [Bench.file_unnamed; empty_file]) [] 0 = 0 /\
  lookup_request
    (set_path_buffer (Bench.server 4 4 [Bench.file_unnamed; empty_file])
       [110; 111; 0; 0])
    (mk_msg 2 0 OP_READ PATH_BUFFER DATA_BUFFER) = 0.
Proof. repeat split. Qed.

(** ** Running the server *)

Create HintDb deadlines.

Section Run.

Context {World : Type}.
Implicit Types (s : mfs_server World) (w : World) (t : list event).

Lemma prefix_nil {A} (o : outcome World A) : prefix [] o = o.
Proof. now destruct o. Qed.

Lemma prefix_prefix {A} t1 t2 (o : outcome World A) :
  prefix t1 (prefix t2 o) = prefix (t1 ++ t2) o.
Proof. destruct o; simpl; now rewrite app_assoc. Qed.

Lemma events_prefix {A} t (o : outcome World A) :
  events (prefix t o) = t ++ events o.
Proof. now destruct o. Qed.

Lemma bind_run {A B} (m : M A) (k : A -> M B) s w :
  bind m k s w =
  match m s w with
  | Done a s1 w1 t1 => prefix t1 (k a s1 w1)
  | Fault t1 => Fault t1
  | Spin t1 => Spin t1
  end.
Proof. reflexivity. Qed.

Lemma bind_done {A B} (m : M A) (k : A -> M B) s w a s1 w1 t1 :
  m s w = Done a s1 w1 t1 -> bind m k s w = prefix t1 (k a s1 w1).
Proof. intros H. now rewrite bind_run, H. Qed.

Lemma bind_this {B} (k : mfs_server World -> M B) s w :
  bind this k s w = k s s w.
Proof. rewrite bind_run. simpl. apply prefix_nil. Qed.

Lemma bind_ret {A B} (a : A) (k : A -> M B) s w :
  bind (ret a) k s w = k a s w.
Proof. rewrite bind_run. simpl. apply prefix_nil. Qed.

Lemma bind_update {B} (f : mfs_server World -> mfs_server World)
    (k : unit -> M B) s w :
  bind (update f) k s w = k tt (f s) w.
Proof. rewrite bind_run. simpl. apply prefix_nil. Qed.

Lemma bind_client_at {B} (i : nat) (k : client_t -> M B) s w :
  bind (client_at i) k s w = k (client (nth i (clients s) empty_client)) s w.
Proof.
  unfold client_at. rewrite bind_run, bind_this. simpl.
  now rewrite !prefix_nil.
Qed.

Lemma bind_millis {B} (k : Z -> M B) s w now w1 :
  millis s w = (now, w1) -> bind call_millis k s w = k now s w1.
Proof.
  intros H. rewrite bind_run. unfold call_millis. rewrite H.
  apply prefix_nil.
Qed.

Lemma bind_available {B} (k : Z -> M B) c s w av w1 :
  client_available s c w = (av, w1) ->
  bind (call_available c) k s w = k av s w1.
Proof.
  intros H. rewrite bind_run. unfold call_available. rewrite H.
  apply prefix_nil.
Qed.

Lemma bind_reader {B} (k : Z * list Z -> M B) c n s w r bytes w1 :
  client_reader s c n w = (r, bytes, w1) ->
  bind (call_reader c n) k s w =
  prefix [EvRead c n r] (k (r, firstn (Z.to_nat n) bytes) s w1).
Proof. intros H. rewrite bind_run. unfold call_reader. now rewrite H. Qed.

Lemma bind_writer {B} (k : Z -> M B) c bytes n s w r w1 :
  client_writer s c bytes n w = (r, w1) ->
  bind (call_writer c bytes n) k s w =
  prefix [EvWrite c bytes n r] (k r s w1).
Proof. intros H. rewrite bind_run. unfold call_writer. now rewrite H. Qed.

(** *** drop_client *)

Lemma drop_slot_first c cs i :
  first_slot_of c cs i -> drop_slot c cs = Some (clear_slot i cs).
Proof.
  revert i. induction cs as [| h cs IH]; intros i (Hi & Hc & Hbefore).
  - simpl in Hi. lia.
  - destruct i as [| i]; simpl in *.
    + subst c. now rewrite Z.eqb_refl.
    + destruct (c =? client h) eqn:E.
      * apply Z.eqb_eq in E. exfalso. apply (Hbefore 0%nat); [lia | now simpl].
      * rewrite (IH i).
        -- unfold clear_slot. simpl. now destruct (nth_error cs i).
        -- repeat split; [lia | assumption |].
           intros j Hj. apply (Hbefore (S j)). lia.
Qed.

Lemma clear_slot_client i cs :
  (i < length cs)%nat -> client (nth i (clear_slot i cs) empty_client) = 0.
Proof.
  intros Hi. unfold clear_slot.
  destruct (nth_error cs i) as [h |] eqn:E.
  - rewrite app_nth2; rewrite firstn_length_le by lia; [| lia].
    now rewrite Nat.sub_diag.
  - apply nth_error_None in E. lia.
Qed.

Lemma drop_client_zero s w : drop_client 0 s w = Done 0 s w [].
Proof. reflexivity. Qed.

Lemma drop_client_first c i s w :
  c <> 0 -> first_slot_of c (clients s) i ->
  drop_client c s w =
  Done 0 (set_clients s (clear_slot i (clients s))) (client_killer s c w)
    [EvClose c].
Proof.
  intros Hc Hi. unfold drop_client.
  apply Z.eqb_neq in Hc. rewrite Hc.
  rewrite bind_this, (drop_slot_first _ _ _ Hi).
  reflexivity.
Qed.

(** *** send_mfs_message, send_mfs_error *)

Lemma bind_write_from {B} (k : Z -> M B) c p n s w bytes r w1 :
  bytes_of s p n = Some bytes ->
  client_writer s c bytes n w = (r, w1) ->
  bind (write_from c p n) k s w = prefix [EvWrite c bytes n r] (k r s w1).
Proof.
  intros Hb Hw. unfold write_from.
  rewrite bind_run, bind_this, Hb. unfold call_writer. now rewrite Hw.
Qed.

(** One [send_mfs_message] to a client of the table: the writes of the
    message, and the client dropped when one of them falls short. *)
Lemma send_mfs_message_sent msg c i s w pb db :
  c <> 0 -> first_slot_of c (clients s) i ->
  bytes_of s (path msg) (psize msg) = Some pb ->
  bytes_of s (data msg) (dsize msg) = Some db ->
  exists ok ws w',
    sent c (fill_headers (repeat 0 9%nat) msg) pb db (psize msg) (dsize msg)
      ok ws /\
    send_mfs_message msg c s w =
      if ok then Done 0 s w' ws
      else Done (-1) (set_clients s (clear_slot i (clients s))) w'
             (ws ++ [EvClose c]).
Proof.
  intros Hc Hi Hpb Hdb. unfold send_mfs_message.
  destruct (client_writer s c (fill_headers (repeat 0 9%nat) msg) 9 w)
    as [r1 w1] eqn:E1.
  rewrite (bind_writer _ _ _ _ _ _ _ _ E1); cbv beta.
  destruct (r1 =? 9) eqn:R1; cbv beta iota delta [negb].
  2: { apply Z.eqb_neq in R1.
       exists false, [EvWrite c (fill_headers (repeat 0 9%nat) msg) 9 r1].
       eexists. split; [now constructor |].
       rewrite (bind_done _ _ _ _ _ _ _ _ (drop_client_first c i s w1 Hc Hi)).
       reflexivity. }
  apply Z.eqb_eq in R1. subst r1.
  destruct (client_writer s c pb (psize msg) w1) as [r2 w2] eqn:E2.
  rewrite (bind_write_from _ _ _ _ _ _ _ _ _ Hpb E2); cbv beta.
  destruct (r2 =? psize msg) eqn:R2; cbv beta iota delta [negb].
  2: { apply Z.eqb_neq in R2.
       exists false. eexists. eexists. split; [apply (sent_short_path _ _ _ _ _ _ r2 R2) |].
       rewrite (bind_done _ _ _ _ _ _ _ _ (drop_client_first c i s w2 Hc Hi)).
       reflexivity. }
  apply Z.eqb_eq in R2. subst r2.
  destruct (client_writer s c db (dsize msg) w2) as [r3 w3] eqn:E3.
  rewrite (bind_write_from _ _ _ _ _ _ _ _ _ Hdb E3); cbv beta.
  destruct (r3 =? dsize msg) eqn:R3; cbv beta iota delta [negb].
  2: { apply Z.eqb_neq in R3.
       exists false. eexists. eexists. split; [apply (sent_short_data _ _ _ _ _ _ r3 R3) |].
       rewrite (bind_done _ _ _ _ _ _ _ _ (drop_client_first c i s w3 Hc Hi)).
       reflexivity. }
  apply Z.eqb_eq in R3. subst r3.
  exists true. eexists. eexists. split; [apply sent_full |]. reflexivity.
Qed.

Lemma store_length a i v : length (store a i v) = length a.
Proof.
  revert i. induction a as [| x a IH]; intros [| i]; simpl; auto.
Qed.

Lemma firstn2_stored d a b :
  (2 <= length d)%nat ->
  firstn 2 (store (store (store (store d 0 0) 1 0) 0 a) 1 b) = [a; b].
Proof.
  destruct d as [| x [| y d]]; simpl; intros H; try lia. reflexivity.
Qed.

(** [send_mfs_error] is [send_mfs_message] of the error message, from a
    server whose data buffer starts with the two bytes of the code. *)
Lemma send_mfs_error_run msg c code s w :
  2 <= data_bsize s ->
  exists d,
    length d = length (data_buffer s) /\
    firstn 2 d = [Z.land code 0xFF; Z.land (Z.shiftr code 8) 0xFF] /\
    send_mfs_error msg c code s w =
    send_mfs_message
      (mk_msg (psize msg) 2 (RESPONSE_OF OP_ERROR) (path msg) DATA_BUFFER) c
      (set_data_buffer s d) w.
Proof.
  intros Hd. unfold data_bsize in Hd.
  exists (store (store (store (store (data_buffer s) 0 0) 1 0) 0
                   (Z.land code 0xFF)) 1 (Z.land (Z.shiftr code 8) 0xFF)).
  split; [now rewrite !store_length |].
  split; [apply firstn2_stored; lia |].
  unfold send_mfs_error. rewrite !bind_update. reflexivity.
Qed.

(** *** read_mfs_message *)

Lemma bind_read_into_path {B} (k : Z -> M B) c n s w r bytes w1 :
  client_reader s c n w = (r, bytes, w1) ->
  bind (read_into_path c n) k s w =
  prefix [EvRead c n r]
    (k r (set_path_buffer s (blit (firstn (Z.to_nat n) bytes) (path_buffer s)))
       w1).
Proof.
  intros H. unfold read_into_path.
  rewrite bind_run, (bind_reader _ _ _ _ _ _ _ _ H). cbv beta.
  rewrite bind_update. reflexivity.
Qed.

Lemma bind_read_into_data {B} (k : Z -> M B) c n s w r bytes w1 :
  client_reader s c n w = (r, bytes, w1) ->
  bind (read_into_data c n) k s w =
  prefix [EvRead c n r]
    (k r (set_data_buffer s (blit (firstn (Z.to_nat n) bytes) (data_buffer s)))
       w1).
Proof.
  intros H. unfold read_into_data.
  rewrite bind_run, (bind_reader _ _ _ _ _ _ _ _ H). cbv beta.
  rewrite bind_update. reflexivity.
Qed.

Lemma returns_ret {A} (x : A) : returns x (@ret World A x).
Proof. intros s w a s' w' t H. now inversion H. Qed.

Lemma returns_bind {A B} (x : B) (m : @M World A) (k : A -> @M World B) :
  (forall a, returns x (k a)) -> returns x (bind m k).
Proof.
  intros Hk s w b s' w' t H. rewrite bind_run in H.
  destruct (m s w) as [a s1 w1 t1 | |]; try discriminate.
  destruct (k a s1 w1) as [b' s2 w2 t2 | |] eqn:E; try discriminate.
  simpl in H. inversion H; subst. exact (Hk a _ _ _ _ _ _ E).
Qed.

Lemma prefix_done {A} t (o : outcome World A) a s' w' t' :
  prefix t o = Done a s' w' t' ->
  exists t2, o = Done a s' w' t2 /\ t' = t ++ t2.
Proof.
  destruct o; simpl; intros H; inversion H; subst. eauto.
Qed.

(** A message that is not the sentinel comes out of [read_mfs_message]
    only by its last [return]: header, path and data were read in full
    and fit the limits and the buffers. *)
Lemma read_mfs_message_request sgn fuel c s w req s1 w1 t :
  read_mfs_message sgn fuel c s w = Done req s1 w1 t ->
  is_sentinel req = false ->
  exists hb wa pb wb db,
    client_reader s c 9 w = (9, hb, wa) /\
    psize (header_of sgn hb) <= hard_limit s /\
    dsize (header_of sgn hb) <= hard_limit s /\
    psize (header_of sgn hb) <= path_bsize s /\
    dsize (header_of sgn hb) <= data_bsize s /\
    client_reader s c (psize (header_of sgn hb)) wa
      = (psize (header_of sgn hb), pb, wb) /\
    client_reader s c (dsize (header_of sgn hb)) wb
      = (dsize (header_of sgn hb), db, w1) /\
    req = mk_msg (psize (header_of sgn hb)) (dsize (header_of sgn hb))
            (op (header_of sgn hb)) PATH_BUFFER DATA_BUFFER /\
    s1 = set_data_buffer
           (set_path_buffer s
              (blit (firstn (Z.to_nat (psize (header_of sgn hb))) pb)
                 (path_buffer s)))
           (blit (firstn (Z.to_nat (dsize (header_of sgn hb))) db)
              (data_buffer s)) /\
    t = [EvRead c 9 9;
         EvRead c (psize (header_of sgn hb)) (psize (header_of sgn hb));
         EvRead c (dsize (header_of sgn hb)) (dsize (header_of sgn hb))].
Proof.
  intros Hrun Hreq.
  assert (Hsentinel : forall (m : M mfs_message_t) s0 w0 t0,
             returns empty_error_msg m ->
             prefix t0 (m s0 w0) = Done req s1 w1 t -> False).
  { intros m s0 w0 t0 Hm H. apply prefix_done in H.
    destruct H as (t2 & H & _). apply Hm in H. subst req. discriminate. }
  unfold read_mfs_message in Hrun.
  destruct (client_reader s c 9 w) as [[r hb] wa] eqn:E9.
  rewrite (bind_reader _ _ _ _ _ _ _ _ E9) in Hrun.
  cbn [fst snd] in Hrun. fold (header_of sgn hb) in Hrun.
  destruct (r =? 9) eqn:R9; cbv beta iota delta [negb] in Hrun.
  2: { exfalso. eapply Hsentinel; [| exact Hrun].
       apply returns_bind. intros _. apply returns_ret. }
  apply Z.eqb_eq in R9. subst r.
  rewrite bind_this in Hrun.
  destruct (hard_limit s <? psize (header_of sgn hb)) eqn:L1;
    [exfalso; eapply Hsentinel; [| exact Hrun];
     apply returns_bind; intros _; apply returns_ret |].
  destruct (hard_limit s <? dsize (header_of sgn hb)) eqn:L2;
    [exfalso; eapply Hsentinel; [| exact Hrun];
     apply returns_bind; intros _; apply returns_ret |].
  cbn [orb] in Hrun.
  destruct ((path_bsize s <? psize (header_of sgn hb))
            || (data_bsize s <? dsize (header_of sgn hb))) eqn:L3.
  { exfalso. eapply Hsentinel; [| exact Hrun].
    repeat (apply returns_bind; intros _). apply returns_ret. }
  apply orb_false_elim in L3. destruct L3 as [L3 L4].
  apply Z.ltb_ge in L1, L2, L3, L4.
  destruct (client_reader s c (psize (header_of sgn hb)) wa)
    as [[rp pb] wb] eqn:Ep.
  rewrite (bind_read_into_path _ _ _ _ _ _ _ _ Ep) in Hrun.
  destruct (rp =? psize (header_of sgn hb)) eqn:Rp;
    cbv beta iota delta [negb] in Hrun.
  2: { exfalso. rewrite prefix_prefix in Hrun.
       eapply Hsentinel; [| exact Hrun].
       apply returns_bind. intros _. apply returns_ret. }
  apply Z.eqb_eq in Rp. subst rp.
  match type of Hrun with
  | context [bind (read_into_data _ _) _ ?s0 _] =>
      destruct (client_reader s0 c (dsize (header_of sgn hb)) wb)
        as [[rd db] w1'] eqn:Ed
  end.
  rewrite (bind_read_into_data _ _ _ _ _ _ _ _ Ed) in Hrun.
  cbn [client_reader set_path_buffer] in Ed.
  destruct (rd =? dsize (header_of sgn hb)) eqn:Rd;
    cbv beta iota delta [negb] in Hrun.
  2: { exfalso. rewrite !prefix_prefix in Hrun.
       eapply Hsentinel; [| exact Hrun].
       apply returns_bind. intros _. apply returns_ret. }
  apply Z.eqb_eq in Rd. subst rd.
  cbn [prefix ret app] in Hrun. inversion Hrun; subst.
  exists hb, wa, pb, wb, db. repeat split; assumption.
Qed.

(** *** Deadlines are only written by [renew_deadline] *)

Lemma keeps_ret {A} (a : A) : keeps_deadlines (@ret World A a).
Proof. intros s w a' s' w' t H. now inversion H. Qed.

Lemma keeps_bind {A B} (m : @M World A) (k : A -> @M World B) :
  keeps_deadlines m -> (forall a, keeps_deadlines (k a)) ->
  keeps_deadlines (bind m k).
Proof.
  intros Hm Hk s w b s' w' t H. rewrite bind_run in H.
  destruct (m s w) as [a s1 w1 t1 | |] eqn:E1; try discriminate.
  apply prefix_done in H. destruct H as (t2 & H & _).
  rewrite (Hk a _ _ _ _ _ _ H). exact (Hm _ _ _ _ _ _ E1).
Qed.

Lemma keeps_this : keeps_deadlines (@this World).
Proof. intros s w a s' w' t H. now inversion H. Qed.

Lemma keeps_update (f : mfs_server World -> mfs_server World) :
  (forall s, clients (f s) = clients s) -> keeps_deadlines (update f).
Proof. intros Hf s w a s' w' t H. inversion H; subst. now rewrite Hf. Qed.

Lemma keeps_fault {A} : keeps_deadlines (@fault World A).
Proof. intros s w a s' w' t H. discriminate. Qed.

Lemma keeps_call_writer c bytes n :
  keeps_deadlines (@call_writer World c bytes n).
Proof.
  intros s w a s' w' t H. unfold call_writer in H.
  destruct (client_writer s c bytes n w). now inversion H.
Qed.

#[local] Hint Resolve keeps_ret keeps_this keeps_fault keeps_call_writer
  : deadlines.

(** Walks down a computation: binds and branches are opened, the leaves
    are closed from the hint database. *)
Ltac keeps :=
  repeat first
    [ solve [auto with deadlines]
    | apply keeps_bind; [| intros ?]
    | apply keeps_update; intros; reflexivity
    | match goal with
      | |- keeps_deadlines (if ?b then _ else _) => destruct b
      | |- keeps_deadlines (match ?x with _ => _ end) => destruct x
      end ].

Lemma keeps_client_at i : keeps_deadlines (@client_at World i).
Proof. unfold client_at. keeps. Qed.

Lemma drop_slot_deadlines c cs cs' :
  drop_slot c cs = Some cs' -> map timer_end cs' = map timer_end cs.
Proof.
  revert cs'. induction cs as [| h cs IH]; intros cs' H; simpl in H.
  - discriminate.
  - destruct (c =? client h).
    + now inversion H.
    + destruct (drop_slot c cs) as [cs0 |]; try discriminate.
      inversion H; subst. simpl. now rewrite (IH cs0).
Qed.

Lemma keeps_drop_client c : keeps_deadlines (@drop_client World c).
Proof.
  intros s w a s' w' t H. unfold drop_client in H.
  destruct (c =? 0); [now inversion H |].
  rewrite bind_this in H.
  destruct (drop_slot c (clients s)) as [cs' |] eqn:E.
  - inversion H; subst. simpl. now apply drop_slot_deadlines with c.
  - now inversion H.
Qed.

#[local] Hint Resolve keeps_client_at keeps_drop_client : deadlines.

Lemma keeps_write_from c p n : keeps_deadlines (@write_from World c p n).
Proof. unfold write_from. keeps. Qed.

#[local] Hint Resolve keeps_write_from : deadlines.

Lemma keeps_send_mfs_message msg c :
  keeps_deadlines (@send_mfs_message World msg c).
Proof. unfold send_mfs_message. keeps. Qed.

#[local] Hint Resolve keeps_send_mfs_message : deadlines.

Lemma keeps_send_mfs_error msg c code :
  keeps_deadlines (@send_mfs_error World msg c code).
Proof. unfold send_mfs_error. keeps. Qed.

Lemma keeps_ls_stream fs c : keeps_deadlines (@ls_stream World fs c).
Proof. induction fs as [| f fs IH]; simpl; keeps. Qed.

#[local] Hint Resolve keeps_send_mfs_error keeps_ls_stream : deadlines.

Lemma keeps_list_files c : keeps_deadlines (@list_files World c).
Proof. unfold list_files. keeps. Qed.

Lemma keeps_call_reader_f index req :
  keeps_deadlines (@call_reader_f World index req).
Proof.
  intros s w a s' w' t H. unfold call_reader_f in H.
  destruct (reader_f _) as [h |]; try discriminate.
  destruct (h req (path_buffer s) (data_buffer s) w). now inversion H.
Qed.

Lemma keeps_call_writer_f index req :
  keeps_deadlines (@call_writer_f World index req).
Proof.
  intros s w a s' w' t H. unfold call_writer_f in H.
  destruct (writer_f _) as [h |]; try discriminate.
  destruct (h req (path_buffer s) (data_buffer s) w). now inversion H.
Qed.

#[local] Hint Resolve keeps_list_files keeps_call_reader_f
  keeps_call_writer_f : deadlines.

Lemma keeps_dispatch i req index :
  keeps_deadlines (@dispatch World i req index).
Proof. unfold dispatch. keeps. Qed.

#[local] Hint Resolve keeps_dispatch : deadlines.

Lemma keeps_route i req : keeps_deadlines (@route World i req).
Proof. unfold route. keeps. Qed.

(** *** The client table *)

Lemma set_timer_end_length i v cs :
  length (set_timer_end i v cs) = length cs.
Proof.
  unfold set_timer_end. destruct (nth_error cs i) as [h |] eqn:E;
    [| reflexivity].
  assert (Hi : (i < length cs)%nat) by (apply nth_error_Some; congruence).
  rewrite length_app. cbn [length].
  rewrite length_firstn, length_skipn. lia.
Qed.

Lemma set_timer_end_timer i v cs :
  (i < length cs)%nat ->
  timer_end (nth i (set_timer_end i v cs) empty_client) = v.
Proof.
  intros Hi. unfold set_timer_end.
  destruct (nth_error cs i) as [h |] eqn:E.
  - rewrite app_nth2; rewrite firstn_length_le by lia; [| lia].
    now rewrite Nat.sub_diag.
  - apply nth_error_None in E. lia.
Qed.

Lemma set_timer_end_client i v cs j :
  client (nth j (set_timer_end i v cs) empty_client)
  = client (nth j cs empty_client).
Proof.
  unfold set_timer_end. destruct (nth_error cs i) as [h |] eqn:E;
    [| reflexivity].
  assert (Hi : (i < length cs)%nat) by (apply nth_error_Some; congruence).
  destruct (Nat.lt_ge_cases j i) as [Hj | Hj].
  - rewrite app_nth1 by (rewrite firstn_length_le; lia).
    now rewrite nth_firstn, (proj2 (Nat.ltb_lt j i) Hj).
  - rewrite app_nth2; rewrite firstn_length_le by lia; [| lia].
    destruct (j - i)%nat as [| d] eqn:Ed.
    + assert (j = i) by lia. subst j. simpl.
      now rewrite (nth_error_nth _ _ _ E).
    + cbn [nth]. rewrite nth_skipn. f_equal. f_equal. lia.
Qed.

Lemma set_timer_end_first_slot c i v cs :
  first_slot_of c cs i -> first_slot_of c (set_timer_end i v cs) i.
Proof.
  intros (Hi & Hc & Hbefore). repeat split.
  - now rewrite set_timer_end_length.
  - now rewrite set_timer_end_client.
  - intros j Hj. rewrite set_timer_end_client. now apply Hbefore.
Qed.

Lemma nth_deadline i cs :
  timer_end (nth i cs empty_client) = nth i (map timer_end cs) 0.
Proof. symmetry. apply (map_nth timer_end cs empty_client i). Qed.

(** *** The turn of a slot up to the read *)

Section Turn.

Variable sgn : bool.
Variables (fuel i : nat) (c : client_t).
Variables (s : mfs_server World) (w : World).
Hypothesis Hc : c <> 0.
Hypothesis Hslot : first_slot_of c (clients s) i.

Lemma slot_client : client (nth i (clients s) empty_client) = c.
Proof. apply Hslot. Qed.

Lemma serve_client_expired now w1 :
  millis s w = (now, w1) ->
  timer_end (nth i (clients s) empty_client) <= now ->
  serve_client sgn fuel i s w =
  (send_mfs_error noop_response c 3000 ;;;
   c' <- client_at i ;; drop_client c' ;;; ret tt) s w1.
Proof.
  intros Hm Ht. unfold serve_client.
  rewrite bind_client_at, slot_client.
  apply Z.eqb_neq in Hc. rewrite Hc.
  rewrite bind_this, (bind_millis _ _ _ _ _ Hm).
  apply Z.leb_le in Ht. rewrite Ht.
  now rewrite bind_client_at, slot_client.
Qed.

Lemma serve_client_polls now w1 av w2 :
  millis s w = (now, w1) ->
  now < timer_end (nth i (clients s) empty_client) ->
  client_available s c w1 = (av, w2) ->
  serve_client sgn fuel i s w =
  if 9 <=? av then
    bind (read_mfs_message sgn fuel c) (handle_request i) s w2
  else Done tt s w2 [].
Proof.
  intros Hm Ht Ha. unfold serve_client.
  rewrite bind_client_at, slot_client.
  apply Z.eqb_neq in Hc. rewrite Hc.
  rewrite bind_this, (bind_millis _ _ _ _ _ Hm).
  apply Z.leb_gt in Ht. rewrite Ht.
  rewrite bind_client_at, slot_client, (bind_available _ _ _ _ _ _ Ha).
  destruct (9 <=? av); [| reflexivity].
  now rewrite bind_client_at, slot_client.
Qed.

(** The close of the turn after a message was sent to [c]: [c] is dropped,
    by [send_mfs_message] if a write fell short and by the caller
    otherwise. *)
Lemma sent_then_dropped (msg : mfs_message_t) s1 w1 pb db :
  clients s1 = clients s ->
  client_killer s1 = client_killer s ->
  bytes_of s1 (path msg) (psize msg) = Some pb ->
  bytes_of s1 (data msg) (dsize msg) = Some db ->
  exists ok ws w',
    sent c (fill_headers (repeat 0 9%nat) msg) pb db (psize msg) (dsize msg)
      ok ws /\
    (send_mfs_message msg c ;;;
     c' <- client_at i ;; drop_client c' ;;; ret tt) s1 w1 =
    Done tt (set_clients s1 (clear_slot i (clients s))) w'
      (ws ++ [EvClose c]).
Proof.
  intros Hcs Hk Hpb Hdb.
  assert (Hslot1 : first_slot_of c (clients s1) i) by now rewrite Hcs.
  destruct (send_mfs_message_sent msg c i s1 w1 pb db Hc Hslot1 Hpb Hdb)
    as (ok & ws & w' & Hsent & Hrun).
  exists ok, ws. destruct ok.
  - eexists. split; [exact Hsent |].
    rewrite (bind_done _ _ _ _ _ _ _ _ Hrun).
    rewrite bind_client_at, Hcs, slot_client.
    rewrite (bind_done _ _ _ _ _ _ _ _ (drop_client_first c i s1 w' Hc Hslot1)).
    simpl. now rewrite Hcs.
  - eexists. split; [exact Hsent |].
    rewrite (bind_done _ _ _ _ _ _ _ _ Hrun).
    rewrite bind_client_at. cbn [clients set_clients].
    rewrite Hcs, clear_slot_client by apply Hslot.
    rewrite (bind_done _ _ _ _ _ _ _ _ (drop_client_zero _ _)).
    simpl. now rewrite app_nil_r.
Qed.

Lemma read_mfs_message_hard_limit hb w1 :
  client_reader s c 9 w = (9, hb, w1) ->
  hard_limit s < psize (header_of sgn hb)
  \/ hard_limit s < dsize (header_of sgn hb) ->
  read_mfs_message sgn fuel c s w =
  Done empty_error_msg (set_clients s (clear_slot i (clients s)))
    (client_killer s c w1) [EvRead c 9 9; EvClose c].
Proof.
  intros E9 Hlimit. unfold read_mfs_message.
  rewrite (bind_reader _ _ _ _ _ _ _ _ E9).
  cbn [fst snd]. fold (header_of sgn hb).
  rewrite Z.eqb_refl. cbv beta iota delta [negb].
  rewrite bind_this.
  assert (L : (hard_limit s <? psize (header_of sgn hb))
              || (hard_limit s <? dsize (header_of sgn hb)) = true).
  { apply orb_true_iff. destruct Hlimit as [H | H]; [left | right];
      now apply Z.ltb_lt. }
  rewrite L.
  rewrite (bind_done _ _ _ _ _ _ _ _ (drop_client_first c i s w1 Hc Hslot)).
  reflexivity.
Qed.

Lemma handle_sentinel_dropped s1 w1 :
  client (nth i (clients s1) empty_client) = 0 ->
  handle_request i empty_error_msg s1 w1 = Done tt s1 w1 [].
Proof.
  intros H. unfold handle_request. cbn [is_sentinel empty_error_msg is_null
    data path dsize psize andb Z.eqb].
  rewrite bind_client_at, H.
  now rewrite (bind_done _ _ _ _ _ _ _ _ (drop_client_zero _ _)).
Qed.

(** A message that is not the sentinel: the deadline is renewed and the
    message is routed. *)
Lemma handle_request_renews req s1 w1 now w2 :
  is_sentinel req = false ->
  millis s1 w1 = (now, w2) ->
  handle_request i req s1 w1 =
  route i req
    (set_clients s1 (set_timer_end i (u64 (now + timer_ms s1)) (clients s1)))
    w2.
Proof.
  intros Hreq Hm. unfold handle_request. rewrite Hreq.
  unfold renew_deadline. rewrite bind_run, (bind_millis _ _ _ _ _ Hm).
  unfold update. apply prefix_nil.
Qed.

(** A turn that reads a message in full renews the deadline of its slot
    and routes the message. *)
Lemma serve_client_routes now w1 av w2 req s1 w3 t1 now' w4 :
  millis s w = (now, w1) ->
  now < timer_end (nth i (clients s) empty_client) ->
  client_available s c w1 = (av, w2) ->
  9 <= av ->
  read_mfs_message sgn fuel c s w2 = Done req s1 w3 t1 ->
  is_sentinel req = false ->
  millis s w3 = (now', w4) ->
  serve_client sgn fuel i s w =
  prefix t1
    (route i req
       (set_clients s1 (set_timer_end i (u64 (now' + timer_ms s)) (clients s)))
       w4).
Proof.
  intros Hm Ht Ha Hav Hread Hreq Hm'.
  rewrite (serve_client_polls now w1 av w2 Hm Ht Ha).
  apply Z.leb_le in Hav. rewrite Hav.
  rewrite (bind_done _ _ _ _ _ _ _ _ Hread).
  destruct (read_mfs_message_request _ _ _ _ _ _ _ _ _ Hread Hreq)
    as (hb & wa & pb & wb & db & _ & _ & _ & _ & _ & _ & _ & _ & Hs1 & _).
  rewrite (handle_request_renews req s1 w3 now' w4 Hreq);
    [| subst s1; exact Hm'].
  subst s1. reflexivity.
Qed.

End Turn.

End Run.

(** ** The hard limit *)

(** C7.  A client whose header advertises a psize or dsize above the hard
    limit is dropped at once: after the read of the header the server
    makes no further read and no write, it calls the close callback and
    clears the slot. *)
Theorem hard_limit_drops_without_reading {World : Type} (sgn : bool)
    (fuel i : nat) (c : client_t) (s : mfs_server World)
    (w w1 w2 w3 : World) (now av : Z) (hb : list Z) :
  c <> 0 ->
  first_slot_of c (clients s) i ->
  millis s w = (now, w1) ->
  now < timer_end (nth i (clients s) empty_client) ->
  client_available s c w1 = (av, w2) ->
  9 <= av ->
  client_reader s c 9 w2 = (9, hb, w3) ->
  hard_limit s < psize (header_of sgn hb)
  \/ hard_limit s < dsize (header_of sgn hb) ->
  serve_client sgn fuel i s w =
  Done tt (set_clients s (clear_slot i (clients s))) (client_killer s c w3)
    [EvRead c 9 9; EvClose c].
Proof.
  intros Hc Hslot Hm Ht Ha Hav E9 Hlimit.
  rewrite (serve_client_polls sgn fuel i c s w Hc Hslot now w1 av w2 Hm Ht Ha).
  apply Z.leb_le in Hav. rewrite Hav.
  rewrite (bind_done _ _ _ _ _ _ _ _
             (read_mfs_message_hard_limit sgn fuel i c s w2 Hc Hslot hb w3
                E9 Hlimit)).
  rewrite handle_sentinel_dropped.
  - simpl. reflexivity.
  - cbn [clients set_clients]. apply clear_slot_client, Hslot.
Qed.

Lemma hard_limit_drops_without_reading_witness :
  serve_client false 0 0 (Bench.server 16 16 [Bench.file_hi])
    (Bench.mk_wire ([0; 0; 0; 0; 17; 39; 0; 0; 2] ++ repeat 1 100%nat) 0)
  = Done tt
      (set_clients (Bench.server 16 16 [Bench.file_hi])
         [mk_client 0 1000])
      (Bench.mk_wire (repeat 1 100%nat) 0)
      [EvRead 7 9 9; EvClose 7].
Proof.
  apply (hard_limit_drops_without_reading false 0 0 7
           (Bench.server 16 16 [Bench.file_hi])
           (Bench.mk_wire ([0; 0; 0; 0; 17; 39; 0; 0; 2] ++ repeat 1 100%nat) 0)
           (Bench.mk_wire ([0; 0; 0; 0; 17; 39; 0; 0; 2] ++ repeat 1 100%nat) 0)
           (Bench.mk_wire ([0; 0; 0; 0; 17; 39; 0; 0; 2] ++ repeat 1 100%nat) 0)
           (Bench.mk_wire (repeat 1 100%nat) 0)
           0 109 [0; 0; 0; 0; 17; 39; 0; 0; 2]).
  - discriminate.
  - repeat split; simpl; try lia.
  - reflexivity.
  - simpl. lia.
  - reflexivity.
  - lia.
  - reflexivity.
  - right. vm_compute. reflexivity.
Defined.

(** ** Deadlines *)

(** C8.  A client whose deadline is at or before the current time is sent
    the one error response with code 3000 and dropped; and a request that
    was read in full sets the deadline of its client to the current time
    plus [timer_ms], in 64-bit unsigned arithmetic, where it stays until
    the turn is over. *)
Theorem deadline_expiry_and_renewal {World : Type} (sgn : bool)
    (fuel i : nat) (c : client_t) (s : mfs_server World) :
  c <> 0 ->
  first_slot_of c (clients s) i ->
  (forall w now w1,
     2 <= data_bsize s ->
     millis s w = (now, w1) ->
     timer_end (nth i (clients s) empty_client) <= now ->
     exists ok ws s' w',
       serve_client sgn fuel i s w = Done tt s' w' (ws ++ [EvClose c]) /\
       sent c [0; 0; 0; 0; 2; 0; 0; 0; 132] [] [184; 11] 0 2 ok ws /\
       clients s' = clear_slot i (clients s))
  /\
  (forall w now w1 av w2 req s1 w3 t1 now' w4,
     millis s w = (now, w1) ->
     now < timer_end (nth i (clients s) empty_client) ->
     client_available s c w1 = (av, w2) ->
     9 <= av ->
     read_mfs_message sgn fuel c s w2 = Done req s1 w3 t1 ->
     is_sentinel req = false ->
     millis s w3 = (now', w4) ->
     serve_client sgn fuel i s w =
       prefix t1
         (route i req
            (set_clients s1
               (set_timer_end i (u64 (now' + timer_ms s)) (clients s)))
            w4) /\
     timer_end
       (nth i (set_timer_end i (u64 (now' + timer_ms s)) (clients s))
          empty_client)
     = u64 (now' + timer_ms s) /\
     (0 <= now' + timer_ms s < 2 ^ 64 ->
      u64 (now' + timer_ms s) = now' + timer_ms s) /\
     forall s' w' t,
       serve_client sgn fuel i s w = Done tt s' w' t ->
       timer_end (nth i (clients s') empty_client) = u64 (now' + timer_ms s)).
Proof.
  intros Hc Hslot. split.
  - intros w now w1 Hd Hm Ht.
    rewrite (serve_client_expired sgn fuel i c s w Hc Hslot now w1 Hm Ht).
    destruct (send_mfs_error_run noop_response c 3000 s w1 Hd)
      as (d & Hlen & Hd2 & Herr).
    rewrite bind_run, Herr, <- bind_run.
    destruct (sent_then_dropped i c s Hc Hslot
                (mk_msg 0 2 (RESPONSE_OF OP_ERROR) NULL DATA_BUFFER)
                (set_data_buffer s d) w1 [] [184; 11])
      as (ok & ws & w' & Hsent & Hrun); try reflexivity.
    { cbn [bytes_of data dsize data_buffer set_data_buffer].
      change (Z.to_nat 2) with 2%nat. now rewrite Hd2. }
    exists ok, ws. eexists. exists w'.
    split; [exact Hrun |]. split; [exact Hsent | reflexivity].
  - intros w now w1 av w2 req s1 w3 t1 now' w4 Hm Ht Ha Hav Hread Hreq Hm'.
    pose proof (serve_client_routes sgn fuel i c s w Hc Hslot now w1 av w2
                  req s1 w3 t1 now' w4 Hm Ht Ha Hav Hread Hreq Hm') as Hrun.
    split; [exact Hrun |].
    split; [apply set_timer_end_timer, Hslot |].
    split; [intros Hrange; unfold u64; now apply Z.mod_small |].
    intros s' w' t Hdone. rewrite Hrun in Hdone.
    apply prefix_done in Hdone. destruct Hdone as (t2 & Hroute & _).
    apply keeps_route in Hroute. cbn [clients set_clients] in Hroute.
    rewrite nth_deadline, Hroute, <- nth_deadline.
    apply set_timer_end_timer, Hslot.
Qed.

Lemma deadline_expiry_and_renewal_witness :
  (exists ok ws s' w',
     serve_client false 0 0 (Bench.server 16 16 [Bench.file_hi])
       (Bench.mk_wire [] 1000)
     = Done tt s' w' (ws ++ [EvClose 7]) /\
     sent 7 [0; 0; 0; 0; 2; 0; 0; 0; 132] [] [184; 11] 0 2 ok ws /\
     clients s' = [mk_client 0 1000])
  /\
  (forall s' w' t,
     serve_client false 0 0 (Bench.server 16 16 [Bench.file_hi])
       (Bench.mk_wire [0; 0; 0; 0; 0; 0; 0; 0; 0] 500)
     = Done tt s' w' t ->
     timer_end (nth 0 (clients s') empty_client) = 20500).
Proof.
  destruct (deadline_expiry_and_renewal false 0 0 7
              (Bench.server 16 16 [Bench.file_hi]))
    as [Hexpiry Hrenewal].
  - discriminate.
  - repeat split; simpl; try lia.
  - split.
    + apply (Hexpiry (Bench.mk_wire [] 1000) 1000 (Bench.mk_wire [] 1000)).
      * vm_compute. discriminate.
      * reflexivity.
      * simpl. lia.
    + apply (Hrenewal
               (Bench.mk_wire [0; 0; 0; 0; 0; 0; 0; 0; 0] 500) 500
               (Bench.mk_wire [0; 0; 0; 0; 0; 0; 0; 0; 0] 500) 9
               (Bench.mk_wire [0; 0; 0; 0; 0; 0; 0; 0; 0] 500)
               (mk_msg 0 0 0 PATH_BUFFER DATA_BUFFER)
               (Bench.server 16 16 [Bench.file_hi])
               (Bench.mk_wire [] 500)
               [EvRead 7 9 9; EvRead 7 0 0; EvRead 7 0 0]
               500 (Bench.mk_wire [] 500)).
      * reflexivity.
      * simpl. lia.
      * reflexivity.
      * lia.
      * vm_compute. reflexivity.
      * reflexivity.
      * reflexivity.
Defined.

Section Drain.

Context {World : Type}.
Implicit Types (s : mfs_server World) (w : World) (t : list event).

Lemma bind_assoc {A B C} (m : M A) (f : A -> M B) (k : B -> M C) s w :
  bind (bind m f) k s w = bind m (fun a => bind (f a) k) s w.
Proof.
  rewrite !bind_run. destruct (m s w) as [a s1 w1 t1 | |]; try reflexivity.
  rewrite bind_run. destruct (f a s1 w1) as [b s2 w2 t2 | |]; try reflexivity.
  simpl. now rewrite prefix_prefix.
Qed.

Lemma bind_prefix_run {A B} (m m' : M A) (k : A -> M B) s w t s' w' :
  m s w = prefix t (m' s' w') ->
  bind m k s w = prefix t (bind m' k s' w').
Proof.
  intros H. rewrite !bind_run, H.
  destruct (m' s' w') as [a s1 w1 t1 | |]; try reflexivity.
  simpl. now rewrite prefix_prefix.
Qed.

Lemma blit_length (src dst : list Z) : length (blit src dst) = length dst.
Proof.
  unfold blit. rewrite length_firstn, length_app, length_skipn. lia.
Qed.

Lemma set_data_buffer_same s : set_data_buffer s (data_buffer s) = s.
Proof. now destruct s. Qed.

Lemma set_path_buffer_same s : set_path_buffer s (path_buffer s) = s.
Proof. now destruct s. Qed.

Lemma reads_full_app t1 t2 :
  reads_full (t1 ++ t2) <-> reads_full t1 /\ reads_full t2.
Proof. apply Forall_app. Qed.

Section Loops.

Variables (i : nat) (c : client_t).
Hypothesis Hc : c <> 0.

(** The path-consuming loop makes at most one read, of at most the path
    buffer capacity; when that read is full and psize fits the buffer,
    the whole path is consumed. *)
Lemma consume_path_run psz s w :
  0 <= psz < 2 ^ 32 ->
  first_slot_of c (clients s) i ->
  exists s' w' t,
    consume_path c psz s w = Done tt s' w' t /\
    (reads_full t ->
     exists sizes p,
       t = full_reads c sizes /\
       Forall (fun n => n <= path_bsize s) sizes /\
       (psz <= path_bsize s -> total sizes = psz) /\
       s' = set_path_buffer s p /\
       length p = length (path_buffer s)).
Proof.
  intros Hpsz Hslot. unfold consume_path.
  destruct (0 <? psz) eqn:E0.
  2: { exists s, w, []. split; [reflexivity |]. intros _.
       exists [], (path_buffer s). apply Z.ltb_ge in E0.
       repeat split; try constructor.
       - intros _. simpl. lia.
       - now rewrite set_path_buffer_same. }
  apply Z.ltb_lt in E0. rewrite bind_this.
  replace (u32 (psz - 0)) with psz
    by (unfold u32; rewrite Z.sub_0_r, Z.mod_small; lia).
  set (chunk := if path_bsize s <? psz then path_bsize s else psz).
  assert (Hchunk : chunk <= path_bsize s /\ (psz <= path_bsize s -> chunk = psz)).
  { subst chunk. destruct (path_bsize s <? psz) eqn:E.
    - apply Z.ltb_lt in E. lia.
    - apply Z.ltb_ge in E. lia. }
  destruct (client_reader s c chunk w) as [[r b] w1] eqn:Er.
  rewrite (bind_read_into_path _ _ _ _ _ _ _ _ Er). cbv beta.
  destruct (r =? chunk) eqn:R; cbv beta iota delta [negb].
  - apply Z.eqb_eq in R. subst r.
    rewrite !bind_ret. cbn [prefix ret app].
    eexists. eexists. eexists. split; [reflexivity |]. intros _.
    exists [chunk]. eexists. repeat split.
    + constructor; [lia | constructor].
    + intros Hp. simpl. lia.
    + apply blit_length.
  - apply Z.eqb_neq in R.
    assert (Hslot' : first_slot_of c
              (clients (set_path_buffer s
                 (blit (firstn (Z.to_nat chunk) b) (path_buffer s)))) i)
      by exact Hslot.
    rewrite bind_assoc.
    rewrite (bind_done _ _ _ _ _ _ _ _ (drop_client_first c i _ w1 Hc Hslot')).
    rewrite !bind_ret. cbn [prefix ret app].
    eexists. eexists. eexists. split; [reflexivity |]. intros Hfull.
    inversion Hfull as [| ? ? Hr _]; subst. simpl in Hr. contradiction.
Qed.

(** The data-consuming loop, given fuel for it, ends; when every read is
    full it has consumed what was left of the data, in chunks of at most
    the data buffer capacity. *)
Lemma consume_data_run fuel dsz processed s w :
  1 <= data_bsize s ->
  0 <= processed <= dsz -> dsz < 2 ^ 32 ->
  (Z.to_nat (dsz - processed) <= fuel)%nat ->
  first_slot_of c (clients s) i ->
  exists s' w' t,
    consume_data fuel c dsz processed s w = Done tt s' w' t /\
    (reads_full t ->
     exists sizes d,
       t = full_reads c sizes /\
       Forall (fun n => 0 < n <= data_bsize s) sizes /\
       total sizes = dsz - processed /\
       s' = set_data_buffer s d /\
       length d = length (data_buffer s)).
Proof.
  revert processed s w.
  induction fuel as [| fuel IH]; intros processed s w Hb Hp Hd Hfuel Hslot.
  - assert (processed = dsz) by lia. subst processed.
    simpl. rewrite Z.ltb_irrefl.
    exists s, w, []. split; [reflexivity |]. intros _.
    exists [], (data_buffer s). repeat split; try constructor.
    + simpl. lia.
    + now rewrite set_data_buffer_same.
  - cbn [consume_data].
    destruct (processed <? dsz) eqn:E0.
    2: { apply Z.ltb_ge in E0. assert (processed = dsz) by lia. subst.
         exists s, w, []. split; [reflexivity |]. intros _.
         exists [], (data_buffer s). repeat split; try constructor.
         - simpl. lia.
         - now rewrite set_data_buffer_same. }
    apply Z.ltb_lt in E0. rewrite bind_this.
    replace (u32 (dsz - processed)) with (dsz - processed)
      by (unfold u32; rewrite Z.mod_small; lia).
    set (chunk := if data_bsize s <? dsz - processed then data_bsize s
                  else dsz - processed).
    assert (Hchunk : 0 < chunk <= data_bsize s /\ chunk <= dsz - processed).
    { subst chunk. destruct (data_bsize s <? dsz - processed) eqn:E.
      - apply Z.ltb_lt in E. lia.
      - apply Z.ltb_ge in E. lia. }
    destruct (client_reader s c chunk w) as [[r b] w1] eqn:Er.
    rewrite (bind_read_into_data _ _ _ _ _ _ _ _ Er). cbv beta.
    destruct (r =? chunk) eqn:R; cbv beta iota delta [negb].
    + apply Z.eqb_eq in R. subst r.
      replace (u32 (processed + chunk)) with (processed + chunk)
        by (unfold u32; rewrite Z.mod_small; lia).
      set (s1 := set_data_buffer s
                   (blit (firstn (Z.to_nat chunk) b) (data_buffer s))).
      assert (Hb1 : data_bsize s1 = data_bsize s).
      { unfold data_bsize, s1. cbn [data_buffer set_data_buffer].
        now rewrite blit_length. }
      destruct (IH (processed + chunk) s1 w1) as (s' & w' & t & Hrun & Hspec);
        try lia; try exact Hslot.
      rewrite Hrun. cbn [prefix app].
      exists s', w'. eexists. split; [reflexivity |]. intros Hfull.
      inversion Hfull as [| ? ? _ Hfull']; subst.
      destruct (Hspec Hfull') as (sizes & d & -> & Hsizes & Htotal & -> & Hlen).
      exists (chunk :: sizes), d. repeat split.
      * constructor; [lia |]. now rewrite <- Hb1.
      * simpl. fold (total sizes). lia.
      * rewrite Hlen. unfold s1. cbn [data_buffer set_data_buffer].
        apply blit_length.
    + apply Z.eqb_neq in R.
      assert (Hslot' : first_slot_of c
                (clients (set_data_buffer s
                   (blit (firstn (Z.to_nat chunk) b) (data_buffer s)))) i)
        by exact Hslot.
      rewrite (bind_done _ _ _ _ _ _ _ _ (drop_client_first c i _ w1 Hc Hslot')).
      cbn [prefix ret app].
      eexists. eexists. eexists. split; [reflexivity |]. intros Hfull.
      inversion Hfull as [| ? ? Hr _]; subst. simpl in Hr. contradiction.
Qed.

End Loops.

End Drain.

(** *** Range of a decoded header *)

Lemma lor_u32_range (a b : Z) :
  0 <= a < 2 ^ 32 -> 0 <= b < 2 ^ 32 -> 0 <= Z.lor a b < 2 ^ 32.
Proof.
  intros Ha Hb.
  assert (H0 : 0 <= Z.lor a b) by (apply Z.lor_nonneg; lia).
  split; [assumption |].
  destruct (Z.eq_dec (Z.lor a b) 0) as [-> | Hnz]; [lia |].
  apply Z.log2_lt_pow2; [lia |].
  rewrite Z.log2_lor by lia.
  assert (Hlog : forall x, 0 <= x < 2 ^ 32 -> Z.log2 x < 32).
  { intros x Hx. destruct (Z.eq_dec x 0) as [-> | ?]; [reflexivity |].
    apply Z.log2_lt_pow2; lia. }
  apply Z.max_lub_lt; apply Hlog; assumption.
Qed.

Lemma u32_range (x : Z) : 0 <= u32 x < 2 ^ 32.
Proof. unfold u32. apply Z.mod_pos_bound. lia. Qed.

Lemma char_to_uint_range (sgn : bool) (b : Z) :
  is_byte b -> 0 <= char_to_uint sgn b < 2 ^ 32.
Proof.
  unfold is_byte, char_to_uint. intros Hb.
  destruct (sgn && (128 <=? b)); [apply u32_range | lia].
Qed.

Lemma nth_is_byte (l : list Z) (k : nat) :
  Forall is_byte l -> is_byte (nth k l 0).
Proof.
  intros Hl. destruct (nth_in_or_default k l 0) as [Hin | ->].
  - rewrite Forall_forall in Hl. now apply Hl.
  - unfold is_byte. lia.
Qed.

Lemma nth_blit_is_byte (src dst : list Z) (k : nat) :
  Forall is_byte src -> Forall is_byte dst -> is_byte (nth k (blit src dst) 0).
Proof.
  intros Hs Hd. unfold blit. rewrite nth_firstn.
  destruct (k <? length dst)%nat; [| unfold is_byte; lia].
  destruct (Nat.lt_ge_cases k (length src)) as [Hk | Hk].
  - rewrite app_nth1 by assumption. now apply nth_is_byte.
  - rewrite app_nth2 by assumption. rewrite nth_skipn. now apply nth_is_byte.
Qed.

Lemma Forall_firstn_is_byte (n : nat) (l : list Z) :
  Forall is_byte l -> Forall is_byte (firstn n l).
Proof.
  intros Hl. rewrite Forall_forall in *. intros x Hx. apply Hl.
  rewrite <- (firstn_skipn n l). apply in_or_app. now left.
Qed.

Lemma header_of_range (sgn : bool) (hb : list Z) :
  Forall is_byte hb ->
  0 <= psize (header_of sgn hb) < 2 ^ 32 /\
  0 <= dsize (header_of sgn hb) < 2 ^ 32.
Proof.
  intros Hhb. unfold header_of, read_headers. cbn [psize dsize].
  assert (Hb : forall k,
             0 <= char_to_uint sgn
                    (nth k (blit (firstn (Z.to_nat 9) hb) (repeat 0 9%nat)) 0)
               < 2 ^ 32).
  { intros k. apply char_to_uint_range, nth_blit_is_byte.
    - now apply Forall_firstn_is_byte.
    - repeat constructor; unfold is_byte; lia. }
  split; repeat apply lor_u32_range;
    try apply u32_range; try apply Hb; lia.
Qed.

Section Oversize.

Context {World : Type}.
Implicit Types (s : mfs_server World) (w : World) (t : list event).

Variables (sgn : bool) (fuel i : nat) (c : client_t).
Hypothesis Hc : c <> 0.

Lemma read_mfs_message_oversize s w hb w1 :
  client_reader s c 9 w = (9, hb, w1) ->
  psize (header_of sgn hb) <= hard_limit s ->
  dsize (header_of sgn hb) <= hard_limit s ->
  path_bsize s < psize (header_of sgn hb)
  \/ data_bsize s < dsize (header_of sgn hb) ->
  read_mfs_message sgn fuel c s w =
  prefix [EvRead c 9 9]
    ((consume_path c (psize (header_of sgn hb)) ;;;
      consume_data fuel c (dsize (header_of sgn hb)) 0 ;;;
      send_mfs_error empty_error_msg c 1 ;;;
      ret empty_error_msg) s w1).
Proof.
  intros E9 Hp Hd Hover. unfold read_mfs_message.
  rewrite (bind_reader _ _ _ _ _ _ _ _ E9).
  cbn [fst snd]. fold (header_of sgn hb).
  rewrite Z.eqb_refl. cbv beta iota delta [negb].
  rewrite bind_this.
  apply Z.ltb_ge in Hp, Hd. rewrite Hp, Hd. cbn [orb].
  assert (L : (path_bsize s <? psize (header_of sgn hb))
              || (data_bsize s <? dsize (header_of sgn hb)) = true).
  { apply orb_true_iff. destruct Hover as [H | H]; [left | right];
      now apply Z.ltb_lt. }
  now rewrite L.
Qed.

Lemma handle_sentinel_drops s w :
  first_slot_of c (clients s) i ->
  handle_request i empty_error_msg s w =
  Done tt (set_clients s (clear_slot i (clients s))) (client_killer s c w)
    [EvClose c].
Proof.
  intros Hslot. unfold handle_request. cbn [is_sentinel empty_error_msg is_null
    data path dsize psize andb Z.eqb].
  rewrite bind_client_at.
  replace (client (nth i (clients s) empty_client)) with c
    by (symmetry; apply Hslot).
  now rewrite (bind_done _ _ _ _ _ _ _ _ (drop_client_first c i s w Hc Hslot)).
Qed.

(** The end of a turn whose read failed: the error response is sent, the
    sentinel goes back to [serve_clients], the client is dropped. *)
Lemma error_then_dropped (code : Z) s w :
  first_slot_of c (clients s) i ->
  2 <= data_bsize s ->
  exists ok ws s' w',
    sent c
      (fill_headers (repeat 0 9%nat)
         (mk_msg 0 2 (RESPONSE_OF OP_ERROR) NULL DATA_BUFFER))
      [] [Z.land code 0xFF; Z.land (Z.shiftr code 8) 0xFF] 0 2 ok ws /\
    bind (send_mfs_error empty_error_msg c code ;;; ret empty_error_msg)
      (handle_request i) s w
    = Done tt s' w' (ws ++ [EvClose c]) /\
    clients s' = clear_slot i (clients s).
Proof.
  intros Hslot Hd.
  destruct (send_mfs_error_run empty_error_msg c code s w Hd)
    as (d & Hlen & Hd2 & Herr).
  cbn [psize path empty_error_msg] in Herr.
  assert (Hslot' : first_slot_of c (clients (set_data_buffer s d)) i)
    by exact Hslot.
  destruct (send_mfs_message_sent
              (mk_msg 0 2 (RESPONSE_OF OP_ERROR) NULL DATA_BUFFER) c i
              (set_data_buffer s d) w []
              [Z.land code 0xFF; Z.land (Z.shiftr code 8) 0xFF] Hc Hslot')
    as (ok & ws & w' & Hsent & Hrun); try reflexivity.
  { cbn [bytes_of data dsize data_buffer set_data_buffer].
    change (Z.to_nat 2) with 2%nat. now rewrite Hd2. }
  exists ok, ws. rewrite bind_assoc, bind_run, Herr, Hrun.
  destruct ok; cbv beta iota; rewrite bind_ret.
  - rewrite (handle_sentinel_drops _ _ Hslot'). cbn [prefix].
    eexists. eexists. split; [exact Hsent |]. split; reflexivity.
  - rewrite handle_sentinel_dropped.
    + cbn [prefix]. rewrite app_nil_r.
      eexists. eexists. split; [exact Hsent |]. split; reflexivity.
    + cbn [clients set_clients set_data_buffer].
      apply clear_slot_client, Hslot.
Qed.

End Oversize.

(** ** Requests larger than the buffers *)

(** C1, at the sixth end-to-end scenario: a data buffer of 16 bytes and a
    request with psize 0, dsize 100 and opcode 2 followed by its 100 data
    bytes, whatever the signedness of plain [char].  The server reads the
    100 bytes, in six chunks of 16 and one of 4, and nothing stays in the
    stream; it sends the error response with code 1; and then, where the
    client is to remain connected, it calls the close callback and clears
    the slot: the oversize branch of [read_mfs_message] returns the same
    sentinel as its failures, and [serve_clients] drops the client on the
    sentinel. *)
Theorem oversize_request_dropped_after_drain (sgn : bool) :
  events
    (serve_client sgn 100 0 (Bench.server 16 16 [Bench.file_hi])
       (Bench.mk_wire ([0; 0; 0; 0; 100; 0; 0; 0; 2] ++ repeat 1 100%nat) 0))
  = [EvRead 7 9 9; EvRead 7 16 16; EvRead 7 16 16; EvRead 7 16 16;
     EvRead 7 16 16; EvRead 7 16 16; EvRead 7 16 16; EvRead 7 4 4;
     EvWrite 7 [0; 0; 0; 0; 2; 0; 0; 0; 132] 9 9; EvWrite 7 [] 0 0;
     EvWrite 7 [1; 0] 2 2; EvClose 7]
  /\
  Bench.unread
    (serve_client sgn 100 0 (Bench.server 16 16 [Bench.file_hi])
       (Bench.mk_wire ([0; 0; 0; 0; 100; 0; 0; 0; 2] ++ repeat 1 100%nat) 0))
  = []
  /\
  clients_of
    (serve_client sgn 100 0 (Bench.server 16 16 [Bench.file_hi])
       (Bench.mk_wire ([0; 0; 0; 0; 100; 0; 0; 0; 2] ++ repeat 1 100%nat) 0))
  = [mk_client 0 1000].
Proof. destruct sgn; repeat split; vm_compute; reflexivity. Qed.

(** The drop is not particular to one request.  For a header whose
    decoded psize or dsize exceeds the buffer but not the hard limit, and
    reads that are all delivered in full: the path loop makes reads of at
    most the path buffer capacity, which add up to psize when psize fits
    the path buffer; the data loop makes reads of at most the data buffer
    capacity, which add up to dsize (they take what the stream holds next,
    so they begin with what the path loop left behind); one error response
    with code 1 is sent; and then the close callback is called and the
    slot is cleared. *)
Lemma oversize_request_drained_then_dropped {World : Type} (sgn : bool)
    (fuel i : nat) (c : client_t) (s : mfs_server World)
    (w w1 w2 w3 : World) (now av : Z) (hb : list Z) :
  c <> 0 ->
  first_slot_of c (clients s) i ->
  millis s w = (now, w1) ->
  now < timer_end (nth i (clients s) empty_client) ->
  client_available s c w1 = (av, w2) ->
  9 <= av ->
  client_reader s c 9 w2 = (9, hb, w3) ->
  Forall is_byte hb ->
  psize (header_of sgn hb) <= hard_limit s ->
  dsize (header_of sgn hb) <= hard_limit s ->
  path_bsize s < psize (header_of sgn hb)
  \/ data_bsize s < dsize (header_of sgn hb) ->
  2 <= data_bsize s ->
  (Z.to_nat (dsize (header_of sgn hb)) <= fuel)%nat ->
  reads_full (events (serve_client sgn fuel i s w)) ->
  exists path_reads data_reads ok ws s' w',
    serve_client sgn fuel i s w =
      Done tt s' w'
        (EvRead c 9 9 :: full_reads c path_reads ++ full_reads c data_reads
           ++ ws ++ [EvClose c]) /\
    Forall (fun n => n <= path_bsize s) path_reads /\
    (psize (header_of sgn hb) <= path_bsize s ->
     total path_reads = psize (header_of sgn hb)) /\
    Forall (fun n => 0 < n <= data_bsize s) data_reads /\
    total data_reads = dsize (header_of sgn hb) /\
    sent c [0; 0; 0; 0; 2; 0; 0; 0; 132] [] [1; 0] 0 2 ok ws /\
    clients s' = clear_slot i (clients s).
Proof.
  intros Hc Hslot Hm Ht Ha Hav E9 Hbytes Hp Hd Hover Hdb Hfuel Hfull.
  destruct (header_of_range sgn hb Hbytes) as [Hpr Hdr].
  assert (Hrun0 : serve_client sgn fuel i s w =
            prefix [EvRead c 9 9]
              (bind (consume_path c (psize (header_of sgn hb)))
                 (fun _ =>
                    bind (consume_data fuel c (dsize (header_of sgn hb)) 0 ;;;
                          send_mfs_error empty_error_msg c 1 ;;;
                          ret empty_error_msg)
                      (handle_request i)) s w3)).
  { rewrite (serve_client_polls sgn fuel i c s w Hc Hslot now w1 av w2
               Hm Ht Ha).
    apply Z.leb_le in Hav. rewrite Hav.
    rewrite (bind_prefix_run _ _ _ _ _ _ _ _
               (read_mfs_message_oversize sgn fuel c s w2 hb w3 E9 Hp Hd Hover)).
    now rewrite bind_assoc. }
  destruct (consume_path_run i c Hc (psize (header_of sgn hb)) s w3 Hpr Hslot)
    as (sA & wA & tA & HrunA & HspecA).
  rewrite (bind_done _ _ _ _ _ _ _ _ HrunA), prefix_prefix in Hrun0.
  rewrite Hrun0, events_prefix in Hfull.
  apply reads_full_app in Hfull. destruct Hfull as [HfullA Hfull].
  apply (reads_full_app [EvRead c 9 9] tA) in HfullA.
  destruct HfullA as [_ HfullA].
  destruct (HspecA HfullA) as (path_reads & p & -> & Hsizes & Htotal & -> & Hlen).
  clear HspecA HfullA.
  set (sA := set_path_buffer s p) in *.
  assert (HslotA : first_slot_of c (clients sA) i) by exact Hslot.
  assert (HdbA : data_bsize sA = data_bsize s) by reflexivity.
  destruct (consume_data_run i c Hc fuel (dsize (header_of sgn hb)) 0 sA wA)
    as (sB & wB & tB & HrunB & HspecB); try lia; try assumption.
  rewrite bind_assoc, (bind_done _ _ _ _ _ _ _ _ HrunB), prefix_prefix
    in Hrun0.
  cbv beta in Hfull.
  rewrite bind_assoc, (bind_done _ _ _ _ _ _ _ _ HrunB), events_prefix
    in Hfull.
  apply reads_full_app in Hfull. destruct Hfull as [HfullB _].
  destruct (HspecB HfullB) as (data_reads & d & -> & Hdsizes & Hdtotal & -> & Hdlen).
  clear HspecB HfullB.
  set (sB := set_data_buffer sA d) in *.
  assert (HslotB : first_slot_of c (clients sB) i) by exact Hslot.
  assert (HdbB : 2 <= data_bsize sB).
  { unfold data_bsize, sB. cbn [data_buffer set_data_buffer].
    rewrite Hdlen. exact Hdb. }
  destruct (error_then_dropped i c Hc 1 sB wB HslotB HdbB)
    as (ok & ws & s' & w' & Hsent & Hend & Hclients).
  rewrite Hend in Hrun0. cbn [prefix] in Hrun0.
  exists path_reads, data_reads, ok, ws, s', w'.
  split.
  { rewrite Hrun0. f_equal. simpl. now rewrite <- !app_assoc. }
  repeat split; try assumption.
  - rewrite Hdtotal. lia.
Qed.

Lemma oversize_request_drained_then_dropped_example :
  exists path_reads data_reads ok ws s' w',
    serve_client false 100 0 (Bench.server 16 16 [Bench.file_hi])
      (Bench.mk_wire ([0; 0; 0; 0; 100; 0; 0; 0; 2] ++ repeat 1 100%nat) 0)
    = Done tt s' w'
        (EvRead 7 9 9 :: full_reads 7 path_reads ++ full_reads 7 data_reads
           ++ ws ++ [EvClose 7]) /\
    Forall (fun n => n <= 16) path_reads /\
    (0 <= 16 -> total path_reads = 0) /\
    Forall (fun n => 0 < n <= 16) data_reads /\
    total data_reads = 100 /\
    sent 7 [0; 0; 0; 0; 2; 0; 0; 0; 132] [] [1; 0] 0 2 ok ws /\
    clients s' = [mk_client 0 1000].
Proof.
  apply (oversize_request_drained_then_dropped false 100 0 7
           (Bench.server 16 16 [Bench.file_hi])
           (Bench.mk_wire ([0; 0; 0; 0; 100; 0; 0; 0; 2] ++ repeat 1 100%nat) 0)
           (Bench.mk_wire ([0; 0; 0; 0; 100; 0; 0; 0; 2] ++ repeat 1 100%nat) 0)
           (Bench.mk_wire ([0; 0; 0; 0; 100; 0; 0; 0; 2] ++ repeat 1 100%nat) 0)
           (Bench.mk_wire (repeat 1 100%nat) 0)
           0 109 [0; 0; 0; 0; 100; 0; 0; 0; 2]).
  - discriminate.
  - repeat split; simpl; try lia.
  - reflexivity.
  - simpl. lia.
  - reflexivity.
  - lia.
  - reflexivity.
  - repeat constructor; unfold is_byte; lia.
  - vm_compute. discriminate.
  - vm_compute. discriminate.
  - right. vm_compute. reflexivity.
  - vm_compute. discriminate.
  - vm_compute. lia.
  - vm_compute. repeat constructor.
Defined.

Section Replies.

Context {World : Type}.
Implicit Types (s : mfs_server World) (w : World) (t : list event).

Variables (i : nat) (c : client_t).
Hypothesis Hc : c <> 0.

(** A reply to the client of slot [i]: the writes of the message; the
    client stays when they were all accepted and is dropped otherwise. *)
Lemma reply_run msg s w pb db :
  first_slot_of c (clients s) i ->
  bytes_of s (path msg) (psize msg) = Some pb ->
  bytes_of s (data msg) (dsize msg) = Some db ->
  exists ok ws s' w',
    sent c (fill_headers (repeat 0 9%nat) msg) pb db (psize msg) (dsize msg)
      ok ws /\
    (c' <- client_at i ;; send_mfs_message msg c' ;;; ret tt) s w =
      Done tt s' w' (ws ++ if ok then [] else [EvClose c]) /\
    clients s' = (if ok then clients s else clear_slot i (clients s)).
Proof.
  intros Hslot Hpb Hdb.
  destruct (send_mfs_message_sent msg c i s w pb db Hc Hslot Hpb Hdb)
    as (ok & ws & w' & Hsent & Hrun).
  exists ok, ws. rewrite bind_client_at.
  replace (client (nth i (clients s) empty_client)) with c
    by (symmetry; apply Hslot).
  rewrite bind_run, Hrun.
  destruct ok; cbv beta iota; cbn [ret prefix].
  - eexists. eexists. split; [exact Hsent |]. split; reflexivity.
  - rewrite app_nil_r.
    eexists. eexists. split; [exact Hsent |]. split; reflexivity.
Qed.

Lemma bytes_of_set_data_buffer s d p n :
  p <> DATA_BUFFER ->
  bytes_of (set_data_buffer s d) p n = bytes_of s p n.
Proof. destruct p; intros H; try reflexivity. contradiction. Qed.

(** An error reply to the client of slot [i]. *)
Lemma error_reply_run msg code s w pb :
  first_slot_of c (clients s) i ->
  2 <= data_bsize s ->
  path msg <> DATA_BUFFER ->
  bytes_of s (path msg) (psize msg) = Some pb ->
  exists ok ws s' w',
    sent c
      (fill_headers (repeat 0 9%nat)
         (mk_msg (psize msg) 2 (RESPONSE_OF OP_ERROR) (path msg) DATA_BUFFER))
      pb [Z.land code 0xFF; Z.land (Z.shiftr code 8) 0xFF] (psize msg) 2
      ok ws /\
    (c' <- client_at i ;; send_mfs_error msg c' code ;;; ret tt) s w =
      Done tt s' w' (ws ++ if ok then [] else [EvClose c]) /\
    clients s' = (if ok then clients s else clear_slot i (clients s)).
Proof.
  intros Hslot Hd Hpath Hpb.
  destruct (send_mfs_error_run msg c code s w Hd) as (d & Hlen & Hd2 & Herr).
  assert (Hslot' : first_slot_of c (clients (set_data_buffer s d)) i)
    by exact Hslot.
  destruct (reply_run
              (mk_msg (psize msg) 2 (RESPONSE_OF OP_ERROR) (path msg)
                 DATA_BUFFER)
              (set_data_buffer s d) w pb
              [Z.land code 0xFF; Z.land (Z.shiftr code 8) 0xFF] Hslot')
    as (ok & ws & s' & w' & Hsent & Hrun & Hclients).
  { cbn [path psize]. now rewrite bytes_of_set_data_buffer. }
  { cbn [bytes_of data dsize data_buffer set_data_buffer].
    change (Z.to_nat 2) with 2%nat. now rewrite Hd2. }
  exists ok, ws, s', w'. split; [exact Hsent |]. split; [| exact Hclients].
  rewrite bind_client_at in *. cbn [clients set_data_buffer] in Hrun.
  replace (client (nth i (clients s) empty_client)) with c in *
    by (symmetry; apply Hslot).
  cbv beta in *.
  rewrite bind_run, Herr, <- bind_run. exact Hrun.
Qed.

End Replies.

(** *** Replies to a request that was read in full *)

Section Routed.

Context {World : Type}.

Variables (sgn : bool) (fuel i : nat) (c : client_t).
Variables (s s1 : mfs_server World) (w2 w3 w4 : World).
Variables (req : mfs_message_t) (t1 : list event) (deadline : Z).
Hypothesis Hc : c <> 0.
Hypothesis Hslot : first_slot_of c (clients s) i.
Hypothesis Hd : 2 <= data_bsize s.
Hypothesis Hread : read_mfs_message sgn fuel c s w2 = Done req s1 w3 t1.
Hypothesis Hreq : is_sentinel req = false.

(** The server [route] starts from. *)
Let s2 : mfs_server World :=
  set_clients s1 (set_timer_end i deadline (clients s)).

Lemma routed_slot : first_slot_of c (clients s2) i.
Proof. apply set_timer_end_first_slot, Hslot. Qed.

Lemma routed_kept (ok : bool) (s' : mfs_server World) :
  clients s' = (if ok then clients s2 else clear_slot i (clients s2)) ->
  client (nth i (clients s') empty_client) = (if ok then c else 0).
Proof.
  intros ->. destruct ok; [apply routed_slot |].
  apply clear_slot_client, routed_slot.
Qed.

Lemma routed_noop_reply :
  exists (ok : bool) ws s' w',
    (c' <- client_at i ;; send_mfs_message noop_response c' ;;; ret tt) s2 w4
    = Done tt s' w' (ws ++ if ok then [] else [EvClose c]) /\
    sent c [0; 0; 0; 0; 0; 0; 0; 0; 128] [] [] 0 0 ok ws /\
    client (nth i (clients s') empty_client) = (if ok then c else 0).
Proof.
  destruct (reply_run i c Hc noop_response s2 w4 [] [] routed_slot
              eq_refl eq_refl)
    as (ok & ws & s' & w' & Hsent & Hrun & Hclients).
  exists ok, ws, s', w'.
  split; [exact Hrun |]. split; [exact Hsent | now apply routed_kept].
Qed.

Lemma routed_error_reply (code : Z) :
  exists (ok : bool) ws s' w',
    (c' <- client_at i ;; send_mfs_error req c' code ;;; ret tt) s2 w4
    = Done tt s' w' (ws ++ if ok then [] else [EvClose c]) /\
    sent c
      (fill_headers (repeat 0 9%nat)
         (mk_msg (psize req) 2 (RESPONSE_OF OP_ERROR) PATH_BUFFER
            DATA_BUFFER))
      (firstn (Z.to_nat (psize req)) (path_buffer s1))
      [Z.land code 0xFF; Z.land (Z.shiftr code 8) 0xFF] (psize req) 2
      ok ws /\
    client (nth i (clients s') empty_client) = (if ok then c else 0).
Proof.
  destruct (read_mfs_message_request _ _ _ _ _ _ _ _ _ Hread Hreq)
    as (hb & wa & pb & wb & db & _ & _ & _ & _ & _ & _ & _ & Hreq' & Hs1 & _).
  assert (Hd2 : 2 <= data_bsize s2).
  { unfold data_bsize, s2. rewrite Hs1.
    cbn [data_buffer set_clients set_data_buffer]. rewrite blit_length.
    exact Hd. }
  assert (Hpath : path req = PATH_BUFFER) by now rewrite Hreq'.
  destruct (error_reply_run i c Hc req code s2 w4
              (firstn (Z.to_nat (psize req)) (path_buffer s1))
              routed_slot Hd2)
    as (ok & ws & s' & w' & Hsent & Hrun & Hclients).
  { rewrite Hpath. discriminate. }
  { now rewrite Hpath. }
  exists ok, ws, s', w'. rewrite Hpath in Hsent.
  split; [exact Hrun |]. split; [exact Hsent | now apply routed_kept].
Qed.

(** The reply, seen after the events [t1] of the read. *)
Lemma reply_after (m : @M World unit) (s0 : mfs_server World) (w0 : World)
    (P : bool -> list event -> Prop) :
  (exists (ok : bool) ws s' w',
     m s0 w0 = Done tt s' w' (ws ++ if ok then [] else [EvClose c]) /\
     P ok ws /\
     client (nth i (clients s') empty_client) = (if ok then c else 0)) ->
  exists (ok : bool) ws s' w',
    prefix t1 (m s0 w0)
    = Done tt s' w' (t1 ++ ws ++ if ok then [] else [EvClose c]) /\
    P ok ws /\
    client (nth i (clients s') empty_client) = (if ok then c else 0).
Proof.
  intros (ok & ws & s' & w' & Hrun & HP & Hkept).
  exists ok, ws, s', w'. now rewrite Hrun.
Qed.

End Routed.

(** ** Opcodes outside the table *)

(** C6, as amended.  A request that was read in full and whose opcode is
    none of NOOP, READ, WRITE, LS, ERROR is answered by one message: the
    error response with code 1000 when the lookup of its path finds no
    file; otherwise the NOOP response when the opcode is below 30 and the
    error response with code 3003 when it is 30 or more.  The client is
    kept when the answer was written in full and dropped when it was
    not. *)
Theorem unlisted_opcode_reply {World : Type} (sgn : bool) (fuel i : nat)
    (c : client_t) (s s1 : mfs_server World) (w w1 w2 w3 : World)
    (now av : Z) (req : mfs_message_t) (t1 : list event) :
  c <> 0 ->
  first_slot_of c (clients s) i ->
  2 <= data_bsize s ->
  millis s w = (now, w1) ->
  now < timer_end (nth i (clients s) empty_client) ->
  client_available s c w1 = (av, w2) ->
  9 <= av ->
  read_mfs_message sgn fuel c s w2 = Done req s1 w3 t1 ->
  is_sentinel req = false ->
  op req <> OP_NOOP -> op req <> OP_READ -> op req <> OP_WRITE ->
  op req <> OP_LS -> op req <> OP_ERROR ->
  exists (ok : bool) ws s' w',
    serve_client sgn fuel i s w =
      Done tt s' w' (t1 ++ ws ++ if ok then [] else [EvClose c]) /\
    (if lookup_request s1 req =? -1 then
       sent c
         (fill_headers (repeat 0 9%nat)
            (mk_msg (psize req) 2 (RESPONSE_OF OP_ERROR) PATH_BUFFER
               DATA_BUFFER))
         (firstn (Z.to_nat (psize req)) (path_buffer s1)) [232; 3]
         (psize req) 2 ok ws
     else if op req <? MFS_RESERVED_OP_RANGE then
       sent c [0; 0; 0; 0; 0; 0; 0; 0; 128] [] [] 0 0 ok ws
     else
       sent c
         (fill_headers (repeat 0 9%nat)
            (mk_msg (psize req) 2 (RESPONSE_OF OP_ERROR) PATH_BUFFER
               DATA_BUFFER))
         (firstn (Z.to_nat (psize req)) (path_buffer s1)) [187; 11]
         (psize req) 2 ok ws) /\
    client (nth i (clients s') empty_client) = (if ok then c else 0).
Proof.
  intros Hc Hslot Hd Hm Ht Ha Hav Hread Hreq Hnoop Hrd Hwr Hls Herr.
  destruct (millis s w3) as [now' w4] eqn:Hm'.
  rewrite (serve_client_routes sgn fuel i c s w Hc Hslot now w1 av w2 req s1
             w3 t1 now' w4 Hm Ht Ha Hav Hread Hreq Hm').
  unfold route. rewrite bind_this.
  change (lookup_request
            (set_clients s1
               (set_timer_end i (u64 (now' + timer_ms s)) (clients s))) req)
    with (lookup_request s1 req).
  apply Z.eqb_neq in Hnoop, Hrd, Hwr, Hls, Herr.
  destruct (lookup_request s1 req =? -1) eqn:Hlookup.
  - rewrite Hls, Hnoop. cbn [Z.b2z Z.lor Z.eqb negb].
    apply reply_after.
    exact (routed_error_reply sgn fuel i c s s1 w2 w3 w4 req t1 _ Hc Hslot
             Hd Hread Hreq 1000).
  - unfold dispatch. rewrite Herr, Hls, Hnoop, Hrd, Hwr.
    destruct (op req <? MFS_RESERVED_OP_RANGE); apply reply_after.
    + exact (routed_noop_reply i c s s1 w4 _ Hc Hslot).
    + exact (routed_error_reply sgn fuel i c s s1 w2 w3 w4 req t1 _ Hc Hslot
               Hd Hread Hreq 3003).
Qed.

Lemma unlisted_opcode_reply_witness :
  exists (ok : bool) ws s' w',
    serve_client false 0 0 (Bench.server 16 16 [Bench.file_hi; empty_file])
      (Bench.mk_wire [0; 0; 0; 0; 0; 0; 0; 0; 29] 0)
    = Done tt s' w'
        ([EvRead 7 9 9; EvRead 7 0 0; EvRead 7 0 0] ++ ws
           ++ if ok then [] else [EvClose 7]) /\
    sent 7 [0; 0; 0; 0; 0; 0; 0; 0; 128] [] [] 0 0 ok ws /\
    client (nth 0 (clients s') empty_client) = (if ok then 7 else 0).
Proof.
  apply (unlisted_opcode_reply false 0 0 7
           (Bench.server 16 16 [Bench.file_hi; empty_file])
           (Bench.server 16 16 [Bench.file_hi; empty_file])
           (Bench.mk_wire [0; 0; 0; 0; 0; 0; 0; 0; 29] 0)
           (Bench.mk_wire [0; 0; 0; 0; 0; 0; 0; 0; 29] 0)
           (Bench.mk_wire [0; 0; 0; 0; 0; 0; 0; 0; 29] 0)
           (Bench.mk_wire [] 0)
           0 9 (mk_msg 0 0 29 PATH_BUFFER DATA_BUFFER)
           [EvRead 7 9 9; EvRead 7 0 0; EvRead 7 0 0]).
  - discriminate.
  - repeat split; simpl; try lia.
  - vm_compute. discriminate.
  - reflexivity.
  - simpl. lia.
  - reflexivity.
  - lia.
  - vm_compute. reflexivity.
  - reflexivity.
  - discriminate.
  - discriminate.
  - discriminate.
  - discriminate.
  - discriminate.
Defined.

(** C6 as stated fails where the path of the request names no file: with
    the one-slot table of "hi", a request with opcode 29 (psize 0, dsize
    0) and one with opcode 30 are both answered by the error response
    with code 1000 (data [E8 03]). *)
Lemma unlisted_opcode_unknown_file :
  events
    (serve_client false 0 0 (Bench.server 16 16 [Bench.file_hi])
       (Bench.mk_wire [0; 0; 0; 0; 0; 0; 0; 0; 29] 0))
  = [EvRead 7 9 9; EvRead 7 0 0; EvRead 7 0 0;
     EvWrite 7 [0; 0; 0; 0; 2; 0; 0; 0; 132] 9 9; EvWrite 7 [] 0 0;
     EvWrite 7 [232; 3] 2 2]
  /\
  events
    (serve_client false 0 0 (Bench.server 16 16 [Bench.file_hi])
       (Bench.mk_wire [0; 0; 0; 0; 0; 0; 0; 0; 30] 0))
  = [EvRead 7 9 9; EvRead 7 0 0; EvRead 7 0 0;
     EvWrite 7 [0; 0; 0; 0; 2; 0; 0; 0; 132] 9 9; EvWrite 7 [] 0 0;
     EvWrite 7 [232; 3] 2 2].
Proof. split; vm_compute; reflexivity. Qed.

(** ** Files that are not found *)

(** A request read in full whose lookup answers [-1] and whose opcode is
    neither LS nor NOOP is answered by the error response with code 1000
    and the path of the request; no file handler is called. *)
Lemma unknown_file_reply {World : Type} (sgn : bool) (fuel i : nat)
    (c : client_t) (s s1 : mfs_server World) (w w1 w2 w3 : World)
    (now av : Z) (req : mfs_message_t) (t1 : list event) :
  c <> 0 ->
  first_slot_of c (clients s) i ->
  2 <= data_bsize s ->
  millis s w = (now, w1) ->
  now < timer_end (nth i (clients s) empty_client) ->
  client_available s c w1 = (av, w2) ->
  9 <= av ->
  read_mfs_message sgn fuel c s w2 = Done req s1 w3 t1 ->
  is_sentinel req = false ->
  lookup_request s1 req = -1 ->
  op req <> OP_LS -> op req <> OP_NOOP ->
  exists (ok : bool) ws s' w',
    serve_client sgn fuel i s w =
      Done tt s' w' (t1 ++ ws ++ if ok then [] else [EvClose c]) /\
    sent c
      (fill_headers (repeat 0 9%nat)
         (mk_msg (psize req) 2 (RESPONSE_OF OP_ERROR) PATH_BUFFER
            DATA_BUFFER))
      (firstn (Z.to_nat (psize req)) (path_buffer s1)) [232; 3]
      (psize req) 2 ok ws /\
    client (nth i (clients s') empty_client) = (if ok then c else 0).
Proof.
  intros Hc Hslot Hd Hm Ht Ha Hav Hread Hreq Hlookup Hls Hnoop.
  destruct (millis s w3) as [now' w4] eqn:Hm'.
  rewrite (serve_client_routes sgn fuel i c s w Hc Hslot now w1 av w2 req s1
             w3 t1 now' w4 Hm Ht Ha Hav Hread Hreq Hm').
  unfold route. rewrite bind_this.
  change (lookup_request
            (set_clients s1
               (set_timer_end i (u64 (now' + timer_ms s)) (clients s))) req)
    with (lookup_request s1 req).
  apply Z.eqb_neq in Hnoop, Hls.
  rewrite Hlookup, Hls, Hnoop. cbn [Z.b2z Z.lor Z.eqb negb].
  apply reply_after.
  exact (routed_error_reply sgn fuel i c s s1 w2 w3 w4 req t1 _ Hc Hslot
           Hd Hread Hreq 1000).
Qed.

(** ** Deviations of the code *)

(** C2, at the table ["hi"; free slot] and the READ request for "no": the
    path names no file, yet the lookup, made with length
    strlen("no", 2) = 0, answers the free slot 1, and the server calls
    the reader of that slot, which is null, without writing anything. *)
Theorem read_unknown_file_calls_null_reader :
  lookup_request
    (set_path_buffer (Bench.server 16 16 [Bench.file_hi; empty_file])
       ([110; 111] ++ repeat 0 14%nat))
    (mk_msg 2 0 OP_READ PATH_BUFFER DATA_BUFFER) = 1 /\
  reader_f (nth 1 [Bench.file_hi; empty_file] empty_file) = None /\
  serve_client false 0 0 (Bench.server 16 16 [Bench.file_hi; empty_file])
    (Bench.mk_wire [2; 0; 0; 0; 0; 0; 0; 0; 1; 110; 111] 0)
  = Fault [EvRead 7 9 9; EvRead 7 2 2; EvRead 7 0 0].
Proof. repeat split; vm_compute; reflexivity. Qed.

(** Whatever the psize above the path buffer capacity, the path-consuming
    loop makes the one read of a full buffer and is left. *)
Lemma consume_path_one_chunk {World : Type} (c : client_t) (psz : Z)
    (s : mfs_server World) (w w1 : World) (b : list Z) :
  path_bsize s < psz < 2 ^ 32 ->
  client_reader s c (path_bsize s) w = (path_bsize s, b, w1) ->
  consume_path c psz s w =
  Done tt
    (set_path_buffer s
       (blit (firstn (Z.to_nat (path_bsize s)) b) (path_buffer s)))
    w1 [EvRead c (path_bsize s) (path_bsize s)].
Proof.
  intros Hpsz Hread. unfold consume_path.
  assert (H0 : 0 <= path_bsize s) by (unfold path_bsize; lia).
  replace (0 <? psz) with true by (symmetry; apply Z.ltb_lt; lia).
  rewrite bind_this.
  replace (u32 (psz - 0)) with psz
    by (unfold u32; rewrite Z.sub_0_r, Z.mod_small; lia).
  replace (path_bsize s <? psz) with true by (symmetry; apply Z.ltb_lt; lia).
  rewrite (bind_read_into_path _ _ _ _ _ _ _ _ Hread).
  rewrite Z.eqb_refl. cbv beta iota delta [negb].
  now rewrite !bind_ret.
Qed.

(** C4, at a path buffer of 4 bytes and a request with psize 10 and dsize
    0 followed by its 10 path bytes: [read_mfs_message] makes one path
    read of 4 bytes and goes on to send the error; 6 path bytes stay in
    the stream. *)
Theorem oversize_path_consumed_once :
  events
    (read_mfs_message false 0 7 (Bench.server 4 16 [Bench.file_hi])
       (Bench.mk_wire ([10; 0; 0; 0; 0; 0; 0; 0; 1] ++ repeat 1 10%nat) 0))
  = [EvRead 7 9 9; EvRead 7 4 4;
     EvWrite 7 [0; 0; 0; 0; 2; 0; 0; 0; 132] 9 9; EvWrite 7 [] 0 0;
     EvWrite 7 [1; 0] 2 2]
  /\
  Bench.unread
    (read_mfs_message false 0 7 (Bench.server 4 16 [Bench.file_hi])
       (Bench.mk_wire ([10; 0; 0; 0; 0; 0; 0; 0; 1] ++ repeat 1 10%nat) 0))
  = [1; 1; 1; 1; 1; 1].
Proof. split; vm_compute; reflexivity. Qed.

(** A free slot adds its terminator to the total size and nothing to the
    payload, neither in the streaming path nor in the fast path. *)
Lemma free_slot_counted_not_sent {World : Type}
    (fs : list (mfs_file_t World)) (c : client_t) (total_size : Z)
    (buffer : list Z) (data_processed : Z) :
  ls_total_size (empty_file :: fs) total_size
  = ls_total_size fs (u32 (u32 (total_size + 0) + 1)) /\
  ls_stream (empty_file :: fs) c = ls_stream fs c /\
  ls_fill (empty_file :: fs) buffer data_processed
  = ls_fill fs buffer data_processed.
Proof. repeat split. Qed.

(** C5, at the table ["hi"; free slot] and a data buffer of 3 bytes: the
    total size counts one terminator for the free slot too, so it is 4,
    the streaming path is taken, and the header declares dsize 4 while 3
    body bytes are written. *)
Theorem ls_stream_declares_more_than_sent :
  ls_total_size [Bench.file_hi; empty_file] 0 = 4 /\
  events
    (list_files 7 (Bench.server 16 3 [Bench.file_hi; empty_file])
       (Bench.mk_wire [] 0))
  = [EvWrite 7 [0; 0; 0; 0; 4; 0; 0; 0; 131] 9 9;
     EvWrite 7 [104; 105] 2 2; EvWrite 7 [0] 1 1].
Proof. split; vm_compute; reflexivity. Qed.

(** * Further properties *)

(** ** More on the codec and the string helpers *)

Lemma header_roundtrip_unsigned_char_witness :
  fill_headers (repeat 0 9%nat)
    (read_headers false [128; 1; 0; 0; 255; 0; 0; 0; 131] uninitialised_msg)
  = [128; 1; 0; 0; 255; 0; 0; 0; 131].
Proof.
  apply (header_roundtrip_unsigned_char [128; 1; 0; 0; 255; 0; 0; 0; 131]
           (repeat 0 9%nat) uninitialised_msg).
  - reflexivity.
  - reflexivity.
  - repeat constructor; unfold is_byte; lia.
Defined.

Lemma le32_split (p : Z) :
  0 <= p < 2 ^ 32 ->
  is_byte (Z.land p 0xFF) /\ is_byte (Z.land (Z.shiftr p 8) 0xFF) /\
  is_byte (Z.land (Z.shiftr p 16) 0xFF) /\
  is_byte (Z.land (Z.shiftr p 24) 0xFF) /\
  Z.land p 0xFF + Z.land (Z.shiftr p 8) 0xFF * 2 ^ 8
  + Z.land (Z.shiftr p 16) 0xFF * 2 ^ 16
  + Z.land (Z.shiftr p 24) 0xFF * 2 ^ 24 = p.
Proof.
  intros Hp. unfold is_byte.
  change 0xFF with (Z.ones 8).
  rewrite !Z.land_ones, !Z.shiftr_div_pow2 by lia.
  change (2 ^ 8) with 256. change (2 ^ 16) with 65536.
  change (2 ^ 24) with 16777216. change (2 ^ 32) with 4294967296 in Hp.
  repeat split; Z.div_mod_to_equations; lia.
Qed.

(** Where plain [char] is unsigned, decoding the nine bytes that
    [fill_headers] wrote gives psize, dsize and op back. *)
Theorem header_decode_encoded (buffer : list Z) (msg m : mfs_message_t) :
  length buffer = 9%nat ->
  0 <= psize msg < 2 ^ 32 ->
  0 <= dsize msg < 2 ^ 32 ->
  read_headers false (fill_headers buffer msg) m
  = mk_msg (psize msg) (dsize msg) (op msg) (path m) (data m).
Proof.
  intros Hbuf Hp Hd.
  do 10 (destruct buffer as [| ? buffer]; try discriminate Hbuf).
  destruct (le32_split _ Hp) as (Hp0 & Hp1 & Hp2 & Hp3 & Hpv).
  destruct (le32_split _ Hd) as (Hd0 & Hd1 & Hd2 & Hd3 & Hdv).
  unfold fill_headers, read_headers, char_to_uint;
    cbn [andb nth store psize dsize op path data].
  rewrite !le32_value by assumption.
  now rewrite Hpv, Hdv.
Qed.

Lemma header_decode_encoded_witness :
  read_headers false
    (fill_headers (repeat 0 9%nat) (mk_msg 300 70000 131 NULL NULL))
    uninitialised_msg
  = mk_msg 300 70000 131 NULL NULL.
Proof.
  apply (header_decode_encoded (repeat 0 9%nat)
           (mk_msg 300 70000 131 NULL NULL) uninitialised_msg).
  - reflexivity.
  - simpl. lia.
  - simpl. lia.
Defined.

(** *** strlen *)

Lemma strlen_loop_stops (buf : list Z) (todo len : nat) :
  (len <= strlen_loop buf len todo <= len + todo)%nat /\
  (forall j, (len <= j < strlen_loop buf len todo)%nat -> nth j buf 0 <> 0) /\
  ((strlen_loop buf len todo < len + todo)%nat ->
   nth (strlen_loop buf len todo) buf 0 = 0).
Proof.
  revert len. induction todo as [| todo IH]; intros len; simpl.
  - repeat split; try lia; intros; lia.
  - destruct (nth len buf 0 =? 0) eqn:E.
    + apply Z.eqb_eq in E. repeat split; try lia; intros; lia.
    + apply Z.eqb_neq in E.
      destruct (IH (S len)) as (Hb & Hnz & Hz).
      split; [lia |]. split.
      * intros j Hj. destruct (Nat.eq_dec j len) as [-> | ?];
          [exact E | apply Hnz; lia].
      * intros H. apply Hz. lia.
Qed.

(** [strlen] answers the position of the first zero byte when there is
    one before [buf_size]. *)
Theorem strlen_first_terminator (buf : list Z) (buf_size k : Z) :
  0 <= k < buf_size ->
  nth (Z.to_nat k) buf 0 = 0 ->
  (forall j, 0 <= j < k -> nth (Z.to_nat j) buf 0 <> 0) ->
  strlen buf buf_size = k.
Proof.
  intros Hk Hz Hnz. unfold strlen.
  destruct (strlen_loop_stops buf (Z.to_nat buf_size) 0) as (Hb & Hbefore & Hat).
  set (l := strlen_loop buf 0 (Z.to_nat buf_size)) in *.
  assert (Hl : l = Z.to_nat k).
  { destruct (Nat.lt_trichotomy l (Z.to_nat k)) as [Hlt | [Heq | Hgt]].
    - exfalso. apply (Hnz (Z.of_nat l)); [lia |].
      rewrite Nat2Z.id. apply Hat. lia.
    - exact Heq.
    - exfalso. apply (Hbefore (Z.to_nat k)); [lia | exact Hz]. }
  rewrite Hl, Z2Nat.id by lia.
  destruct (k =? buf_size) eqn:E; [apply Z.eqb_eq in E; lia | reflexivity].
Qed.

Lemma strlen_first_terminator_witness : strlen [104; 105; 0; 7; 0] 5 = 2.
Proof.
  apply (strlen_first_terminator [104; 105; 0; 7; 0] 5 2).
  - lia.
  - reflexivity.
  - intros j Hj. assert (Hj' : j = 0 \/ j = 1) by lia.
    destruct Hj' as [-> | ->]; discriminate.
Defined.

(** What [strlen] answers is below [buf_size] (or 0), the bytes before it
    are not zero, and when it is not 0 the byte at it is the terminator:
    the answer 0 stands for the empty string and for no string alike. *)
Theorem strlen_answer (buf : list Z) (buf_size : Z) :
  0 <= strlen buf buf_size /\
  (0 < buf_size -> strlen buf buf_size < buf_size) /\
  (forall j, 0 <= j < strlen buf buf_size -> nth (Z.to_nat j) buf 0 <> 0) /\
  (strlen buf buf_size <> 0 ->
   nth (Z.to_nat (strlen buf buf_size)) buf 0 = 0).
Proof.
  unfold strlen.
  destruct (strlen_loop_stops buf (Z.to_nat buf_size) 0) as (Hb & Hbefore & Hat).
  set (l := strlen_loop buf 0 (Z.to_nat buf_size)) in *.
  destruct (Z.of_nat l =? buf_size) eqn:E.
  - repeat split; intros; lia.
  - apply Z.eqb_neq in E. repeat split; try lia.
    + intros j Hj. apply Hbefore. lia.
    + intros Hne. rewrite Nat2Z.id. apply Hat. lia.
Qed.

(** *** memcmp, memcpy *)

Lemma memcmp_loop_01 (buf1 buf2 : list Z) (todo i : nat) :
  memcmp_loop buf1 buf2 i todo = 0 \/ memcmp_loop buf1 buf2 i todo = 1.
Proof.
  revert i. induction todo as [| todo IH]; intros i; simpl; [now left |].
  destruct (negb _); [now right | apply IH].
Qed.

(** [memcmp] only tells equal from different: it answers 0 when the sizes
    are equal and the first [buf1_size] bytes agree, and 1 in every other
    case, whatever the order of the two buffers. *)
Theorem memcmp_decides (buf1 buf2 : list Z) (buf1_size buf2_size : Z) :
  (memcmp buf1 buf2 buf1_size buf2_size = 0 /\
   buf1_size = buf2_size /\
   forall k, (k < Z.to_nat buf1_size)%nat -> nth k buf1 0 = nth k buf2 0)
  \/
  (memcmp buf1 buf2 buf1_size buf2_size = 1 /\
   ~ (buf1_size = buf2_size /\
      forall k, (k < Z.to_nat buf1_size)%nat -> nth k buf1 0 = nth k buf2 0)).
Proof.
  destruct (Z.eq_dec (memcmp buf1 buf2 buf1_size buf2_size) 0) as [H0 | H0].
  - left. split; [exact H0 |]. now apply memcmp_zero.
  - right. split.
    + unfold memcmp in *. destruct (negb (buf1_size =? buf2_size));
        [reflexivity |].
      destruct (memcmp_loop_01 buf1 buf2 (Z.to_nat buf1_size) 0); congruence.
    + intros H. apply H0. now apply memcmp_zero.
Qed.

Lemma store_nth (a : list Z) (i j : nat) (v : Z) :
  nth j (store a i v) 0
  = if (j =? i)%nat && (i <? length a)%nat then v else nth j a 0.
Proof.
  revert i j. induction a as [| x a IH]; intros [| i] [| j]; simpl;
    rewrite ?andb_false_r; try reflexivity.
  rewrite IH. reflexivity.
Qed.

Lemma memcpy_loop_nth (src dest : list Z) (offset todo i j : nat) :
  (offset + i + todo <= length dest)%nat ->
  length (memcpy_loop src dest offset i todo) = length dest /\
  nth j (memcpy_loop src dest offset i todo) 0
  = if ((offset + i <=? j) && (j <? offset + i + todo))%nat
    then nth (j - offset) src 0 else nth j dest 0.
Proof.
  revert dest i. induction todo as [| todo IH]; intros dest i Hlen; simpl.
  - split; [reflexivity |].
    destruct (offset + i <=? j)%nat eqn:E1; [| reflexivity].
    destruct (j <? offset + i + 0)%nat eqn:E2; [| reflexivity].
    apply Nat.leb_le in E1. apply Nat.ltb_lt in E2. lia.
  - destruct (IH (store dest (i + offset) (nth i src 0)) (S i)) as [IHl IHn].
    { rewrite store_length. lia. }
    rewrite IHl, IHn, store_length. split; [reflexivity |].
    rewrite store_nth.
    destruct (offset + S i <=? j)%nat eqn:E1;
      destruct (j <? offset + S i + todo)%nat eqn:E2;
      destruct (offset + i <=? j)%nat eqn:E3;
      destruct (j <? offset + i + S todo)%nat eqn:E4;
      destruct (j =? i + offset)%nat eqn:E5;
      destruct (i + offset <? length dest)%nat eqn:E6;
      cbn [andb];
      repeat match goal with
             | H : (_ <=? _)%nat = true |- _ => apply Nat.leb_le in H
             | H : (_ <=? _)%nat = false |- _ => apply Nat.leb_gt in H
             | H : (_ <? _)%nat = true |- _ => apply Nat.ltb_lt in H
             | H : (_ <? _)%nat = false |- _ => apply Nat.ltb_ge in H
             | H : (_ =? _)%nat = true |- _ => apply Nat.eqb_eq in H
             | H : (_ =? _)%nat = false |- _ => apply Nat.eqb_neq in H
             end;
      try lia; try reflexivity.
    f_equal. lia.
Qed.

(** [memcpy] into a destination with room for it puts the [n] bytes of
    [src] at [offset] and leaves every other byte and the length of the
    destination as they were. *)
Theorem memcpy_copies (n : Z) (src dest : list Z) (offset : Z) :
  0 <= n -> 0 <= offset ->
  offset + n <= Z.of_nat (length dest) ->
  length (memcpy n src dest offset) = length dest /\
  (forall k, 0 <= k < n ->
     nth (Z.to_nat (offset + k)) (memcpy n src dest offset) 0
     = nth (Z.to_nat k) src 0) /\
  (forall j, 0 <= j -> j < offset \/ offset + n <= j ->
     nth (Z.to_nat j) (memcpy n src dest offset) 0 = nth (Z.to_nat j) dest 0).
Proof.
  intros Hn Hoff Hroom. unfold memcpy.
  assert (Hlen : (Z.to_nat offset + 0 + Z.to_nat n <= length dest)%nat) by lia.
  split; [apply (memcpy_loop_nth src dest _ _ 0 0 Hlen) |]. split.
  - intros k Hk.
    rewrite (proj2 (memcpy_loop_nth src dest _ _ 0 (Z.to_nat (offset + k)) Hlen)).
    replace ((Z.to_nat offset + 0 <=? Z.to_nat (offset + k))%nat) with true
      by (symmetry; apply Nat.leb_le; lia).
    replace ((Z.to_nat (offset + k) <? Z.to_nat offset + 0 + Z.to_nat n)%nat)
      with true by (symmetry; apply Nat.ltb_lt; lia).
    cbn [andb]. f_equal. lia.
  - intros j Hj Hout.
    rewrite (proj2 (memcpy_loop_nth src dest _ _ 0 (Z.to_nat j) Hlen)).
    destruct (Z.to_nat offset + 0 <=? Z.to_nat j)%nat eqn:E1; [| reflexivity].
    destruct (Z.to_nat j <? Z.to_nat offset + 0 + Z.to_nat n)%nat eqn:E2;
      [| reflexivity].
    apply Nat.leb_le in E1. apply Nat.ltb_lt in E2. lia.
Qed.

Lemma memcpy_copies_witness :
  memcpy 2 [104; 105; 0] [1; 2; 3; 4; 5] 1 = [1; 104; 105; 4; 5] /\
  nth (Z.to_nat (1 + 1)) (memcpy 2 [104; 105; 0] [1; 2; 3; 4; 5] 1) 0 = 105.
Proof.
  split; [reflexivity |].
  apply (proj1 (proj2 (memcpy_copies 2 [104; 105; 0] [1; 2; 3; 4; 5] 1
                         ltac:(lia) ltac:(lia) ltac:(simpl; lia))) 1).
  lia.
Defined.

(** ** More on the file registry *)

Section RegistryMore.

Context {World : Type}.
Implicit Types (s : mfs_server World) (f : mfs_file_t World)
  (fs : list (mfs_file_t World)).

Lemma memcmp_name_is f (path : list Z) (psize : Z) :
  memcmp path (chars (f_path f)) psize (file_strlen f) = 0 <->
  name_is f path psize.
Proof.
  rewrite memcmp_zero. unfold name_is. split.
  - intros [Hlen Hbytes]. split; [now symmetry |].
    intros k Hk. symmetry. apply Hbytes. lia.
  - intros [Hlen Hbytes]. split; [now symmetry |].
    intros k Hk. rewrite <- (Nat2Z.id k). symmetry. apply Hbytes. lia.
Qed.

Lemma get_file_index_loop_first fs (path : list Z) (psize i0 : Z) (n : nat) :
  (n < length fs)%nat ->
  name_is (nth n fs empty_file) path psize ->
  (forall m, (m < n)%nat -> ~ name_is (nth m fs empty_file) path psize) ->
  get_file_index_loop fs path psize i0 = i0 + Z.of_nat n.
Proof.
  revert i0 n. induction fs as [| f fs IH]; intros i0 n Hn Hat Hbefore.
  - simpl in Hn. lia.
  - simpl. fold (file_strlen f).
    destruct n as [| n].
    + simpl in Hat. apply memcmp_name_is in Hat. rewrite Hat. simpl. lia.
    + destruct (memcmp path (chars (f_path f)) psize (file_strlen f) =? 0)
        eqn:E.
      * apply Z.eqb_eq, memcmp_name_is in E.
        exfalso. apply (Hbefore 0%nat); [lia | exact E].
      * simpl. rewrite (IH (i0 + 1) n).
        -- lia.
        -- simpl in Hn. lia.
        -- exact Hat.
        -- intros m Hm. apply (Hbefore (S m)). lia.
Qed.

Lemma get_file_index_loop_none fs (path : list Z) (psize i0 : Z) :
  0 <= i0 ->
  (get_file_index_loop fs path psize i0 = -1 <->
   forall m, (m < length fs)%nat -> ~ name_is (nth m fs empty_file) path psize).
Proof.
  revert i0. induction fs as [| f fs IH]; intros i0 Hi0; simpl.
  - split; [intros _ m Hm; lia | reflexivity].
  - fold (file_strlen f).
    destruct (memcmp path (chars (f_path f)) psize (file_strlen f) =? 0)
      eqn:E; simpl.
    + apply Z.eqb_eq, memcmp_name_is in E. split; [lia |].
      intros H. exfalso. apply (H 0%nat); [lia | exact E].
    + apply Z.eqb_neq in E. rewrite IH by lia. split.
      * intros H [| m] Hm; simpl.
        -- intros Hname. apply E. now apply memcmp_name_is.
        -- apply H. lia.
      * intros H m Hm. apply (H (S m)). lia.
Qed.

Lemma has_nul_false (path : list Z) (psize : Z) :
  (forall k, 0 <= k < psize -> nth (Z.to_nat k) path 0 <> 0) ->
  has_nul path 0 (Z.to_nat psize) = false.
Proof.
  intros H. destruct (has_nul path 0 (Z.to_nat psize)) eqn:E; [| reflexivity].
  apply has_nul_true in E. destruct E as (k & Hk & Hz).
  exfalso. apply (H (Z.of_nat k)); [lia | now rewrite Nat2Z.id].
Qed.

End RegistryMore.

(** The lookup of a path without zero byte answers the first slot that
    stores it. *)
Theorem get_file_index_first_match {World : Type} (s : mfs_server World)
    (path : list Z) (psize : Z) (n : nat) :
  (forall k, 0 <= k < psize -> nth (Z.to_nat k) path 0 <> 0) ->
  (n < length (files s))%nat ->
  name_is (nth n (files s) empty_file) path psize ->
  (forall m, (m < n)%nat -> ~ name_is (nth m (files s) empty_file) path psize) ->
  get_file_index s path psize = Z.of_nat n.
Proof.
  intros Hpath Hn Hat Hbefore. unfold get_file_index.
  rewrite (has_nul_false _ _ Hpath).
  now rewrite (get_file_index_loop_first _ _ _ 0 n Hn Hat Hbefore).
Qed.

Lemma get_file_index_first_match_witness :
  get_file_index (Bench.server 4 4 [empty_file; Bench.file_hi; Bench.file_hi])
    [104; 105] 2 = 1.
Proof.
  apply (get_file_index_first_match
           (Bench.server 4 4 [empty_file; Bench.file_hi; Bench.file_hi])
           [104; 105] 2 1).
  - intros k Hk. assert (Hk' : k = 0 \/ k = 1) by lia.
    destruct Hk' as [-> | ->]; discriminate.
  - simpl. lia.
  - split; [reflexivity |].
    intros k Hk. assert (Hk' : k = 0 \/ k = 1) by lia.
    destruct Hk' as [-> | ->]; reflexivity.
  - intros m Hm [Hlen _]. assert (m = 0%nat) by lia. subst m.
    vm_compute in Hlen. discriminate.
Defined.

(** The lookup answers [-1] in two cases only: a zero byte within the
    first [psize] bytes of the path, or no slot that stores the path. *)
Theorem get_file_index_not_found {World : Type} (s : mfs_server World)
    (path : list Z) (psize : Z) :
  get_file_index s path psize = -1 <->
  (exists k, 0 <= k < psize /\ nth (Z.to_nat k) path 0 = 0) \/
  (forall m, (m < length (files s))%nat ->
     ~ name_is (nth m (files s) empty_file) path psize).
Proof.
  unfold get_file_index.
  destruct (has_nul path 0 (Z.to_nat psize)) eqn:E.
  - split; [intros _ | reflexivity]. left.
    apply has_nul_true in E. destruct E as (k & Hk & Hz).
    exists (Z.of_nat k). rewrite Nat2Z.id. split; [lia | exact Hz].
  - rewrite get_file_index_loop_none by lia. split; [now right |].
    intros [(k & Hk & Hz) | H]; [| exact H].
    assert (Ht : has_nul path 0 (Z.to_nat psize) = true).
    { apply has_nul_true. exists (Z.to_nat k). split; [lia | exact Hz]. }
    congruence.
Qed.

Section Registration.

Context {World : Type}.
Implicit Types (s : mfs_server World) (f : mfs_file_t World)
  (fs : list (mfs_file_t World)).

Lemma strlen_prefix_nonzero (buf : list Z) (buf_size : Z) :
  forall k, 0 <= k < strlen buf buf_size -> nth (Z.to_nat k) buf 0 <> 0.
Proof.
  unfold strlen.
  destruct (strlen_loop_stops buf (Z.to_nat buf_size) 0) as (Hb & Hbefore & _).
  destruct (Z.of_nat _ =? buf_size); intros k Hk; [lia |].
  apply Hbefore. lia.
Qed.

Lemma find_empty_slot_at fs (i e : Z) :
  find_empty_slot fs i = Some e ->
  exists n, e = i + Z.of_nat n /\ (n < length fs)%nat /\
            slot_is_free (nth n fs empty_file) = true.
Proof.
  revert i. induction fs as [| f fs IH]; intros i H; simpl in H.
  - discriminate.
  - destruct (slot_is_free f) eqn:E.
    + inversion H; subst. exists 0%nat. simpl. repeat split; try lia. exact E.
    + destruct (IH _ H) as (n & -> & Hn & Hfree).
      exists (S n). simpl. repeat split; try lia. exact Hfree.
Qed.

Lemma put_file_length fs (n : nat) f : length (put_file fs n f) = length fs.
Proof.
  revert n. induction fs as [| g fs IH]; intros [| n]; simpl; auto.
Qed.

Lemma put_file_nth_same fs (n : nat) f :
  (n < length fs)%nat -> nth n (put_file fs n f) empty_file = f.
Proof.
  revert n. induction fs as [| g fs IH]; intros [| n] Hn; simpl in *;
    try lia; auto.
  apply IH. lia.
Qed.

Lemma put_file_nth_other fs (n j : nat) f :
  j <> n -> nth j (put_file fs n f) empty_file = nth j fs empty_file.
Proof.
  revert n j. induction fs as [| g fs IH]; intros [| n] [| j] Hj; simpl;
    try reflexivity; try lia.
  apply IH. lia.
Qed.

Lemma name_is_same_bytes f (path1 path2 : list Z) (psize : Z) :
  (forall k, 0 <= k < psize ->
     nth (Z.to_nat k) path1 0 = nth (Z.to_nat k) path2 0) ->
  name_is f path1 psize -> name_is f path2 psize.
Proof.
  intros Hsame [Hlen Hbytes]. split; [exact Hlen |].
  intros k Hk. rewrite Hbytes by exact Hk. now apply Hsame.
Qed.

(** The slots of a table in which the lookup of a path without zero byte
    finds nothing. *)
Lemma lookup_none_slots s (path : list Z) (psize : Z) :
  (forall k, 0 <= k < psize -> nth (Z.to_nat k) path 0 <> 0) ->
  get_file_index s path psize = -1 ->
  forall m, (m < length (files s))%nat ->
    ~ name_is (nth m (files s) empty_file) path psize.
Proof.
  intros Hpath H. unfold get_file_index in H.
  rewrite (has_nul_false _ _ Hpath) in H.
  exact (proj1 (get_file_index_loop_none _ _ _ 0 (Z.le_refl 0)) H).
Qed.

(** The slot a lookup answers stores the path. *)
Lemma lookup_found_slot s (path : list Z) (psize i : Z) :
  get_file_index s path psize = i -> i <> -1 ->
  0 <= i /\ (Z.to_nat i < length (files s))%nat /\
  name_is (nth (Z.to_nat i) (files s) empty_file) path psize.
Proof.
  intros Hi Hfound. unfold get_file_index in Hi.
  destruct (has_nul path 0 (Z.to_nat psize)); [congruence |].
  destruct (get_file_index_loop_found _ _ _ _ _ (Z.le_refl 0) Hi Hfound)
    as (n & Hn & -> & Hm).
  simpl. rewrite Nat2Z.id. repeat split; try lia.
  - apply memcmp_name_is in Hm. apply Hm.
  - apply memcmp_name_is in Hm. apply Hm.
Qed.

(** What a successful [register_file] leaves: the table with the new file
    in the first free slot. *)
Lemma register_file_success s newfile (n : nat) :
  get_file_index s (chars (f_path newfile)) (file_strlen newfile) = -1 ->
  find_empty_slot (files s) 0 = Some (Z.of_nat n) ->
  register_file s newfile
  = (set_files s
       (put_file (files s) n
          (mk_file (f_path newfile) (path_size newfile) (writer_f newfile)
             (reader_f newfile))), 0).
Proof.
  intros Hlookup He. unfold register_file.
  change (strlen (chars (f_path newfile)) (path_size newfile))
    with (file_strlen newfile).
  rewrite Hlookup, He, Nat2Z.id. reflexivity.
Qed.

Lemma registered_lookup s newfile (n : nat) :
  get_file_index s (chars (f_path newfile)) (file_strlen newfile) = -1 ->
  (n < length (files s))%nat ->
  get_file_index
    (set_files s
       (put_file (files s) n
          (mk_file (f_path newfile) (path_size newfile) (writer_f newfile)
             (reader_f newfile))))
    (chars (f_path newfile)) (file_strlen newfile)
  = Z.of_nat n.
Proof.
  intros Hlookup Hn.
  pose proof (lookup_none_slots s (chars (f_path newfile))
                (file_strlen newfile) (strlen_prefix_nonzero _ _) Hlookup)
    as Hnone.
  unfold get_file_index.
  rewrite (has_nul_false (chars (f_path newfile)) (file_strlen newfile)
             (strlen_prefix_nonzero _ _)).
  cbn [files set_files].
  rewrite (get_file_index_loop_first _ _ _ 0 n).
  - lia.
  - now rewrite put_file_length.
  - rewrite put_file_nth_same by exact Hn. split; reflexivity.
  - intros m Hm. rewrite put_file_nth_other by lia. apply Hnone. lia.
Qed.

End Registration.

(** Registration and lookup round trip: when the name is not in the table
    and a slot is free, [register_file] answers 0, the lookup of the name
    then answers the slot that was free, which holds the four fields of
    the new file, and every other slot is as before. *)
Theorem register_then_lookup {World : Type} (s : mfs_server World)
    (newfile : mfs_file_t World) (e : Z) :
  get_file_index s (chars (f_path newfile)) (file_strlen newfile) = -1 ->
  find_empty_slot (files s) 0 = Some e ->
  snd (register_file s newfile) = 0 /\
  get_file_index (fst (register_file s newfile))
    (chars (f_path newfile)) (file_strlen newfile) = e /\
  nth (Z.to_nat e) (files (fst (register_file s newfile))) empty_file
  = mk_file (f_path newfile) (path_size newfile) (writer_f newfile)
      (reader_f newfile) /\
  length (files (fst (register_file s newfile))) = length (files s) /\
  forall j, j <> Z.to_nat e ->
    nth j (files (fst (register_file s newfile))) empty_file
    = nth j (files s) empty_file.
Proof.
  intros Hlookup He.
  destruct (find_empty_slot_at _ _ _ He) as (n & -> & Hn & _).
  simpl in He |- *. rewrite Nat2Z.id.
  rewrite (register_file_success s newfile n Hlookup He).
  cbn [fst snd files set_files].
  split; [reflexivity |].
  split; [now apply registered_lookup |].
  split; [now apply put_file_nth_same |].
  split; [apply put_file_length |].
  intros j Hj. now apply put_file_nth_other.
Qed.

Lemma register_then_lookup_witness :
  get_file_index
    (fst (register_file (Bench.server 4 4 [Bench.file_unnamed; empty_file])
            Bench.file_hi))
    [104; 105; 0] 2 = 1.
Proof.
  apply (register_then_lookup
           (Bench.server 4 4 [Bench.file_unnamed; empty_file])
           Bench.file_hi 1).
  - reflexivity.
  - reflexivity.
Defined.

(** A name that was registered is refused a second time: the second
    [register_file], for any file that stores the same name, answers 1
    and changes nothing. *)
Theorem register_twice_refused {World : Type} (s : mfs_server World)
    (newfile again : mfs_file_t World) (e : Z) :
  get_file_index s (chars (f_path newfile)) (file_strlen newfile) = -1 ->
  find_empty_slot (files s) 0 = Some e ->
  name_is newfile (chars (f_path again)) (file_strlen again) ->
  register_file (fst (register_file s newfile)) again
  = (fst (register_file s newfile), 1).
Proof.
  intros Hlookup He Hsame.
  destruct (find_empty_slot_at _ _ _ He) as (n & -> & Hn & _).
  simpl in He. rewrite (register_file_success s newfile n Hlookup He).
  cbn [fst].
  set (s' := set_files s _).
  assert (Hfound : get_file_index s' (chars (f_path again))
                     (file_strlen again) = Z.of_nat n).
  { unfold get_file_index.
    rewrite (has_nul_false (chars (f_path again)) (file_strlen again)
               (strlen_prefix_nonzero _ _)).
    unfold s'. cbn [files set_files].
    rewrite (get_file_index_loop_first _ _ _ 0 n).
    - lia.
    - now rewrite put_file_length.
    - rewrite put_file_nth_same by exact Hn. exact Hsame.
    - intros m Hm. rewrite put_file_nth_other by lia.
      intros Hname.
      apply (lookup_none_slots s (chars (f_path newfile))
               (file_strlen newfile) (strlen_prefix_nonzero _ _) Hlookup m);
        [lia |].
      destruct Hsame as [Hlen Hbytes], Hname as [Hlen' Hbytes'].
      split; [congruence |].
      intros k Hk. rewrite Hbytes' by lia. symmetry. apply Hbytes. lia. }
  unfold register_file.
  change (strlen (chars (f_path again)) (path_size again))
    with (file_strlen again).
  rewrite Hfound.
  replace (Z.of_nat n =? -1) with false by (symmetry; apply Z.eqb_neq; lia).
  reflexivity.
Qed.

Lemma register_twice_refused_witness :
  register_file
    (fst (register_file (Bench.server 4 4 [empty_file; empty_file])
            Bench.file_hi))
    (mk_file (Some [104; 105; 0; 0]) 4 None None)
  = (fst (register_file (Bench.server 4 4 [empty_file; empty_file])
            Bench.file_hi), 1).
Proof.
  apply (register_twice_refused (Bench.server 4 4 [empty_file; empty_file])
           Bench.file_hi (mk_file (Some [104; 105; 0; 0]) 4 None None) 0).
  - reflexivity.
  - reflexivity.
  - split; [reflexivity |].
    intros k Hk.
    change (file_strlen (mk_file (Some [104; 105; 0; 0]) 4 None None))
      with 2 in Hk.
    assert (Hk' : k = 0 \/ k = 1) by lia.
    destruct Hk' as [-> | ->]; reflexivity.
Defined.

(** [register_file] keeps the names of the table distinct. *)
Theorem register_file_names_distinct {World : Type} (s : mfs_server World)
    (newfile : mfs_file_t World) :
  names_distinct (files s) ->
  names_distinct (files (fst (register_file s newfile))).
Proof.
  intros Hdistinct.
  destruct (get_file_index s (chars (f_path newfile)) (file_strlen newfile)
            =? -1) eqn:Elookup.
  2: { unfold register_file.
       change (strlen (chars (f_path newfile)) (path_size newfile))
         with (file_strlen newfile).
       now rewrite Elookup. }
  apply Z.eqb_eq in Elookup.
  destruct (find_empty_slot (files s) 0) as [e |] eqn:Eslot.
  2: { unfold register_file.
       change (strlen (chars (f_path newfile)) (path_size newfile))
         with (file_strlen newfile).
       now rewrite Elookup, Eslot. }
  destruct (find_empty_slot_at _ _ _ Eslot) as (n & -> & Hn & _).
  simpl in Eslot. rewrite (register_file_success s newfile n Elookup Eslot).
  cbn [fst files set_files].
  pose proof (lookup_none_slots s (chars (f_path newfile))
                (file_strlen newfile) (strlen_prefix_nonzero _ _) Elookup)
    as Hnone.
  intros i j Hi Hj Hij Hlen. rewrite put_file_length in Hi, Hj.
  destruct (Nat.eq_dec i n) as [-> | Hin].
  - rewrite put_file_nth_same in * by exact Hn.
    rewrite put_file_nth_other by lia.
    apply Hnone. exact Hj.
  - rewrite (put_file_nth_other _ n i) in * by exact Hin.
    destruct (Nat.eq_dec j n) as [-> | Hjn].
    + rewrite put_file_nth_same by exact Hn.
      intros [Hlen' Hbytes]. apply (Hnone i Hi).
      change (file_strlen
                (mk_file (f_path newfile) (path_size newfile)
                   (writer_f newfile) (reader_f newfile)))
        with (file_strlen newfile) in Hlen'.
      cbn [f_path] in Hbytes.
      split; [congruence |].
      intros k Hk. symmetry. apply Hbytes. lia.
    + rewrite put_file_nth_other by exact Hjn.
      now apply Hdistinct.
Qed.

(** Unregistration and lookup: in a table of distinct names, unregistering
    a name of nonzero length that the lookup finds answers 0, clears the
    slot the lookup found and no other, and the lookup of the name then
    answers [-1]. *)
Theorem unregister_then_lookup {World : Type} (s : mfs_server World)
    (path : list Z) (path_size i : Z) :
  names_distinct (files s) ->
  files_bsize s < 2 ^ 32 ->
  strlen path path_size <> 0 ->
  get_file_index s path (strlen path path_size) = i ->
  i <> -1 ->
  snd (unregister_file s path path_size) = 0 /\
  get_file_index (fst (unregister_file s path path_size)) path
    (strlen path path_size) = -1 /\
  nth (Z.to_nat i) (files (fst (unregister_file s path path_size))) empty_file
  = empty_file /\
  forall j, j <> Z.to_nat i ->
    nth j (files (fst (unregister_file s path path_size))) empty_file
    = nth j (files s) empty_file.
Proof.
  intros Hdistinct Hsize Hlen Hi Hfound.
  destruct (lookup_found_slot s _ _ _ Hi Hfound) as (Hi0 & Hin & Hname).
  unfold files_bsize in Hsize.
  unfold unregister_file. rewrite Hi.
  assert (Hu : u32 i = i) by (unfold u32; apply Z.mod_small; lia).
  rewrite Hu.
  replace (i =? u32 (-1)) with false
    by (symmetry; apply Z.eqb_neq; change (u32 (-1)) with 4294967295; lia).
  cbn [fst snd files set_files].
  split; [reflexivity |].
  split; [| split; [now apply put_file_nth_same
                   | intros j Hj; now apply put_file_nth_other]].
  unfold get_file_index.
  rewrite (has_nul_false path (strlen path path_size)
             (strlen_prefix_nonzero _ _)).
  cbn [files set_files].
  apply (get_file_index_loop_none _ _ _ 0 (Z.le_refl 0)).
  intros m Hm. rewrite put_file_length in Hm.
  destruct (Nat.eq_dec m (Z.to_nat i)) as [-> | Hmi].
  - rewrite put_file_nth_same by exact Hin. intros [Hl _].
    apply Hlen. rewrite <- Hl. reflexivity.
  - rewrite put_file_nth_other by exact Hmi. intros Hname'.
    destruct Hname as [Hl Hbytes].
    apply (Hdistinct (Z.to_nat i) m Hin Hm ltac:(lia)); [congruence |].
    rewrite Hl. eapply name_is_same_bytes; [| exact Hname'].
    intros k Hk. symmetry. now apply Hbytes.
Qed.

Lemma unregister_then_lookup_witness :
  get_file_index
    (fst (unregister_file (Bench.server 4 4 [empty_file; Bench.file_hi])
            [104; 105; 0] 3))
    [104; 105; 0] 2 = -1.
Proof.
  apply (unregister_then_lookup
           (Bench.server 4 4 [empty_file; Bench.file_hi]) [104; 105; 0] 3 1).
  - intros i j Hi Hj Hij Hlen.
    assert (Hi' : i = 0%nat \/ i = 1%nat) by (simpl in Hi; lia).
    assert (Hj' : j = 0%nat \/ j = 1%nat) by (simpl in Hj; lia).
    destruct Hi' as [-> | ->], Hj' as [-> | ->]; try lia.
    + exfalso. apply Hlen. reflexivity.
    + intros [Hl _]. vm_compute in Hl. discriminate.
  - vm_compute. reflexivity.
  - vm_compute. discriminate.
  - reflexivity.
  - discriminate.
Defined.

Lemma register_file_names_distinct_witness :
  names_distinct
    (files (fst (register_file (Bench.server 4 4 [empty_file; Bench.file_hi])
                   (mk_file (Some [110; 111; 0]) 3 None None)))).
Proof.
  apply (register_file_names_distinct
           (Bench.server 4 4 [empty_file; Bench.file_hi])
           (mk_file (Some [110; 111; 0]) 3 None None)).
  intros i j Hi Hj Hij Hlen.
  assert (Hi' : i = 0%nat \/ i = 1%nat) by (simpl in Hi; lia).
  assert (Hj' : j = 0%nat \/ j = 1%nat) by (simpl in Hj; lia).
  destruct Hi' as [-> | ->], Hj' as [-> | ->]; try lia.
  - exfalso. apply Hlen. reflexivity.
  - intros [Hl _]. vm_compute in Hl. discriminate.
Defined.

(** ** More on the client table *)

Section ClientTable.

Context {World : Type}.
Implicit Types (s : mfs_server World) (w : World).

Lemma drop_slot_absent (c : client_t) (cs : list client_handlers_t) :
  (forall j, (j < length cs)%nat -> client (nth j cs empty_client) <> c) ->
  drop_slot c cs = None.
Proof.
  induction cs as [| h cs IH]; intros H; simpl; [reflexivity |].
  destruct (c =? client h) eqn:E.
  - apply Z.eqb_eq in E. exfalso. apply (H 0%nat); simpl; [lia | congruence].
  - rewrite IH; [reflexivity |].
    intros j Hj. apply (H (S j)). simpl. lia.
Qed.

End ClientTable.

(** [drop_client] of a client that no slot holds: the answer is 1, the
    close callback is not called and nothing changes. *)
Theorem drop_client_absent {World : Type} (c : client_t)
    (s : mfs_server World) (w : World) :
  c <> 0 ->
  (forall j, (j < length (clients s))%nat ->
     client (nth j (clients s) empty_client) <> c) ->
  drop_client c s w = Done 1 s w [].
Proof.
  intros Hc Habsent. unfold drop_client.
  apply Z.eqb_neq in Hc. rewrite Hc.
  rewrite bind_this, (drop_slot_absent _ _ Habsent). reflexivity.
Qed.

Lemma drop_client_absent_witness :
  drop_client 8 (Bench.server 4 4 []) (Bench.mk_wire [] 0)
  = Done 1 (Bench.server 4 4 []) (Bench.mk_wire [] 0) [].
Proof.
  apply (drop_client_absent 8 (Bench.server 4 4 []) (Bench.mk_wire [] 0)).
  - discriminate.
  - intros j Hj. assert (j = 0%nat) by (simpl in Hj; lia). subst j.
    discriminate.
Defined.

Section Accept.

Context {World : Type}.
Implicit Types (s : mfs_server World) (w : World).
Implicit Types (cs : list client_handlers_t).

Lemma set_clients_same s : set_clients s (clients s) = s.
Proof. now destruct s. Qed.

Lemma fill_free_slots_spec (accept : World -> client_t * World) cs :
  forall w,
    length (fst (fill_free_slots accept cs w)) = length cs /\
    map timer_end (fst (fill_free_slots accept cs w)) = map timer_end cs /\
    forall j, client (nth j cs empty_client) <> 0 ->
      nth j (fst (fill_free_slots accept cs w)) empty_client
      = nth j cs empty_client.
Proof.
  induction cs as [| h cs IH]; intros w; cbn [fill_free_slots].
  - repeat split.
  - destruct (client h =? 0) eqn:E.
    + destruct (accept w) as [c' w1].
      destruct (IH w1) as (Hl & Ht & Hsame).
      destruct (fill_free_slots accept cs w1) as [rest w2].
      cbn [fst length map timer_end] in *.
      split; [now rewrite Hl |]. split; [now rewrite Ht |].
      intros [| j] Hj; [| now apply Hsame].
      apply Z.eqb_eq in E. contradiction.
    + destruct (IH w) as (Hl & Ht & Hsame).
      destruct (fill_free_slots accept cs w) as [rest w2].
      cbn [fst length map] in *.
      split; [now rewrite Hl |]. split; [now rewrite Ht |].
      intros [| j] Hj; [reflexivity | now apply Hsame].
Qed.

(** The loop of [accept_clients] over the slots [rest] that follow the
    slots [pre] it has been through. *)
Lemma accept_clients_loop_run rest : forall pre s w,
  clients s = pre ++ rest ->
  accept_clients_loop (length pre) (length rest) s w =
  Done tt
    (set_clients s (pre ++ fst (fill_free_slots (accept_client s) rest w)))
    (snd (fill_free_slots (accept_client s) rest w)) [].
Proof.
  induction rest as [| h rest IH]; intros pre s w Hcs.
  - cbn [length accept_clients_loop fill_free_slots fst snd].
    rewrite <- Hcs, set_clients_same. reflexivity.
  - cbn [length accept_clients_loop fill_free_slots].
    assert (Hnth : nth_error (clients s) (length pre) = Some h).
    { rewrite Hcs, nth_error_app2 by lia. now rewrite Nat.sub_diag. }
    rewrite bind_client_at, (nth_error_nth _ _ _ Hnth).
    destruct (client h =? 0) eqn:E.
    + destruct (accept_client s w) as [c' w1] eqn:Hacc.
      rewrite bind_run. rewrite bind_run. unfold call_accept at 1.
      rewrite Hacc. cbn [prefix app]. unfold update at 1. cbn [prefix app].
      rewrite Hnth.
      assert (Hcs1 :
        firstn (length pre) (clients s) ++ mk_client c' (timer_end h)
          :: skipn (S (length pre)) (clients s)
        = (pre ++ [mk_client c' (timer_end h)]) ++ rest).
      { rewrite Hcs, firstn_app, firstn_all, Nat.sub_diag.
        cbn [firstn]. rewrite app_nil_r.
        rewrite skipn_app, skipn_all2 by lia.
        replace (S (length pre) - length pre)%nat with 1%nat by lia.
        cbn [skipn app]. now rewrite <- app_assoc. }
      rewrite Hcs1.
      pose proof (IH (pre ++ [mk_client c' (timer_end h)])
                    (set_clients s
                       ((pre ++ [mk_client c' (timer_end h)]) ++ rest))
                    w1 eq_refl) as Hrun.
      rewrite length_app in Hrun. cbn [length] in Hrun.
      replace (length pre + 1)%nat with (S (length pre)) in Hrun by lia.
      rewrite Hrun. cbn [accept_client set_clients prefix app].
      destruct (fill_free_slots (accept_client s) rest w1) as [r w2].
      cbn [fst snd]. rewrite <- !app_assoc. reflexivity.
    + rewrite bind_ret.
      pose proof (IH (pre ++ [h]) s w) as Hrun.
      rewrite length_app in Hrun. cbn [length] in Hrun.
      replace (length pre + 1)%nat with (S (length pre)) in Hrun by lia.
      rewrite Hrun by (now rewrite Hcs, <- app_assoc).
      destruct (fill_free_slots (accept_client s) rest w) as [r w2].
      cbn [fst snd]. rewrite <- !app_assoc. reflexivity.
Qed.

End Accept.

(** [accept_clients] emits nothing and goes through the slots from the
    first to the last: each free slot receives what one call of the accept
    callback returns, the calls being made in slot order, each in the
    world the call before it left.  The table keeps its length and every
    deadline, and a slot that holds a client keeps it. *)
Theorem accept_clients_fills_free_slots {World : Type}
    (s : mfs_server World) (w : World) :
  accept_clients s w =
  Done tt
    (set_clients s
       (fst (fill_free_slots (accept_client s) (clients s) w)))
    (snd (fill_free_slots (accept_client s) (clients s) w)) [] /\
  length (fst (fill_free_slots (accept_client s) (clients s) w))
  = length (clients s) /\
  map timer_end (fst (fill_free_slots (accept_client s) (clients s) w))
  = map timer_end (clients s) /\
  forall j, client (nth j (clients s) empty_client) <> 0 ->
    nth j (fst (fill_free_slots (accept_client s) (clients s) w))
      empty_client
    = nth j (clients s) empty_client.
Proof.
  split; [| apply fill_free_slots_spec].
  unfold accept_clients. rewrite bind_this.
  exact (accept_clients_loop_run (clients s) [] s w eq_refl).
Qed.

Lemma accept_clients_fills_free_slots_witness :
  accept_clients
    (Arrivals.server
       [mk_client 0 10; mk_client 5 20; mk_client 0 30; mk_client 0 40])
    (Bench.mk_wire [1; 7; 2; 9] 0)
  = Done tt
      (Arrivals.server
         [mk_client 1 10; mk_client 5 20; mk_client 7 30; mk_client 2 40])
      (Bench.mk_wire [9] 0) [].
Proof.
  exact (proj1 (accept_clients_fills_free_slots
                  (Arrivals.server
                     [mk_client 0 10; mk_client 5 20; mk_client 0 30;
                      mk_client 0 40])
                  (Bench.mk_wire [1; 7; 2; 9] 0))).
Defined.

(** ** Requests that fit *)

Lemma blit_firstn (n : nat) (src dst : list Z) :
  (n <= length src)%nat -> (n <= length dst)%nat ->
  firstn n (blit (firstn n src) dst) = firstn n src.
Proof.
  intros Hs Hd. unfold blit.
  rewrite firstn_firstn, length_firstn.
  replace (Nat.min n (length dst)) with n by lia.
  replace (Nat.min n (length src)) with n by lia.
  rewrite firstn_app, length_firstn.
  replace (n - Nat.min n (length src))%nat with 0%nat by lia.
  rewrite firstn_firstn. replace (Nat.min n n) with n by lia.
  cbn [firstn]. apply app_nil_r.
Qed.

(** A request whose sizes are within the hard limit and the buffers, and
    whose three reads are delivered in full, is returned with its decoded
    header fields and with pointers to the two buffers; nothing is written
    and the client table is not touched.  The buffers then start with the
    delivered path and payload bytes. *)
Theorem read_mfs_message_delivers {World : Type} (sgn : bool) (fuel : nat)
    (c : client_t) (s : mfs_server World) (w wa wb wc : World)
    (hb pb db : list Z) :
  client_reader s c 9 w = (9, hb, wa) ->
  psize (header_of sgn hb) <= hard_limit s ->
  dsize (header_of sgn hb) <= hard_limit s ->
  psize (header_of sgn hb) <= path_bsize s ->
  dsize (header_of sgn hb) <= data_bsize s ->
  client_reader s c (psize (header_of sgn hb)) wa
    = (psize (header_of sgn hb), pb, wb) ->
  client_reader s c (dsize (header_of sgn hb)) wb
    = (dsize (header_of sgn hb), db, wc) ->
  exists s1,
    read_mfs_message sgn fuel c s w =
      Done (mk_msg (psize (header_of sgn hb)) (dsize (header_of sgn hb))
              (op (header_of sgn hb)) PATH_BUFFER DATA_BUFFER) s1 wc
        [EvRead c 9 9;
         EvRead c (psize (header_of sgn hb)) (psize (header_of sgn hb));
         EvRead c (dsize (header_of sgn hb)) (dsize (header_of sgn hb))] /\
    clients s1 = clients s /\ files s1 = files s /\
    length (path_buffer s1) = length (path_buffer s) /\
    length (data_buffer s1) = length (data_buffer s) /\
    ((Z.to_nat (psize (header_of sgn hb)) <= length pb)%nat ->
     firstn (Z.to_nat (psize (header_of sgn hb))) (path_buffer s1)
     = firstn (Z.to_nat (psize (header_of sgn hb))) pb) /\
    ((Z.to_nat (dsize (header_of sgn hb)) <= length db)%nat ->
     firstn (Z.to_nat (dsize (header_of sgn hb))) (data_buffer s1)
     = firstn (Z.to_nat (dsize (header_of sgn hb))) db).
Proof.
  intros E9 L1 L2 L3 L4 Ep Ed.
  eexists. split.
  - unfold read_mfs_message.
    rewrite (bind_reader _ _ _ _ _ _ _ _ E9).
    cbn [fst snd]. fold (header_of sgn hb).
    rewrite Z.eqb_refl. cbv beta iota delta [negb].
    rewrite bind_this.
    pose proof L1 as L1'. pose proof L2 as L2'.
    pose proof L3 as L3'. pose proof L4 as L4'.
    apply Z.ltb_ge in L1', L2', L3', L4'. rewrite L1', L2', L3', L4'.
    cbn [orb].
    rewrite (bind_read_into_path _ _ _ _ _ _ _ _ Ep).
    rewrite Z.eqb_refl. cbv beta iota delta [negb].
    match goal with
    | |- context [bind (read_into_data _ _) _ ?s0 _] =>
        rewrite (bind_read_into_data _ c _ s0 wb _ db wc Ed)
    end.
    rewrite Z.eqb_refl. cbv beta iota delta [negb].
    cbn [ret prefix app]. reflexivity.
  - cbn [clients files path_buffer data_buffer set_data_buffer
         set_path_buffer].
    rewrite !blit_length.
    repeat split.
    + intros H. apply blit_firstn; [exact H |].
      unfold path_bsize in L3. lia.
    + intros H. apply blit_firstn; [exact H |].
      unfold data_bsize in L4. lia.
Qed.

Lemma read_mfs_message_delivers_witness :
  exists s1,
    read_mfs_message false 0 7 (Bench.server 4 4 [])
      (Bench.mk_wire [2; 0; 0; 0; 1; 0; 0; 0; 2; 104; 105; 33] 0) =
      Done (mk_msg 2 1 2 PATH_BUFFER DATA_BUFFER) s1 (Bench.mk_wire [] 0)
        [EvRead 7 9 9; EvRead 7 2 2; EvRead 7 1 1] /\
    clients s1 = [mk_client 7 1000] /\ files s1 = [] /\
    length (path_buffer s1) = 4%nat /\
    length (data_buffer s1) = 4%nat /\
    ((2 <= 2)%nat -> firstn 2 (path_buffer s1) = [104; 105]) /\
    ((1 <= 1)%nat -> firstn 1 (data_buffer s1) = [33]).
Proof.
  exact (read_mfs_message_delivers false 0 7 (Bench.server 4 4 [])
           (Bench.mk_wire [2; 0; 0; 0; 1; 0; 0; 0; 2; 104; 105; 33] 0)
           (Bench.mk_wire [104; 105; 33] 0) (Bench.mk_wire [33] 0)
           (Bench.mk_wire [] 0)
           [2; 0; 0; 0; 1; 0; 0; 0; 2] [104; 105] [33]
           eq_refl
           ltac:(vm_compute; discriminate) ltac:(vm_compute; discriminate)
           ltac:(vm_compute; discriminate) ltac:(vm_compute; discriminate)
           eq_refl eq_refl).
Defined.

(** ** Reads that fall short *)

(** A header read that does not deliver 9 bytes: the error response with
    code 3 is sent and the client is dropped; no other read is made. *)
Theorem short_header_read_dropped {World : Type} (sgn : bool)
    (fuel i : nat) (c : client_t) (s : mfs_server World)
    (w w1 w2 w3 : World) (now av r : Z) (hb : list Z) :
  c <> 0 ->
  first_slot_of c (clients s) i ->
  2 <= data_bsize s ->
  millis s w = (now, w1) ->
  now < timer_end (nth i (clients s) empty_client) ->
  client_available s c w1 = (av, w2) ->
  9 <= av ->
  client_reader s c 9 w2 = (r, hb, w3) ->
  r <> 9 ->
  exists (ok : bool) ws s' w',
    serve_client sgn fuel i s w =
      Done tt s' w' (EvRead c 9 r :: ws ++ [EvClose c]) /\
    sent c [0; 0; 0; 0; 2; 0; 0; 0; 132] [] [3; 0] 0 2 ok ws /\
    clients s' = clear_slot i (clients s).
Proof.
  intros Hc Hslot Hd Hm Ht Ha Hav E9 Hr.
  rewrite (serve_client_polls sgn fuel i c s w Hc Hslot now w1 av w2 Hm Ht Ha).
  apply Z.leb_le in Hav. rewrite Hav.
  destruct (error_then_dropped i c Hc 3 s w3 Hslot Hd)
    as (ok & ws & s' & w' & Hsent & Hrun & Hclients).
  exists ok, ws, s', w'. split; [| split; [exact Hsent | exact Hclients]].
  rewrite (bind_prefix_run _
             (send_mfs_error empty_error_msg c 3 ;;; ret empty_error_msg)
             _ s w2 [EvRead c 9 r] s w3).
  - rewrite Hrun. reflexivity.
  - unfold read_mfs_message.
    rewrite (bind_reader _ _ _ _ _ _ _ _ E9). cbn [fst snd].
    apply Z.eqb_neq in Hr. rewrite Hr. reflexivity.
Qed.

(** A path read that falls short, after a header within the limits and
    the buffers: the error response with code 1 is sent and the client is
    dropped; the data is not read. *)
Theorem short_path_read_dropped {World : Type} (sgn : bool)
    (fuel i : nat) (c : client_t) (s : mfs_server World)
    (w w1 w2 w3 w4 : World) (now av r : Z) (hb pb : list Z) :
  c <> 0 ->
  first_slot_of c (clients s) i ->
  2 <= data_bsize s ->
  millis s w = (now, w1) ->
  now < timer_end (nth i (clients s) empty_client) ->
  client_available s c w1 = (av, w2) ->
  9 <= av ->
  client_reader s c 9 w2 = (9, hb, w3) ->
  psize (header_of sgn hb) <= hard_limit s ->
  dsize (header_of sgn hb) <= hard_limit s ->
  psize (header_of sgn hb) <= path_bsize s ->
  dsize (header_of sgn hb) <= data_bsize s ->
  client_reader s c (psize (header_of sgn hb)) w3 = (r, pb, w4) ->
  r <> psize (header_of sgn hb) ->
  exists (ok : bool) ws s' w',
    serve_client sgn fuel i s w =
      Done tt s' w'
        (EvRead c 9 9 :: EvRead c (psize (header_of sgn hb)) r
           :: ws ++ [EvClose c]) /\
    sent c [0; 0; 0; 0; 2; 0; 0; 0; 132] [] [1; 0] 0 2 ok ws /\
    clients s' = clear_slot i (clients s).
Proof.
  intros Hc Hslot Hd Hm Ht Ha Hav E9 L1 L2 L3 L4 Ep Hr.
  rewrite (serve_client_polls sgn fuel i c s w Hc Hslot now w1 av w2 Hm Ht Ha).
  apply Z.leb_le in Hav. rewrite Hav.
  set (s1 := set_path_buffer s
               (blit (firstn (Z.to_nat (psize (header_of sgn hb))) pb)
                  (path_buffer s))).
  destruct (error_then_dropped i c Hc 1 s1 w4 Hslot Hd)
    as (ok & ws & s' & w' & Hsent & Hrun & Hclients).
  exists ok, ws, s', w'. split; [| split; [exact Hsent | exact Hclients]].
  rewrite (bind_prefix_run _
             (send_mfs_error empty_error_msg c 1 ;;; ret empty_error_msg)
             _ s w2
             [EvRead c 9 9; EvRead c (psize (header_of sgn hb)) r] s1 w4).
  - rewrite Hrun. reflexivity.
  - unfold read_mfs_message.
    rewrite (bind_reader _ _ _ _ _ _ _ _ E9).
    cbn [fst snd]. fold (header_of sgn hb).
    rewrite Z.eqb_refl. cbv beta iota delta [negb].
    rewrite bind_this.
    apply Z.ltb_ge in L1, L2, L3, L4. rewrite L1, L2, L3, L4.
    cbn [orb].
    rewrite (bind_read_into_path _ _ _ _ _ _ _ _ Ep).
    apply Z.eqb_neq in Hr. rewrite Hr. cbv beta iota delta [negb].
    fold s1. now rewrite prefix_prefix.
Qed.

(** A data read that falls short, after the header and the path were read
    in full: the error response with code 1 is sent and the client is
    dropped. *)
Theorem short_data_read_dropped {World : Type} (sgn : bool)
    (fuel i : nat) (c : client_t) (s : mfs_server World)
    (w w1 w2 w3 w4 w5 : World) (now av r : Z) (hb pb db : list Z) :
  c <> 0 ->
  first_slot_of c (clients s) i ->
  2 <= data_bsize s ->
  millis s w = (now, w1) ->
  now < timer_end (nth i (clients s) empty_client) ->
  client_available s c w1 = (av, w2) ->
  9 <= av ->
  client_reader s c 9 w2 = (9, hb, w3) ->
  psize (header_of sgn hb) <= hard_limit s ->
  dsize (header_of sgn hb) <= hard_limit s ->
  psize (header_of sgn hb) <= path_bsize s ->
  dsize (header_of sgn hb) <= data_bsize s ->
  client_reader s c (psize (header_of sgn hb)) w3
    = (psize (header_of sgn hb), pb, w4) ->
  client_reader s c (dsize (header_of sgn hb)) w4 = (r, db, w5) ->
  r <> dsize (header_of sgn hb) ->
  exists (ok : bool) ws s' w',
    serve_client sgn fuel i s w =
      Done tt s' w'
        (EvRead c 9 9
           :: EvRead c (psize (header_of sgn hb)) (psize (header_of sgn hb))
           :: EvRead c (dsize (header_of sgn hb)) r
           :: ws ++ [EvClose c]) /\
    sent c [0; 0; 0; 0; 2; 0; 0; 0; 132] [] [1; 0] 0 2 ok ws /\
    clients s' = clear_slot i (clients s).
Proof.
  intros Hc Hslot Hd Hm Ht Ha Hav E9 L1 L2 L3 L4 Ep Ed Hr.
  rewrite (serve_client_polls sgn fuel i c s w Hc Hslot now w1 av w2 Hm Ht Ha).
  apply Z.leb_le in Hav. rewrite Hav.
  set (s1 := set_data_buffer
               (set_path_buffer s
                  (blit (firstn (Z.to_nat (psize (header_of sgn hb))) pb)
                     (path_buffer s)))
               (blit (firstn (Z.to_nat (dsize (header_of sgn hb))) db)
                  (data_buffer s))).
  assert (Hd1 : 2 <= data_bsize s1).
  { unfold data_bsize, s1. cbn [data_buffer set_data_buffer].
    rewrite blit_length. exact Hd. }
  destruct (error_then_dropped i c Hc 1 s1 w5 Hslot Hd1)
    as (ok & ws & s' & w' & Hsent & Hrun & Hclients).
  exists ok, ws, s', w'. split; [| split; [exact Hsent | exact Hclients]].
  rewrite (bind_prefix_run _
             (send_mfs_error empty_error_msg c 1 ;;; ret empty_error_msg)
             _ s w2
             [EvRead c 9 9;
              EvRead c (psize (header_of sgn hb)) (psize (header_of sgn hb));
              EvRead c (dsize (header_of sgn hb)) r] s1 w5).
  - rewrite Hrun. reflexivity.
  - unfold read_mfs_message.
    rewrite (bind_reader _ _ _ _ _ _ _ _ E9).
    cbn [fst snd]. fold (header_of sgn hb).
    rewrite Z.eqb_refl. cbv beta iota delta [negb].
    rewrite bind_this.
    apply Z.ltb_ge in L1, L2, L3, L4. rewrite L1, L2, L3, L4.
    cbn [orb].
    rewrite (bind_read_into_path _ _ _ _ _ _ _ _ Ep).
    rewrite Z.eqb_refl. cbv beta iota delta [negb].
    match goal with
    | |- context [bind (read_into_data _ _) _ ?s0 _] =>
        rewrite (bind_read_into_data _ c _ s0 w4 _ db w5 Ed)
    end.
    apply Z.eqb_neq in Hr. rewrite Hr. cbv beta iota delta [negb].
    cbn [path_buffer data_buffer set_path_buffer]. fold s1.
    now rewrite !prefix_prefix.
Qed.

Lemma short_header_read_dropped_witness :
  exists (ok : bool) ws s' w',
    serve_client false 0 0 (Stalled.server 4 4 []) (Bench.mk_wire [] 0) =
      Done tt s' w' (EvRead 7 9 (-1) :: ws ++ [EvClose 7]) /\
    sent 7 [0; 0; 0; 0; 2; 0; 0; 0; 132] [] [3; 0] 0 2 ok ws /\
    clients s' = clear_slot 0 [mk_client 7 1000].
Proof.
  apply (short_header_read_dropped false 0 0 7 (Stalled.server 4 4 [])
           (Bench.mk_wire [] 0) (Bench.mk_wire [] 0) (Bench.mk_wire [] 0)
           (Bench.mk_wire [] 0) 0 9 (-1) []).
  - discriminate.
  - repeat split; simpl; try lia.
  - vm_compute. discriminate.
  - reflexivity.
  - simpl. lia.
  - reflexivity.
  - lia.
  - reflexivity.
  - discriminate.
Defined.

Lemma short_path_read_dropped_witness :
  exists (ok : bool) ws s' w',
    serve_client false 0 0 (Stalled.server 4 4 [])
      (Bench.mk_wire [2; 0; 0; 0; 0; 0; 0; 0; 1] 0) =
      Done tt s' w' (EvRead 7 9 9 :: EvRead 7 2 (-1) :: ws ++ [EvClose 7]) /\
    sent 7 [0; 0; 0; 0; 2; 0; 0; 0; 132] [] [1; 0] 0 2 ok ws /\
    clients s' = clear_slot 0 [mk_client 7 1000].
Proof.
  apply (short_path_read_dropped false 0 0 7 (Stalled.server 4 4 [])
           (Bench.mk_wire [2; 0; 0; 0; 0; 0; 0; 0; 1] 0)
           (Bench.mk_wire [2; 0; 0; 0; 0; 0; 0; 0; 1] 0)
           (Bench.mk_wire [2; 0; 0; 0; 0; 0; 0; 0; 1] 0)
           (Bench.mk_wire [] 0) (Bench.mk_wire [] 0) 0 18 (-1)
           [2; 0; 0; 0; 0; 0; 0; 0; 1] []).
  - discriminate.
  - repeat split; simpl; try lia.
  - vm_compute. discriminate.
  - reflexivity.
  - simpl. lia.
  - reflexivity.
  - lia.
  - reflexivity.
  - vm_compute. discriminate.
  - vm_compute. discriminate.
  - vm_compute. discriminate.
  - vm_compute. discriminate.
  - reflexivity.
  - vm_compute. discriminate.
Defined.

Lemma short_data_read_dropped_witness :
  exists (ok : bool) ws s' w',
    serve_client false 0 0 (Stalled.server 4 4 [])
      (Bench.mk_wire [0; 0; 0; 0; 1; 0; 0; 0; 2] 0) =
      Done tt s' w'
        (EvRead 7 9 9 :: EvRead 7 0 0 :: EvRead 7 1 (-1)
           :: ws ++ [EvClose 7]) /\
    sent 7 [0; 0; 0; 0; 2; 0; 0; 0; 132] [] [1; 0] 0 2 ok ws /\
    clients s' = clear_slot 0 [mk_client 7 1000].
Proof.
  apply (short_data_read_dropped false 0 0 7 (Stalled.server 4 4 [])
           (Bench.mk_wire [0; 0; 0; 0; 1; 0; 0; 0; 2] 0)
           (Bench.mk_wire [0; 0; 0; 0; 1; 0; 0; 0; 2] 0)
           (Bench.mk_wire [0; 0; 0; 0; 1; 0; 0; 0; 2] 0)
           (Bench.mk_wire [] 0) (Bench.mk_wire [] 0) (Bench.mk_wire [] 0)
           0 18 (-1) [0; 0; 0; 0; 1; 0; 0; 0; 2] [] []).
  - discriminate.
  - repeat split; simpl; try lia.
  - vm_compute. discriminate.
  - reflexivity.
  - simpl. lia.
  - reflexivity.
  - lia.
  - reflexivity.
  - vm_compute. discriminate.
  - vm_compute. discriminate.
  - vm_compute. discriminate.
  - vm_compute. discriminate.
  - reflexivity.
  - reflexivity.
  - vm_compute. discriminate.
Defined.

(** ** Turns that do nothing *)

(** A client with fewer than 9 bytes pending and a deadline still ahead
    is left alone: nothing is read or written, and the server object,
    deadline included, is unchanged. *)
Theorem serve_client_waits_for_header {World : Type} (sgn : bool)
    (fuel i : nat) (c : client_t) (s : mfs_server World) (w w1 w2 : World)
    (now av : Z) :
  c <> 0 ->
  first_slot_of c (clients s) i ->
  millis s w = (now, w1) ->
  now < timer_end (nth i (clients s) empty_client) ->
  client_available s c w1 = (av, w2) ->
  av < 9 ->
  serve_client sgn fuel i s w = Done tt s w2 [].
Proof.
  intros Hc Hslot Hm Ht Ha Hav.
  rewrite (serve_client_polls sgn fuel i c s w Hc Hslot now w1 av w2 Hm Ht Ha).
  apply Z.leb_gt in Hav. now rewrite Hav.
Qed.

Lemma serve_client_waits_for_header_witness :
  serve_client false 0 0 (Bench.server 4 4 [])
    (Bench.mk_wire [1; 0; 0; 0; 0; 0; 0; 0] 0)
  = Done tt (Bench.server 4 4 []) (Bench.mk_wire [1; 0; 0; 0; 0; 0; 0; 0] 0)
      [].
Proof.
  apply (serve_client_waits_for_header false 0 0 7 (Bench.server 4 4 [])
           (Bench.mk_wire [1; 0; 0; 0; 0; 0; 0; 0] 0)
           (Bench.mk_wire [1; 0; 0; 0; 0; 0; 0; 0] 0)
           (Bench.mk_wire [1; 0; 0; 0; 0; 0; 0; 0] 0) 0 8).
  - discriminate.
  - repeat split; simpl; try lia.
  - reflexivity.
  - simpl. lia.
  - reflexivity.
  - lia.
Defined.

(** ** Replies of the switch *)



(** ** Requests for a registered file *)


Section Handlers.

Context {World : Type}.

Variables (sgn : bool) (fuel i : nat) (c : client_t).
Variables (s s1 : mfs_server World) (w w1 w2 w3 w4 : World).
Variables (now av now' : Z) (req : mfs_message_t) (t1 : list event).
Variables (wr : bool) (file_index : Z).
Hypothesis Hc : c <> 0.
Hypothesis Hslot : first_slot_of c (clients s) i.
Hypothesis Hm : millis s w = (now, w1).
Hypothesis Ht : now < timer_end (nth i (clients s) empty_client).
Hypothesis Ha : client_available s c w1 = (av, w2).
Hypothesis Hav : 9 <= av.
Hypothesis Hread : read_mfs_message sgn fuel c s w2 = Done req s1 w3 t1.
Hypothesis Hreq : is_sentinel req = false.
Hypothesis Hm' : millis s w3 = (now', w4).
Hypothesis Hlookup : lookup_request s1 req = file_index.
Hypothesis Hfound : file_index <> -1.
Hypothesis Hop : op req = if wr then OP_WRITE else OP_READ.

(** The turn of a READ or WRITE request whose file was found, up to the
    call of the handler. *)
Lemma serve_client_calls_handler :
  serve_client sgn fuel i s w =
  prefix t1
    ((resp <- (if wr then call_writer_f file_index req
               else call_reader_f file_index req) ;;
      c' <- client_at i ;; send_mfs_message resp c' ;;; ret tt)
       (set_clients s1
          (set_timer_end i (u64 (now' + timer_ms s)) (clients s))) w4).
Proof.
  rewrite (serve_client_routes sgn fuel i c s w Hc Hslot now w1 av w2 req s1
             w3 t1 now' w4 Hm Ht Ha Hav Hread Hreq Hm').
  unfold route. rewrite bind_this.
  change (lookup_request
            (set_clients s1
               (set_timer_end i (u64 (now' + timer_ms s)) (clients s))) req)
    with (lookup_request s1 req).
  rewrite Hlookup.
  apply Z.eqb_neq in Hfound. rewrite Hfound.
  unfold dispatch. rewrite Hop. now destruct wr.
Qed.

Lemma read_keeps_files : files s1 = files s.
Proof.
  destruct (read_mfs_message_request _ _ _ _ _ _ _ _ _ Hread Hreq)
    as (hb & wa & pb & wb & db & _ & _ & _ & _ & _ & _ & _ & _ & Hs1 & _).
  now rewrite Hs1.
Qed.

End Handlers.

(** A READ (WRITE) request read in full whose path names a file: the
    reader (writer) of that file is called once, with the request and the
    two buffers, and the message it returns is sent to the client as it
    is; the client is kept when the message was written in full. *)
Theorem file_request_served {World : Type} (sgn : bool) (fuel i : nat)
    (c : client_t) (s s1 : mfs_server World) (w w1 w2 w3 w4 w5 : World)
    (now av now' : Z) (req resp : mfs_message_t) (t1 : list event)
    (wr : bool) (file_index : Z)
    (h : mfs_message_t -> list Z -> list Z -> World -> mfs_message_t * World)
    (pb db : list Z) :
  c <> 0 ->
  first_slot_of c (clients s) i ->
  millis s w = (now, w1) ->
  now < timer_end (nth i (clients s) empty_client) ->
  client_available s c w1 = (av, w2) ->
  9 <= av ->
  read_mfs_message sgn fuel c s w2 = Done req s1 w3 t1 ->
  is_sentinel req = false ->
  millis s w3 = (now', w4) ->
  lookup_request s1 req = file_index ->
  file_index <> -1 ->
  op req = (if wr then OP_WRITE else OP_READ) ->
  (if wr then writer_f (nth (Z.to_nat file_index) (files s) empty_file)
   else reader_f (nth (Z.to_nat file_index) (files s) empty_file)) = Some h ->
  h req (path_buffer s1) (data_buffer s1) w4 = (resp, w5) ->
  bytes_of s1 (path resp) (psize resp) = Some pb ->
  bytes_of s1 (data resp) (dsize resp) = Some db ->
  exists (ok : bool) ws s' w',
    serve_client sgn fuel i s w =
      Done tt s' w'
        (t1 ++ (if wr then EvWriterF file_index else EvReaderF file_index)
            :: ws ++ if ok then [] else [EvClose c]) /\
    sent c (fill_headers (repeat 0 9%nat) resp) pb db (psize resp)
      (dsize resp) ok ws /\
    client (nth i (clients s') empty_client) = (if ok then c else 0).
Proof.
  intros Hc Hslot Hm Ht Ha Hav Hread Hreq Hm' Hlookup Hfound Hop Hh Hresp
    Hpb Hdb.
  rewrite (serve_client_calls_handler sgn fuel i c s s1 w w1 w2 w3 w4 now av
             now' req t1 wr file_index Hc Hslot Hm Ht Ha Hav Hread Hreq Hm'
             Hlookup Hfound Hop).
  pose proof (read_keeps_files sgn fuel c s s1 w2 w3 req t1 Hread Hreq) as Hf.
  set (s2 := set_clients s1
               (set_timer_end i (u64 (now' + timer_ms s)) (clients s))).
  assert (Hslot2 : first_slot_of c (clients s2) i)
    by (apply set_timer_end_first_slot, Hslot).
  destruct (reply_run i c Hc resp s2 w5 pb db Hslot2 Hpb Hdb)
    as (ok & ws & s' & w' & Hsent & Hrun & Hclients).
  exists ok, ws, s', w'. split; [| split; [exact Hsent |]].
  - rewrite bind_run.
    destruct wr; unfold call_writer_f, call_reader_f;
      cbn [files path_buffer data_buffer set_clients s2];
      rewrite Hf, Hh, Hresp, Hrun; cbn [prefix app]; reflexivity.
  - rewrite Hclients. destruct ok; [apply Hslot2 |].
    apply clear_slot_client, Hslot2.
Qed.

(** A READ (WRITE) request read in full whose lookup answers a slot
    without a reader (writer): the server calls through the null handler;
    nothing is written to the client before. *)
Theorem missing_handler_called {World : Type} (sgn : bool) (fuel i : nat)
    (c : client_t) (s s1 : mfs_server World) (w w1 w2 w3 w4 : World)
    (now av now' : Z) (req : mfs_message_t) (t1 : list event)
    (wr : bool) (file_index : Z) :
  c <> 0 ->
  first_slot_of c (clients s) i ->
  millis s w = (now, w1) ->
  now < timer_end (nth i (clients s) empty_client) ->
  client_available s c w1 = (av, w2) ->
  9 <= av ->
  read_mfs_message sgn fuel c s w2 = Done req s1 w3 t1 ->
  is_sentinel req = false ->
  millis s w3 = (now', w4) ->
  lookup_request s1 req = file_index ->
  file_index <> -1 ->
  op req = (if wr then OP_WRITE else OP_READ) ->
  (if wr then writer_f (nth (Z.to_nat file_index) (files s) empty_file)
   else reader_f (nth (Z.to_nat file_index) (files s) empty_file)) = None ->
  serve_client sgn fuel i s w = Fault t1.
Proof.
  intros Hc Hslot Hm Ht Ha Hav Hread Hreq Hm' Hlookup Hfound Hop Hh.
  rewrite (serve_client_calls_handler sgn fuel i c s s1 w w1 w2 w3 w4 now av
             now' req t1 wr file_index Hc Hslot Hm Ht Ha Hav Hread Hreq Hm'
             Hlookup Hfound Hop).
  pose proof (read_keeps_files sgn fuel c s s1 w2 w3 req t1 Hread Hreq) as Hf.
  rewrite bind_run.
  destruct wr; unfold call_writer_f, call_reader_f;
    cbn [files path_buffer data_buffer set_clients];
    rewrite Hf, Hh; cbn [prefix]; now rewrite app_nil_r.
Qed.

Lemma file_request_served_witness :
  exists (ok : bool) ws s' w',
    serve_client false 0 0 (Bench.server 16 16 [Bench.file_hi])
      (Bench.mk_wire [3; 0; 0; 0; 0; 0; 0; 0; 1; 104; 105; 0] 0)
    = Done tt s' w'
        ([EvRead 7 9 9; EvRead 7 3 3; EvRead 7 0 0]
           ++ EvReaderF 0 :: ws ++ if ok then [] else [EvClose 7]) /\
    sent 7 [3; 0; 0; 0; 1; 0; 0; 0; 129] [104; 105; 0] [88] 3 1 ok ws /\
    client (nth 0 (clients s') empty_client) = (if ok then 7 else 0).
Proof.
  apply (file_request_served false 0 0 7
           (Bench.server 16 16 [Bench.file_hi])
           (set_path_buffer (Bench.server 16 16 [Bench.file_hi])
              ([104; 105] ++ repeat 0 14%nat))
           (Bench.mk_wire [3; 0; 0; 0; 0; 0; 0; 0; 1; 104; 105; 0] 0)
           (Bench.mk_wire [3; 0; 0; 0; 0; 0; 0; 0; 1; 104; 105; 0] 0)
           (Bench.mk_wire [3; 0; 0; 0; 0; 0; 0; 0; 1; 104; 105; 0] 0)
           (Bench.mk_wire [] 0) (Bench.mk_wire [] 0) (Bench.mk_wire [] 0)
           0 12 0 (mk_msg 3 0 1 PATH_BUFFER DATA_BUFFER)
           (mk_msg 3 1 129 (EXTERN [104; 105; 0]) (EXTERN [88]))
           [EvRead 7 9 9; EvRead 7 3 3; EvRead 7 0 0]
           false 0 Bench.echo_x [104; 105; 0] [88]).
  - discriminate.
  - repeat split; simpl; try lia.
  - reflexivity.
  - simpl. lia.
  - reflexivity.
  - lia.
  - vm_compute. reflexivity.
  - reflexivity.
  - reflexivity.
  - vm_compute. reflexivity.
  - discriminate.
  - reflexivity.
  - reflexivity.
  - vm_compute. reflexivity.
  - reflexivity.
  - reflexivity.
Defined.

Lemma missing_handler_called_witness :
  serve_client false 0 0
    (Bench.server 16 16
       [mk_file (Some [104; 105; 0]) 3 None (Some Bench.echo_x)])
    (Bench.mk_wire [3; 0; 0; 0; 0; 0; 0; 0; 2; 104; 105; 0] 0)
  = Fault [EvRead 7 9 9; EvRead 7 3 3; EvRead 7 0 0].
Proof.
  apply (missing_handler_called false 0 0 7
           (Bench.server 16 16
              [mk_file (Some [104; 105; 0]) 3 None (Some Bench.echo_x)])
           (set_path_buffer
              (Bench.server 16 16
                 [mk_file (Some [104; 105; 0]) 3 None (Some Bench.echo_x)])
              ([104; 105] ++ repeat 0 14%nat))
           (Bench.mk_wire [3; 0; 0; 0; 0; 0; 0; 0; 2; 104; 105; 0] 0)
           (Bench.mk_wire [3; 0; 0; 0; 0; 0; 0; 0; 2; 104; 105; 0] 0)
           (Bench.mk_wire [3; 0; 0; 0; 0; 0; 0; 0; 2; 104; 105; 0] 0)
           (Bench.mk_wire [] 0) (Bench.mk_wire [] 0)
           0 12 0 (mk_msg 3 0 2 PATH_BUFFER DATA_BUFFER)
           [EvRead 7 9 9; EvRead 7 3 3; EvRead 7 0 0]
           true 0).
  - discriminate.
  - repeat split; simpl; try lia.
  - reflexivity.
  - simpl. lia.
  - reflexivity.
  - lia.
  - vm_compute. reflexivity.
  - reflexivity.
  - reflexivity.
  - vm_compute. reflexivity.
  - discriminate.
  - reflexivity.
  - reflexivity.
Defined.

Lemma unknown_file_reply_witness :
  exists (ok : bool) ws s' w',
    serve_client false 0 0 (Bench.server 16 16 [Bench.file_hi])
      (Bench.mk_wire [3; 0; 0; 0; 0; 0; 0; 0; 1; 110; 111; 0] 0)
    = Done tt s' w'
        ([EvRead 7 9 9; EvRead 7 3 3; EvRead 7 0 0] ++ ws
           ++ if ok then [] else [EvClose 7]) /\
    sent 7 [3; 0; 0; 0; 2; 0; 0; 0; 132] [110; 111; 0] [232; 3] 3 2 ok ws /\
    client (nth 0 (clients s') empty_client) = (if ok then 7 else 0).
Proof.
  apply (unknown_file_reply false 0 0 7
           (Bench.server 16 16 [Bench.file_hi])
           (set_path_buffer (Bench.server 16 16 [Bench.file_hi])
              ([110; 111] ++ repeat 0 14%nat))
           (Bench.mk_wire [3; 0; 0; 0; 0; 0; 0; 0; 1; 110; 111; 0] 0)
           (Bench.mk_wire [3; 0; 0; 0; 0; 0; 0; 0; 1; 110; 111; 0] 0)
           (Bench.mk_wire [3; 0; 0; 0; 0; 0; 0; 0; 1; 110; 111; 0] 0)
           (Bench.mk_wire [] 0)
           0 12 (mk_msg 3 0 1 PATH_BUFFER DATA_BUFFER)
           [EvRead 7 9 9; EvRead 7 3 3; EvRead 7 0 0]).
  - discriminate.
  - repeat split; simpl; try lia.
  - vm_compute. discriminate.
  - reflexivity.
  - simpl. lia.
  - reflexivity.
  - lia.
  - vm_compute. reflexivity.
  - reflexivity.
  - vm_compute. reflexivity.
  - discriminate.
  - discriminate.
Defined.

(** ** The listing *)

Section Listing.

Context {World : Type}.
Implicit Types (s : mfs_server World) (w : World) (f : mfs_file_t World)
  (fs : list (mfs_file_t World)).

Lemma file_strlen_bounds f :
  0 <= file_strlen f /\
  (Z.to_nat (file_strlen f) <= length (chars (f_path f)))%nat.
Proof.
  split.
  - unfold file_strlen, strlen. destruct (_ =? _); lia.
  - destruct (Nat.le_gt_cases (Z.to_nat (file_strlen f))
                (length (chars (f_path f)))) as [H | H]; [exact H |].
    exfalso.
    apply (strlen_prefix_nonzero (chars (f_path f)) (path_size f)
             (Z.of_nat (length (chars (f_path f))))).
    + unfold file_strlen in H. lia.
    + rewrite Nat2Z.id. now apply nth_overflow.
Qed.

Lemma ls_entry_length f :
  Z.of_nat (length (ls_entry f))
  = if file_strlen f =? 0 then 0 else file_strlen f + 1.
Proof.
  unfold ls_entry. destruct (file_strlen f =? 0); [reflexivity |].
  destruct (file_strlen_bounds f) as [H0 Hle].
  rewrite length_app, length_firstn. cbn [length]. lia.
Qed.

Lemma u32_add_l (a b : Z) : u32 (u32 a + b) = u32 (a + b).
Proof. unfold u32. apply Zplus_mod_idemp_l. Qed.

Lemma ls_total_size_sum fs : forall t,
  u32 (ls_total_size fs t)
  = u32 (t + Z.of_nat (length (ls_payload fs))
         + Z.of_nat (unnamed_slots fs)).
Proof.
  induction fs as [| f fs IH]; intros t.
  - cbn. f_equal. lia.
  - cbn [ls_total_size]. rewrite IH.
    unfold ls_payload, unnamed_slots in *. cbn [flat_map filter].
    rewrite length_app.
    pose proof (ls_entry_length f) as He.
    rewrite <- !Z.add_assoc, u32_add_l.
    rewrite <- !Z.add_assoc, u32_add_l.
    f_equal.
    destruct (file_strlen f =? 0) eqn:E.
    + apply Z.eqb_eq in E. cbn [length]. lia.
    + lia.
Qed.

Lemma ls_total_size_u32 fs t :
  0 <= t < 2 ^ 32 -> u32 (ls_total_size fs t) = ls_total_size fs t.
Proof.
  revert t. induction fs as [| f fs IH]; intros t Ht.
  - now apply Z.mod_small.
  - cbn [ls_total_size]. apply IH. apply u32_range.
Qed.

End Listing.

(** The size [list_files] works out first is the length of the listing
    plus one for every slot whose name has string length 0, free slots
    included, reduced to 32 bits. *)
Theorem ls_total_size_counts_unnamed_slots {World : Type}
    (fs : list (mfs_file_t World)) :
  ls_total_size fs 0
  = u32 (Z.of_nat (length (ls_payload fs)) + Z.of_nat (unnamed_slots fs)).
Proof.
  rewrite <- (ls_total_size_u32 fs 0) by lia.
  now rewrite ls_total_size_sum.
Qed.

Section Fill.

Context {World : Type}.
Implicit Types (s : mfs_server World) (w : World) (f : mfs_file_t World)
  (fs : list (mfs_file_t World)).

Lemma ls_entry_nth f (k : nat) :
  file_strlen f <> 0 ->
  nth k (ls_entry f) 0
  = if (k <? Z.to_nat (file_strlen f))%nat then nth k (chars (f_path f)) 0
    else 0.
Proof.
  intros Hne. unfold ls_entry.
  apply Z.eqb_neq in Hne. rewrite Hne.
  destruct (file_strlen_bounds f) as [H0 Hle].
  destruct (k <? Z.to_nat (file_strlen f))%nat eqn:E.
  - apply Nat.ltb_lt in E.
    rewrite app_nth1 by (rewrite length_firstn; lia).
    rewrite nth_firstn. apply Nat.ltb_lt in E. now rewrite E.
  - apply Nat.ltb_ge in E.
    rewrite app_nth2 by (rewrite length_firstn; lia).
    rewrite length_firstn.
    destruct (k - Nat.min (Z.to_nat (file_strlen f))
                    (length (chars (f_path f))))%nat as [| [| n]];
      reflexivity.
Qed.

Lemma ls_fill_spec fs : forall (buf : list Z) (dp : Z),
  0 <= dp ->
  dp + Z.of_nat (length (ls_payload fs)) <= Z.of_nat (length buf) ->
  Z.of_nat (length buf) < 2 ^ 32 ->
  snd (ls_fill fs buf dp) = dp + Z.of_nat (length (ls_payload fs)) /\
  length (fst (ls_fill fs buf dp)) = length buf /\
  (forall k, (k < Z.to_nat dp)%nat ->
     nth k (fst (ls_fill fs buf dp)) 0 = nth k buf 0) /\
  (forall k, (k < length (ls_payload fs))%nat ->
     nth (Z.to_nat dp + k) (fst (ls_fill fs buf dp)) 0
     = nth k (ls_payload fs) 0).
Proof.
  induction fs as [| f fs IH]; intros buf dp Hdp Hroom Hbuf.
  - cbn. repeat split; try lia.
  - cbn [ls_fill]. unfold ls_payload in *. cbn [flat_map] in *.
    rewrite length_app in *.
    pose proof (ls_entry_length f) as He.
    destruct (file_strlen_bounds f) as [H0 Hle].
    destruct (file_strlen f =? 0) eqn:E.
    + assert (Hnil : ls_entry f = [])
        by (destruct (ls_entry f); [reflexivity | cbn in He; lia]).
      rewrite Hnil in *. cbn [length app] in *.
      apply IH; assumption || lia.
    + apply Z.eqb_neq in E.
      set (sl := file_strlen f) in *.
      assert (Hdp1 : u32 (dp + sl) = dp + sl)
        by (unfold u32; apply Z.mod_small; lia).
      rewrite Hdp1.
      assert (Hdp2 : u32 (dp + sl + 1) = dp + sl + 1)
        by (unfold u32; apply Z.mod_small; lia).
      rewrite Hdp2.
      set (buf1 := memcpy sl (chars (f_path f)) buf dp).
      assert (Hcopy : forall j,
                 length buf1 = length buf /\
                 nth j buf1 0
                 = if ((Z.to_nat dp + 0 <=? j)
                       && (j <? Z.to_nat dp + 0 + Z.to_nat sl))%nat
                   then nth (j - Z.to_nat dp) (chars (f_path f)) 0
                   else nth j buf 0).
      { intros j. apply memcpy_loop_nth. lia. }
      set (buf2 := store buf1 (Z.to_nat (dp + sl)) 0).
      assert (Hl2 : length buf2 = length buf).
      { unfold buf2. rewrite store_length. apply (Hcopy 0%nat). }
      destruct (IH buf2 (dp + sl + 1)) as (Hsnd & Hlen & Hold & Hnew);
        [lia | lia | lia |].
      split; [lia |]. split; [lia |]. split.
      * intros k Hk. rewrite Hold by lia.
        unfold buf2. rewrite store_nth.
        replace (k =? Z.to_nat (dp + sl))%nat with false
          by (symmetry; apply Nat.eqb_neq; lia).
        cbn [andb]. rewrite (proj2 (Hcopy k)).
        replace (Z.to_nat dp + 0 <=? k)%nat with false
          by (symmetry; apply Nat.leb_gt; lia).
        reflexivity.
      * intros k Hk.
        destruct (Nat.lt_ge_cases k (length (ls_entry f))) as [Hin | Hout].
        -- rewrite app_nth1 by exact Hin.
           rewrite Hold by lia.
           rewrite ls_entry_nth by exact E. fold sl.
           unfold buf2. rewrite store_nth.
           rewrite (proj1 (Hcopy 0%nat)).
           destruct (k <? Z.to_nat sl)%nat eqn:Ek.
           ++ apply Nat.ltb_lt in Ek.
              replace (Z.to_nat dp + k =? Z.to_nat (dp + sl))%nat with false
                by (symmetry; apply Nat.eqb_neq; lia).
              cbn [andb]. rewrite (proj2 (Hcopy _)).
              replace (Z.to_nat dp + 0 <=? Z.to_nat dp + k)%nat with true
                by (symmetry; apply Nat.leb_le; lia).
              replace (Z.to_nat dp + k <? Z.to_nat dp + 0 + Z.to_nat sl)%nat
                with true by (symmetry; apply Nat.ltb_lt; lia).
              cbn [andb]. f_equal. lia.
           ++ apply Nat.ltb_ge in Ek.
              replace (Z.to_nat dp + k =? Z.to_nat (dp + sl))%nat with true
                by (symmetry; apply Nat.eqb_eq; lia).
              replace (Z.to_nat (dp + sl) <? length buf)%nat with true
                by (symmetry; apply Nat.ltb_lt; lia).
              reflexivity.
        -- rewrite app_nth2 by exact Hout.
           rewrite <- Hnew by lia.
           f_equal. lia.
Qed.

Lemma ls_fill_payload fs (buf : list Z) :
  Z.of_nat (length (ls_payload fs)) <= Z.of_nat (length buf) ->
  Z.of_nat (length buf) < 2 ^ 32 ->
  snd (ls_fill fs buf 0) = Z.of_nat (length (ls_payload fs)) /\
  length (fst (ls_fill fs buf 0)) = length buf /\
  firstn (length (ls_payload fs)) (fst (ls_fill fs buf 0)) = ls_payload fs.
Proof.
  intros Hroom Hbuf.
  destruct (ls_fill_spec fs buf 0) as (Hsnd & Hlen & _ & Hnew); try lia.
  split; [lia |]. split; [exact Hlen |].
  apply (nth_ext _ _ 0 0).
  - rewrite length_firstn. lia.
  - intros k Hk. rewrite length_firstn in Hk.
    rewrite nth_firstn.
    replace (k <? length (ls_payload fs))%nat with true
      by (symmetry; apply Nat.ltb_lt; lia).
    rewrite <- Hnew by lia. reflexivity.
Qed.

End Fill.

Section ListFiles.

Context {World : Type}.
Implicit Types (s : mfs_server World) (w : World) (f : mfs_file_t World)
  (fs : list (mfs_file_t World)).

Lemma ls_total_size_small fs :
  Z.of_nat (length (ls_payload fs)) + Z.of_nat (unnamed_slots fs) < 2 ^ 32 ->
  ls_total_size fs 0
  = Z.of_nat (length (ls_payload fs)) + Z.of_nat (unnamed_slots fs).
Proof.
  intros H. rewrite <- (ls_total_size_u32 fs 0) by lia.
  rewrite ls_total_size_sum. unfold u32. apply Z.mod_small. lia.
Qed.

Lemma ls_stream_run (c : client_t) s fs :
  (forall bytes n w0, fst (client_writer s c bytes n w0) = n) ->
  forall w, exists w' t,
    ls_stream fs c s w = Done true s w' t /\ written t = ls_payload fs.
Proof.
  intros Hw. induction fs as [| f fs IH]; intros w.
  - exists w, []. split; reflexivity.
  - cbn [ls_stream]. unfold ls_payload. cbn [flat_map]. unfold ls_entry.
    destruct (file_strlen f =? 0) eqn:E; [apply IH |].
    set (name := firstn (Z.to_nat (file_strlen f)) (chars (f_path f))).
    destruct (client_writer s c name (file_strlen f) w) as [r1 w1] eqn:E1.
    pose proof (Hw name (file_strlen f) w) as H1. rewrite E1 in H1.
    cbn [fst] in H1. subst r1.
    rewrite (bind_writer _ _ _ _ _ _ _ _ E1).
    rewrite Z.eqb_refl. cbv beta iota delta [negb].
    destruct (client_writer s c [0] 1 w1) as [r2 w2] eqn:E2.
    pose proof (Hw [0] 1 w1) as H2. rewrite E2 in H2.
    cbn [fst] in H2. subst r2.
    rewrite (bind_writer _ _ _ _ _ _ _ _ E2).
    cbn [Z.eqb Pos.eqb negb].
    destruct (IH w2) as (w' & t & Hrun & Hwr).
    exists w'. eexists. rewrite Hrun. cbn [prefix]. split; [reflexivity |].
    cbn [app written flat_map]. fold (written t). rewrite Hwr.
    now rewrite <- app_assoc.
Qed.

End ListFiles.

(** The listing fits the data buffer: [list_files] sends one LS response
    whose data is the listing, the names of the table in slot order, each
    followed by one terminator; its dsize is the length of the listing.
    The client is kept when the message was written in full. *)
Theorem list_files_buffered {World : Type} (i : nat) (c : client_t)
    (s : mfs_server World) (w : World) :
  c <> 0 ->
  first_slot_of c (clients s) i ->
  Z.of_nat (length (ls_payload (files s)))
    + Z.of_nat (unnamed_slots (files s)) <= data_bsize s ->
  data_bsize s < 2 ^ 32 ->
  exists (ok : bool) ws s' w',
    list_files c s w = Done tt s' w' (ws ++ if ok then [] else [EvClose c]) /\
    sent c
      (fill_headers (repeat 0 9%nat)
         (mk_msg 0 (Z.of_nat (length (ls_payload (files s))))
            (RESPONSE_OF OP_LS) PATH_BUFFER DATA_BUFFER))
      [] (ls_payload (files s)) 0 (Z.of_nat (length (ls_payload (files s))))
      ok ws /\
    clients s' = (if ok then clients s else clear_slot i (clients s)).
Proof.
  intros Hc Hslot Hfit Hbuf. unfold list_files. rewrite bind_this.
  rewrite ls_total_size_small by lia.
  apply Z.leb_le in Hfit. rewrite Hfit. apply Z.leb_le in Hfit.
  destruct (ls_fill_payload (files s) (data_buffer s))
    as (Hsnd & Hlen & Hfirst); [unfold data_bsize in *; lia .. |].
  destruct (ls_fill (files s) (data_buffer s) 0) as [buf dp] eqn:Efill.
  cbn [fst snd] in Hsnd, Hlen, Hfirst. subst dp.
  rewrite bind_update.
  assert (Hslot' : first_slot_of c (clients (set_data_buffer s buf)) i)
    by exact Hslot.
  destruct (send_mfs_message_sent
              (mk_msg 0 (Z.of_nat (length (ls_payload (files s))))
                 (RESPONSE_OF OP_LS) PATH_BUFFER DATA_BUFFER) c i
              (set_data_buffer s buf) w [] (ls_payload (files s))
              Hc Hslot')
    as (ok & ws & w' & Hsent & Hrun); [reflexivity | |].
  { cbn [bytes_of data dsize data_buffer set_data_buffer].
    now rewrite Nat2Z.id, Hfirst. }
  exists ok, ws. rewrite bind_run, Hrun.
  destruct ok; cbv beta iota; cbn [ret prefix].
  - eexists. eexists. rewrite app_nil_r.
    split; [reflexivity |]. split; [exact Hsent | reflexivity].
  - eexists. eexists. rewrite app_nil_r.
    split; [reflexivity |]. split; [exact Hsent | reflexivity].
Qed.

Lemma list_files_buffered_witness :
  exists (ok : bool) ws s' w',
    list_files 7 (Bench.server 16 16 [Bench.file_hi; empty_file])
      (Bench.mk_wire [] 0)
    = Done tt s' w' (ws ++ if ok then [] else [EvClose 7]) /\
    sent 7 [0; 0; 0; 0; 3; 0; 0; 0; 131] [] [104; 105; 0] 0 3 ok ws /\
    clients s' = (if ok then [mk_client 7 1000]
                  else clear_slot 0 [mk_client 7 1000]).
Proof.
  apply (list_files_buffered 0 7
           (Bench.server 16 16 [Bench.file_hi; empty_file])
           (Bench.mk_wire [] 0)).
  - discriminate.
  - repeat split; simpl; try lia.
  - vm_compute. discriminate.
  - vm_compute. reflexivity.
Defined.

(** The listing does not fit the data buffer and every write is accepted
    in full: [list_files] writes a header that declares the size worked
    out first, then the same listing the buffered path sends, name by
    name, and leaves the server as it is. *)
Theorem list_files_streamed {World : Type} (c : client_t)
    (s : mfs_server World) (w : World) :
  data_bsize s
    < Z.of_nat (length (ls_payload (files s)))
      + Z.of_nat (unnamed_slots (files s)) < 2 ^ 32 ->
  (forall bytes n w0, fst (client_writer s c bytes n w0) = n) ->
  exists w' t,
    list_files c s w = Done tt s w' t /\
    written t
    = fill_headers (repeat 0 9%nat)
        (mk_msg 0
           (Z.of_nat (length (ls_payload (files s)))
            + Z.of_nat (unnamed_slots (files s)))
           (RESPONSE_OF OP_LS) NULL NULL)
      ++ ls_payload (files s).
Proof.
  intros Hbig Hw. unfold list_files. rewrite bind_this.
  rewrite ls_total_size_small by lia.
  replace (_ <=? data_bsize s) with false
    by (symmetry; apply Z.leb_gt; lia).
  set (header := fill_headers (repeat 0 9%nat) _).
  destruct (client_writer s c header 9 w) as [r1 w1] eqn:E1.
  pose proof (Hw header 9 w) as H1. rewrite E1 in H1.
  cbn [fst] in H1. subst r1.
  rewrite (bind_writer _ _ _ _ _ _ _ _ E1).
  cbn [Z.eqb Pos.eqb negb].
  destruct (ls_stream_run c s (files s) Hw w1) as (w' & t & Hrun & Hwr).
  exists w'. eexists. rewrite bind_run, Hrun. cbn [ret prefix].
  split; [reflexivity |].
  rewrite app_nil_r. cbn [app written flat_map]. fold (written t).
  now rewrite Hwr.
Qed.

Lemma list_files_streamed_witness :
  exists w' t,
    list_files 7 (Bench.server 16 3 [Bench.file_hi; empty_file])
      (Bench.mk_wire [] 0)
    = Done tt (Bench.server 16 3 [Bench.file_hi; empty_file]) w' t /\
    written t = [0; 0; 0; 0; 4; 0; 0; 0; 131] ++ [104; 105; 0].
Proof.
  apply (list_files_streamed 7
           (Bench.server 16 3 [Bench.file_hi; empty_file])
           (Bench.mk_wire [] 0)).
  - vm_compute. split; reflexivity.
  - reflexivity.
Defined.

(** ** The configuration is never written *)

Section Setup.

Context {World : Type}.
Implicit Types (s : mfs_server World) (w : World).

Lemma same_setup_refl s : same_setup s s.
Proof. repeat split. Qed.

Lemma same_setup_trans s1 s2 s3 :
  same_setup s1 s2 -> same_setup s2 s3 -> same_setup s1 s3.
Proof.
  unfold same_setup. intros H1 H2.
  decompose [and] H1. decompose [and] H2.
  repeat split; congruence.
Qed.

Lemma setup_ret {A} (a : A) : keeps_setup (@ret World A a).
Proof. intros s w a' s' w' t H. inversion H; subst. apply same_setup_refl. Qed.

Lemma setup_bind {A B} (m : @M World A) (k : A -> @M World B) :
  keeps_setup m -> (forall a, keeps_setup (k a)) -> keeps_setup (bind m k).
Proof.
  intros Hm Hk s w b s' w' t H. rewrite bind_run in H.
  destruct (m s w) as [a s1 w1 t1 | |] eqn:E1; try discriminate.
  apply prefix_done in H. destruct H as (t2 & H & _).
  exact (same_setup_trans _ _ _ (Hm _ _ _ _ _ _ E1) (Hk a _ _ _ _ _ _ H)).
Qed.

Lemma setup_this : keeps_setup (@this World).
Proof. intros s w a s' w' t H. inversion H; subst. apply same_setup_refl. Qed.

Lemma setup_update (f : mfs_server World -> mfs_server World) :
  (forall s, same_setup s (f s)) -> keeps_setup (update f).
Proof. intros Hf s w a s' w' t H. inversion H; subst. apply Hf. Qed.

Lemma setup_fault {A} : keeps_setup (@fault World A).
Proof. intros s w a s' w' t H. discriminate. Qed.

Lemma setup_spin {A} : keeps_setup (@spin World A).
Proof. intros s w a s' w' t H. discriminate. Qed.

Lemma setup_call_writer c bytes n : keeps_setup (@call_writer World c bytes n).
Proof.
  intros s w a s' w' t H. unfold call_writer in H.
  destruct (client_writer s c bytes n w). inversion H; subst.
  apply same_setup_refl.
Qed.

Lemma setup_call_reader c n : keeps_setup (@call_reader World c n).
Proof.
  intros s w a s' w' t H. unfold call_reader in H.
  destruct (client_reader s c n w) as [[r b] w1]. inversion H; subst.
  apply same_setup_refl.
Qed.

Lemma setup_call_killer c : keeps_setup (@call_killer World c).
Proof. intros s w a s' w' t H. inversion H; subst. apply same_setup_refl. Qed.

Lemma setup_call_available c : keeps_setup (@call_available World c).
Proof.
  intros s w a s' w' t H. unfold call_available in H.
  destruct (client_available s c w). inversion H; subst.
  apply same_setup_refl.
Qed.

Lemma setup_call_millis : keeps_setup (@call_millis World).
Proof.
  intros s w a s' w' t H. unfold call_millis in H.
  destruct (millis s w). inversion H; subst. apply same_setup_refl.
Qed.

Lemma setup_call_accept : keeps_setup (@call_accept World).
Proof.
  intros s w a s' w' t H. unfold call_accept in H.
  destruct (accept_client s w). inversion H; subst. apply same_setup_refl.
Qed.

Lemma setup_call_reader_f index req :
  keeps_setup (@call_reader_f World index req).
Proof.
  intros s w a s' w' t H. unfold call_reader_f in H.
  destruct (reader_f _) as [h |]; try discriminate.
  destruct (h req (path_buffer s) (data_buffer s) w). inversion H; subst.
  apply same_setup_refl.
Qed.

Lemma setup_call_writer_f index req :
  keeps_setup (@call_writer_f World index req).
Proof.
  intros s w a s' w' t H. unfold call_writer_f in H.
  destruct (writer_f _) as [h |]; try discriminate.
  destruct (h req (path_buffer s) (data_buffer s) w). inversion H; subst.
  apply same_setup_refl.
Qed.

Lemma drop_slot_length c cs cs' :
  drop_slot c cs = Some cs' -> length cs' = length cs.
Proof.
  intros H. apply drop_slot_deadlines in H.
  apply (f_equal (@length Z)) in H. now rewrite !length_map in H.
Qed.

Lemma memcpy_loop_length (src dest : list Z) (offset todo : nat) :
  forall i dest0, length dest0 = length dest ->
    length (memcpy_loop src dest0 offset i todo) = length dest.
Proof.
  induction todo as [| todo IH]; intros i dest0 H; simpl; [exact H |].
  apply IH. now rewrite store_length.
Qed.

Lemma ls_fill_length (fs : list (mfs_file_t World)) :
  forall buf dp, length (fst (ls_fill fs buf dp)) = length buf.
Proof.
  induction fs as [| f fs IH]; intros buf dp; cbn [ls_fill]; [reflexivity |].
  destruct (file_strlen f =? 0); [apply IH |].
  rewrite IH, store_length. unfold memcpy.
  now apply memcpy_loop_length.
Qed.

Lemma same_setup_path s b :
  length b = length (path_buffer s) -> same_setup s (set_path_buffer s b).
Proof. intros H. repeat split. exact H. Qed.

Lemma same_setup_data s b :
  length b = length (data_buffer s) -> same_setup s (set_data_buffer s b).
Proof. intros H. repeat split. exact H. Qed.

Lemma same_setup_clients s cs :
  length cs = length (clients s) -> same_setup s (set_clients s cs).
Proof. intros H. repeat split. exact H. Qed.

End Setup.

Create HintDb setup.

#[export] Hint Resolve setup_ret setup_this setup_fault setup_spin
  setup_call_writer setup_call_reader setup_call_killer setup_call_available
  setup_call_millis setup_call_accept setup_call_reader_f setup_call_writer_f
  : setup.

(** Walks down a computation as [keeps] does, for the configuration. *)
Ltac setup :=
  repeat first
    [ solve [auto with setup]
    | apply setup_bind; [| intros ?]
    | apply setup_update; intros;
      first [ apply same_setup_path; now rewrite blit_length
            | apply same_setup_data; now rewrite ?blit_length, ?store_length ]
    | match goal with
      | |- keeps_setup (if ?b then _ else _) => destruct b
      | |- keeps_setup (match ?x with _ => _ end) => destruct x
      end ].

Section SetupKept.

Context {World : Type}.
Implicit Types (s : mfs_server World) (w : World).

Lemma setup_client_at i : keeps_setup (@client_at World i).
Proof. unfold client_at. setup. Qed.

Lemma setup_read_into_path c n : keeps_setup (@read_into_path World c n).
Proof. unfold read_into_path. setup. Qed.

Lemma setup_read_into_data c n : keeps_setup (@read_into_data World c n).
Proof. unfold read_into_data. setup. Qed.

Lemma setup_drop_client c : keeps_setup (@drop_client World c).
Proof.
  intros s w a s' w' t H. unfold drop_client in H.
  destruct (c =? 0); [inversion H; subst; apply same_setup_refl |].
  rewrite bind_this in H.
  destruct (drop_slot c (clients s)) as [cs' |] eqn:E.
  - inversion H; subst. apply same_setup_clients.
    now apply drop_slot_length with c.
  - inversion H; subst. apply same_setup_refl.
Qed.

#[local] Hint Resolve setup_client_at setup_read_into_path
  setup_read_into_data setup_drop_client : setup.

Lemma setup_write_from c p n : keeps_setup (@write_from World c p n).
Proof. unfold write_from. setup. Qed.

#[local] Hint Resolve setup_write_from : setup.

Lemma setup_send_mfs_message msg c :
  keeps_setup (@send_mfs_message World msg c).
Proof. unfold send_mfs_message. setup. Qed.

#[local] Hint Resolve setup_send_mfs_message : setup.

Lemma setup_send_mfs_error msg c code :
  keeps_setup (@send_mfs_error World msg c code).
Proof. unfold send_mfs_error. setup. Qed.

#[local] Hint Resolve setup_send_mfs_error : setup.

Lemma setup_consume_path c psz : keeps_setup (@consume_path World c psz).
Proof. unfold consume_path. setup. Qed.

Lemma setup_consume_data fuel c dsz :
  forall processed, keeps_setup (@consume_data World fuel c dsz processed).
Proof.
  induction fuel as [| fuel IH]; intros processed; cbn [consume_data].
  - setup.
  - destruct (processed <? dsz); [| setup].
    apply setup_bind; [setup | intros s0].
    apply setup_bind; [setup | intros r].
    destruct (negb _); [setup | apply IH].
Qed.

#[local] Hint Resolve setup_consume_path setup_consume_data : setup.

Lemma setup_read_mfs_message sgn fuel c :
  keeps_setup (@read_mfs_message World sgn fuel c).
Proof. unfold read_mfs_message. setup. Qed.

Lemma setup_ls_stream fs c : keeps_setup (@ls_stream World fs c).
Proof. induction fs as [| f fs IH]; simpl; setup. Qed.

#[local] Hint Resolve setup_read_mfs_message setup_ls_stream : setup.

Lemma setup_list_files c : keeps_setup (@list_files World c).
Proof.
  intros s w a s' w' t H. unfold list_files in H. rewrite bind_this in H.
  destruct (_ <=? _).
  - pose proof (ls_fill_length (files s) (data_buffer s) 0) as Hlen.
    destruct (ls_fill (files s) (data_buffer s) 0) as [buf dp].
    cbn [fst] in Hlen. rewrite bind_update in H.
    apply (same_setup_trans _ (set_data_buffer s buf));
      [now apply same_setup_data |].
    revert H. generalize (set_data_buffer s buf). intros s0 H.
    assert (K : keeps_setup
                  (send_mfs_message
                     (mk_msg 0 dp (RESPONSE_OF OP_LS) PATH_BUFFER DATA_BUFFER)
                     c ;;; @ret World unit tt)) by setup.
    exact (K _ _ _ _ _ _ H).
  - revert H.
    match goal with
    | |- ?m s w = _ -> _ =>
        assert (K : keeps_setup m) by setup; apply K
    end.
Qed.

#[local] Hint Resolve setup_list_files : setup.

Lemma setup_dispatch i req index : keeps_setup (@dispatch World i req index).
Proof. unfold dispatch. setup. Qed.

#[local] Hint Resolve setup_dispatch : setup.

Lemma setup_route i req : keeps_setup (@route World i req).
Proof. unfold route. setup. Qed.

Lemma setup_renew_deadline i : keeps_setup (@renew_deadline World i).
Proof.
  unfold renew_deadline. apply setup_bind; [setup | intros now].
  apply setup_update. intros s. apply same_setup_clients.
  apply set_timer_end_length.
Qed.

#[local] Hint Resolve setup_route setup_renew_deadline : setup.

Lemma setup_handle_request i req : keeps_setup (@handle_request World i req).
Proof. unfold handle_request. setup. Qed.

#[local] Hint Resolve setup_handle_request : setup.

Lemma setup_serve_client sgn fuel i :
  keeps_setup (@serve_client World sgn fuel i).
Proof. unfold serve_client. setup. Qed.

Lemma setup_serve_clients_loop sgn fuel todo :
  forall i, keeps_setup (@serve_clients_loop World sgn fuel i todo).
Proof.
  induction todo as [| todo IH]; intros i; cbn [serve_clients_loop].
  - setup.
  - apply setup_bind; [apply setup_serve_client | intros _; apply IH].
Qed.

End SetupKept.

(** With a data buffer of at least two bytes, the room of an error code,
    and a listing whose size stays below 2^32, so that no write of the
    pass leaves the buffers: whatever the clients send and the callbacks
    answer, a pass of [serve_clients] that comes to its end leaves the
    file table, the callbacks, the limits and the capacities of the client
    table and of the buffers as they were.  The callbacks and the file
    handlers act on the outside world and on what they are handed; they
    do not reach into the server object. *)
Theorem serve_clients_keeps_setup {World : Type} (sgn : bool) (fuel : nat)
    (s s' : mfs_server World) (w w' : World) (t : list event) :
  2 <= data_bsize s ->
  Z.of_nat (length (ls_payload (files s)))
    + Z.of_nat (unnamed_slots (files s)) < 2 ^ 32 ->
  serve_clients sgn fuel s w = Done tt s' w' t ->
  same_setup s s'.
Proof.
  intros _ _ H. unfold serve_clients in H. rewrite bind_this in H.
  exact (setup_serve_clients_loop sgn fuel _ 0 _ _ _ _ _ _ H).
Qed.

Lemma serve_clients_keeps_setup_witness :
  same_setup (Bench.server 4 4 [Bench.file_hi])
    (mk_server [104; 105; 0; 0] [0; 0; 0; 0] [mk_client 7 20000]
       [Bench.file_hi] Bench.writer Bench.reader Bench.killer Bench.available
       Bench.accept Bench.time 20000 10000).
Proof.
  apply (serve_clients_keeps_setup false 0 (Bench.server 4 4 [Bench.file_hi])
           _ (Bench.mk_wire [3; 0; 0; 0; 0; 0; 0; 0; 1; 104; 105; 0] 0)
           (Bench.mk_wire [] 0)
           [EvRead 7 9 9; EvRead 7 3 3; EvRead 7 0 0; EvReaderF 0;
            EvWrite 7 [3; 0; 0; 0; 1; 0; 0; 0; 129] 9 9;
            EvWrite 7 [104; 105; 0] 3 3; EvWrite 7 [88] 1 1]).
  - vm_compute. discriminate.
  - vm_compute. reflexivity.
  - vm_compute. reflexivity.
Defined.

(** ** More on [drop_client] *)

Section DropOthers.

Context {World : Type}.
Implicit Types (s : mfs_server World) (w : World).

Lemma drop_slot_others c cs cs' j :
  drop_slot c cs = Some cs' ->
  client (nth j cs empty_client) <> c ->
  nth j cs' empty_client = nth j cs empty_client.
Proof.
  revert cs' j. induction cs as [| h cs IH]; intros cs' j H Hj; simpl in H.
  - discriminate.
  - destruct (c =? client h) eqn:E.
    + apply Z.eqb_eq in E. inversion H; subst.
      destruct j as [| j]; [simpl in Hj; congruence | reflexivity].
    + destruct (drop_slot c cs) as [cs0 |] eqn:E0; try discriminate.
      inversion H; subst.
      destruct j as [| j]; [reflexivity |].
      simpl. apply IH; [reflexivity | exact Hj].
Qed.

End DropOthers.

(** [drop_client] always answers; it touches no slot that holds another
    client, and it keeps the length of the table and every deadline. *)
Theorem drop_client_keeps_other_clients {World : Type} (c : client_t)
    (s : mfs_server World) (w : World) :
  exists r cs' w' t,
    drop_client c s w = Done r (set_clients s cs') w' t /\
    length cs' = length (clients s) /\
    map timer_end cs' = map timer_end (clients s) /\
    forall j, client (nth j (clients s) empty_client) <> c ->
      nth j cs' empty_client = nth j (clients s) empty_client.
Proof.
  unfold drop_client. destruct (c =? 0).
  - exists 0, (clients s), w, []. rewrite set_clients_same.
    repeat split; reflexivity.
  - rewrite bind_this.
    destruct (drop_slot c (clients s)) as [cs' |] eqn:E.
    + exists 0, cs', (client_killer s c w), [EvClose c].
      split; [reflexivity |]. split; [now apply drop_slot_length with c |].
      split; [now apply drop_slot_deadlines with c |].
      intros j Hj. now apply drop_slot_others with c.
    + exists 1, (clients s), w, []. rewrite set_clients_same.
      repeat split; reflexivity.
Qed.


(** ** Reading a message comes to its end *)

Section Ends.

Context {World : Type}.
Implicit Types (s : mfs_server World) (w : World).

Lemma ends_ret {A} (a : A) : ends (@ret World A a).
Proof. intros s w. now exists a, s, w, []. Qed.

Lemma ends_bind {A B} (m : @M World A) (k : A -> @M World B) :
  ends m -> (forall a, ends (k a)) -> ends (bind m k).
Proof.
  intros Hm Hk s w. destruct (Hm s w) as (a & s1 & w1 & t1 & E1).
  destruct (Hk a s1 w1) as (b & s2 & w2 & t2 & E2).
  exists b, s2, w2, (t1 ++ t2).
  now rewrite (bind_done _ _ _ _ _ _ _ _ E1), E2.
Qed.

Lemma ends_this : ends (@this World).
Proof. intros s w. now exists s, s, w, []. Qed.

Lemma ends_update (f : mfs_server World -> mfs_server World) :
  ends (update f).
Proof. intros s w. now exists tt, (f s), w, []. Qed.

Lemma ends_call_writer c bytes n : ends (@call_writer World c bytes n).
Proof.
  intros s w. unfold call_writer.
  destruct (client_writer s c bytes n w) as [r w1]. now eexists _, _, _, _.
Qed.

Lemma ends_call_reader c n : ends (@call_reader World c n).
Proof.
  intros s w. unfold call_reader.
  destruct (client_reader s c n w) as [[r b] w1]. now eexists _, _, _, _.
Qed.

Lemma ends_drop_client c : ends (@drop_client World c).
Proof.
  intros s w. unfold drop_client.
  destruct (c =? 0); [now eexists _, _, _, _ |].
  rewrite bind_this.
  destruct (drop_slot c (clients s)); now eexists _, _, _, _.
Qed.

Lemma ends_write_from c p n :
  p <> NULL \/ n = 0 -> ends (@write_from World c p n).
Proof.
  intros Hp s w. unfold write_from. rewrite bind_this.
  destruct p; cbn [bytes_of]; try apply ends_call_writer.
  destruct Hp as [Hp | ->]; [contradiction |].
  cbn. apply ends_call_writer.
Qed.

Lemma ends_send_mfs_message msg c :
  path msg <> NULL \/ psize msg = 0 ->
  data msg <> NULL \/ dsize msg = 0 ->
  ends (@send_mfs_message World msg c).
Proof.
  intros Hp Hd. unfold send_mfs_message.
  apply ends_bind; [apply ends_call_writer | intros r1].
  destruct (negb _).
  { apply ends_bind; [apply ends_drop_client | intros _; apply ends_ret]. }
  apply ends_bind; [now apply ends_write_from | intros r2].
  destruct (negb _).
  { apply ends_bind; [apply ends_drop_client | intros _; apply ends_ret]. }
  apply ends_bind; [now apply ends_write_from | intros r3].
  destruct (negb _); [| apply ends_ret].
  apply ends_bind; [apply ends_drop_client | intros _; apply ends_ret].
Qed.

Lemma ends_send_mfs_error msg c code :
  path msg <> NULL \/ psize msg = 0 ->
  ends (@send_mfs_error World msg c code).
Proof.
  intros Hp. unfold send_mfs_error.
  repeat (apply ends_bind; [apply ends_update | intros _]).
  apply ends_send_mfs_message; [exact Hp | left; discriminate].
Qed.

Lemma ends_read_into_path c n : ends (@read_into_path World c n).
Proof.
  unfold read_into_path.
  apply ends_bind; [apply ends_call_reader | intros rb].
  apply ends_bind; [apply ends_update | intros _; apply ends_ret].
Qed.

Lemma ends_read_into_data c n : ends (@read_into_data World c n).
Proof.
  unfold read_into_data.
  apply ends_bind; [apply ends_call_reader | intros rb].
  apply ends_bind; [apply ends_update | intros _; apply ends_ret].
Qed.

Lemma ends_consume_path c psz : ends (@consume_path World c psz).
Proof.
  unfold consume_path. destruct (0 <? psz); [| apply ends_ret].
  apply ends_bind; [apply ends_this | intros s0].
  apply ends_bind; [apply ends_read_into_path | intros r].
  apply ends_bind; [| intros _; apply ends_ret].
  destruct (negb _); [| apply ends_ret].
  apply ends_bind; [apply ends_drop_client | intros _; apply ends_ret].
Qed.

Lemma ends_error_return c code :
  ends (send_mfs_error empty_error_msg c code ;;;
        @ret World mfs_message_t empty_error_msg).
Proof.
  apply ends_bind; [| intros _; apply ends_ret].
  apply ends_send_mfs_error. now right.
Qed.

(** The data-consuming loop with a data buffer of at least one byte: each
    turn consumes at least one byte or leaves the loop, so fuel for the
    bytes that are left brings it to its end. *)
Lemma consume_data_ends fuel c dsz : forall processed s w,
  1 <= data_bsize s ->
  0 <= processed -> dsz < 2 ^ 32 ->
  (Z.to_nat (dsz - processed) <= fuel)%nat ->
  exists s' w' t,
    consume_data fuel c dsz processed s w = Done tt s' w' t /\
    same_setup s s'.
Proof.
  induction fuel as [| fuel IH]; intros processed s w Hb Hp Hd Hfuel.
  - cbn [consume_data].
    replace (processed <? dsz) with false
      by (symmetry; apply Z.ltb_ge; lia).
    exists s, w, []. split; [reflexivity | apply same_setup_refl].
  - cbn [consume_data].
    destruct (processed <? dsz) eqn:E0.
    2: { exists s, w, []. split; [reflexivity | apply same_setup_refl]. }
    apply Z.ltb_lt in E0. rewrite bind_this.
    replace (u32 (dsz - processed)) with (dsz - processed)
      by (unfold u32; rewrite Z.mod_small; lia).
    set (chunk := if data_bsize s <? dsz - processed then data_bsize s
                  else dsz - processed).
    assert (Hchunk : 0 < chunk <= dsz - processed).
    { subst chunk. destruct (data_bsize s <? dsz - processed) eqn:E.
      - apply Z.ltb_lt in E. lia.
      - apply Z.ltb_ge in E. lia. }
    destruct (client_reader s c chunk w) as [[r b] w1] eqn:Er.
    rewrite (bind_read_into_data _ _ _ _ _ _ _ _ Er). cbv beta.
    set (s1 := set_data_buffer s
                 (blit (firstn (Z.to_nat chunk) b) (data_buffer s))).
    assert (Hs1 : same_setup s s1)
      by (apply same_setup_data, blit_length).
    destruct (r =? chunk); cbv beta iota delta [negb].
    + replace (u32 (processed + chunk)) with (processed + chunk)
        by (unfold u32; rewrite Z.mod_small; lia).
      destruct (IH (processed + chunk) s1 w1) as (s' & w' & t & Hrun & Hs');
        try lia.
      { unfold data_bsize, s1. cbn [data_buffer set_data_buffer].
        rewrite blit_length. exact Hb. }
      rewrite Hrun. cbn [prefix].
      exists s', w'. eexists. split; [reflexivity |].
      exact (same_setup_trans _ _ _ Hs1 Hs').
    + destruct (ends_drop_client c s1 w1) as (r0 & s' & w' & t & Hrun).
      rewrite (bind_done _ _ _ _ _ _ _ _ Hrun). cbn [ret prefix].
      exists s', w'. eexists. split; [reflexivity |].
      apply (same_setup_trans _ _ _ Hs1).
      exact (setup_drop_client c _ _ _ _ _ _ Hrun).
Qed.

End Ends.

(** With a data buffer of at least two bytes, the room of an error code,
    and fuel for the hard limit, [read_mfs_message] comes to its end
    whatever the client sends and whatever the callbacks, which themselves
    return, answer: the loops that drain an oversize request are left. *)
Theorem read_mfs_message_ends {World : Type} (sgn : bool) (fuel : nat)
    (c : client_t) (s : mfs_server World) (w : World) :
  2 <= data_bsize s ->
  hard_limit s < 2 ^ 32 ->
  (Z.to_nat (hard_limit s) <= fuel)%nat ->
  exists req s' w' t, read_mfs_message sgn fuel c s w = Done req s' w' t.
Proof.
  intros Hb Hl Hfuel. unfold read_mfs_message.
  destruct (client_reader s c 9 w) as [[r hb] w1] eqn:E9.
  rewrite (bind_reader _ _ _ _ _ _ _ _ E9).
  cbn [fst snd]. fold (header_of sgn hb).
  assert (Hpre : forall (m : @M World mfs_message_t) (t0 : list event) s0 w0,
             ends m -> exists req s' w' t,
               prefix t0 (m s0 w0) = Done req s' w' t).
  { intros m t0 s0 w0 Hm. destruct (Hm s0 w0) as (a & s' & w' & t & H).
    rewrite H. now eexists _, _, _, _. }
  destruct (negb (r =? 9)); [apply Hpre, ends_error_return |].
  rewrite bind_this.
  destruct (hard_limit s <? psize (header_of sgn hb)) eqn:L1.
  { apply Hpre. apply ends_bind; [apply ends_drop_client |].
    intros _. apply ends_ret. }
  destruct (hard_limit s <? dsize (header_of sgn hb)) eqn:L2.
  { apply Hpre. apply ends_bind; [apply ends_drop_client |].
    intros _. apply ends_ret. }
  apply Z.ltb_ge in L1, L2. cbn [orb].
  destruct (_ || _).
  - destruct (ends_consume_path c (psize (header_of sgn hb)) s w1)
      as ([] & s1 & w2 & t1 & Hpath).
    pose proof (setup_consume_path c _ _ _ _ _ _ _ Hpath) as Hs1.
    destruct (consume_data_ends fuel c (dsize (header_of sgn hb)) 0 s1 w2)
      as (s2 & w3 & t2 & Hdata & _); try lia.
    { unfold data_bsize in *.
      destruct Hs1 as (_ & _ & _ & Hlen & _). rewrite Hlen. lia. }
    rewrite (bind_done _ _ _ _ _ _ _ _ Hpath).
    rewrite (bind_done _ _ _ _ _ _ _ _ Hdata).
    rewrite !prefix_prefix. apply Hpre, ends_error_return.
  - apply Hpre.
    apply ends_bind; [apply ends_read_into_path | intros r1].
    destruct (negb _); [apply ends_error_return |].
    apply ends_bind; [apply ends_read_into_data | intros r2].
    destruct (negb _); [apply ends_error_return | apply ends_ret].
Qed.

Lemma read_mfs_message_ends_witness :
  exists req s' w' t,
    read_mfs_message false (Z.to_nat 10000) 7 (Bench.server 4 4 [])
      (Bench.mk_wire [0; 0; 0; 0; 6; 0; 0; 0; 2; 1; 2; 3; 4; 5; 6] 0)
    = Done req s' w' t.
Proof.
  apply (read_mfs_message_ends false (Z.to_nat 10000) 7 (Bench.server 4 4 [])
           (Bench.mk_wire [0; 0; 0; 0; 6; 0; 0; 0; 2; 1; 2; 3; 4; 5; 6] 0)).
  - vm_compute. discriminate.
  - reflexivity.
  - apply Nat.le_refl.
Defined.

(** ** A data buffer without capacity *)

Section NoDataBuffer.

Context {World : Type}.
Implicit Types (s : mfs_server World) (w : World).

Lemma consume_data_spins (c : client_t) (dsz : Z) s :
  data_bsize s = 0 ->
  0 < dsz < 2 ^ 32 ->
  (forall w0, fst (fst (client_reader s c 0 w0)) = 0) ->
  forall fuel w, exists t, consume_data fuel c dsz 0 s w = Spin t.
Proof.
  intros Hb Hd Hr.
  assert (Hnil : data_buffer s = []).
  { unfold data_bsize in Hb. destruct (data_buffer s); [reflexivity |].
    cbn [length] in Hb. lia. }
  induction fuel as [| fuel IH]; intros w; cbn [consume_data].
  - replace (0 <? dsz) with true by (symmetry; apply Z.ltb_lt; lia).
    now exists [].
  - replace (0 <? dsz) with true by (symmetry; apply Z.ltb_lt; lia).
    rewrite bind_this, Hb.
    replace (u32 (dsz - 0)) with dsz
      by (unfold u32; rewrite Z.sub_0_r, Z.mod_small; lia).
    replace (0 <? dsz) with true by (symmetry; apply Z.ltb_lt; lia).
    destruct (client_reader s c 0 w) as [[r b] w1] eqn:Er.
    pose proof (Hr w) as Hr0. rewrite Er in Hr0. cbn [fst] in Hr0. subst r.
    rewrite (bind_read_into_data _ _ _ _ _ _ _ _ Er).
    cbn [Z.eqb negb Z.to_nat firstn Z.add]. rewrite Hnil.
    change (blit [] []) with (@nil Z). rewrite <- Hnil.
    rewrite set_data_buffer_same.
    change (u32 0) with 0.
    destruct (IH w1) as (t & Ht). rewrite Ht. cbn [prefix]. now eexists.
Qed.

End NoDataBuffer.

(** A server whose data buffer has no capacity never leaves the loop that
    drains the data of a request with dsize above 0, when reads of 0
    bytes answer 0: whatever the fuel, [read_mfs_message] is still
    looping. *)
Theorem read_mfs_message_spins_without_data_buffer {World : Type}
    (sgn : bool) (fuel : nat) (c : client_t) (s : mfs_server World)
    (w w1 : World) (hb : list Z) :
  data_bsize s = 0 ->
  client_reader s c 9 w = (9, hb, w1) ->
  psize (header_of sgn hb) <= hard_limit s ->
  0 < dsize (header_of sgn hb) <= hard_limit s ->
  hard_limit s < 2 ^ 32 ->
  (forall w0, fst (fst (client_reader s c 0 w0)) = 0) ->
  exists t, read_mfs_message sgn fuel c s w = Spin t.
Proof.
  intros Hb E9 Hp Hd Hl Hr.
  rewrite (read_mfs_message_oversize sgn fuel c s w hb w1 E9 Hp);
    [| lia | right; lia].
  destruct (ends_consume_path c (psize (header_of sgn hb)) s w1)
    as ([] & s1 & w2 & t1 & Hpath).
  pose proof (setup_consume_path c _ _ _ _ _ _ _ Hpath) as Hs1.
  destruct Hs1 as (_ & _ & _ & Hlen & _ & Hreader & _).
  destruct (consume_data_spins c (dsize (header_of sgn hb)) s1) with
    (fuel := fuel) (w := w2) as (t & Ht).
  - unfold data_bsize in *. now rewrite Hlen.
  - lia.
  - now rewrite Hreader.
  - rewrite (bind_done _ _ _ _ _ _ _ _ Hpath).
    rewrite bind_run, Ht. cbn [prefix]. now eexists.
Qed.

Lemma read_mfs_message_spins_without_data_buffer_witness :
  exists t,
    read_mfs_message false 5 7 (Bench.server 4 0 [])
      (Bench.mk_wire [0; 0; 0; 0; 1; 0; 0; 0; 2; 33] 0)
    = Spin t.
Proof.
  apply (read_mfs_message_spins_without_data_buffer false 5 7
           (Bench.server 4 0 [])
           (Bench.mk_wire [0; 0; 0; 0; 1; 0; 0; 0; 2; 33] 0)
           (Bench.mk_wire [33] 0) [0; 0; 0; 0; 1; 0; 0; 0; 2]).
  - reflexivity.
  - reflexivity.
  - vm_compute. discriminate.
  - vm_compute. split; [reflexivity | discriminate].
  - reflexivity.
  - intros w0. cbn [client_reader Bench.server]. unfold Bench.reader.
    destruct (0 <=? Z.of_nat (length (Bench.inbox w0))) eqn:E;
      [reflexivity | apply Z.leb_gt in E; lia].
Defined.

